(** * A shallow embedding of the [scripts] command runner

    The development follows the layout of the Python package:
    - [scripts/base.py]          : module [base]
    - [scripts/__init__.py]      : module [discovery]
    - [scripts/python/tests.py]  : module [tests]
    - [scripts/ci/_base.py]      : module [ci_base]
    - [scripts/ci/python_tests.py] : module [python_tests]
    - [scripts/python/linters.py] : module [linters]
    - [scripts/ci/approval_bot.py] : module [approval_bot]
    Module [objects] holds what [cls()] runs, module [examples] the concrete
    worlds and classes the examples are stated on.

    Stateful code is written in a state-and-exception monad [M] over an
    explicit [world] (current directory, file system, standard streams,
    command line, the two process-wide registers). *)

From Stdlib Require Import String Ascii ZArith List Sorted Lia.
From stdpp Require Import base option list strings gmap pretty.

Set Warnings "-register-all".
Local Open Scope string_scope.
Local Open Scope Z_scope.
Local Open Scope list_scope.

(** ** Strings as Python uses them *)

(** The line break ["\n"] and the double quote, as one-character strings. *)
Definition nl : string := String "010"%char EmptyString.
Definition dq : string := String "034"%char EmptyString.

(** [c in s] for a single character [c]. *)
Fixpoint contains_char (c : ascii) (s : string) : bool :=
  match s with
  | EmptyString => false
  | String a s' => if Ascii.eqb a c then true else contains_char c s'
  end.

(** [s.startswith(p)]. *)
Definition startswith (p s : string) : bool := String.prefix p s.

(** [s.replace(a, b)] for single characters [a] and [b]. *)
Fixpoint replace_char (a b : ascii) (s : string) : string :=
  match s with
  | EmptyString => EmptyString
  | String c s' => String (if Ascii.eqb c a then b else c) (replace_char a b s')
  end.

(** [s.lower()] on ASCII letters (the only ones that can reach the answers
    [y], [yes], [n], [no] of a prompt). *)
Definition lower_ascii (c : ascii) : ascii :=
  let n := nat_of_ascii c in
  if (Nat.leb 65 n && Nat.leb n 90)%bool then ascii_of_nat (n + 32) else c.

Fixpoint lower (s : string) : string :=
  match s with
  | EmptyString => EmptyString
  | String c s' => String (lower_ascii c) (lower s')
  end.

(** [sep.join(l)]. *)
Definition join (sep : string) (l : list string) : string := String.concat sep l.

(** [s[:-3]]. *)
Definition drop_last3 (s : string) : string :=
  String.substring 0 (String.length s - 3)%nat s.

(** [x in l] for a list of strings. *)
Definition str_in (x : string) (l : list string) : bool := bool_decide (x ∈ l).

(** ** Python values and their YAML representation *)

(** The values the document builders assemble.  [VDict] is a plain [dict],
    [VODict] a [collections.OrderedDict]; both keep insertion order. *)
Inductive value : Type :=
  | VStr (s : string)
  | VInt (z : Z)
  | VBool (b : bool)
  | VList (l : list value)
  | VDict (d : list (string * value))
  | VODict (d : list (string * value)).

(** Insertion-ordered mapping with string keys: [d[k] = v] replaces the value
    of an existing key in place and appends a new key at the end. *)
Definition odict := list (string * value).

Fixpoint od_set (k : string) (v : value) (d : odict) : odict :=
  match d with
  | [] => [(k, v)]
  | (k', v') :: d' =>
      if String.eqb k' k then (k, v) :: d' else (k', v') :: od_set k v d'
  end.

Fixpoint od_get (k : string) (d : odict) : option value :=
  match d with
  | [] => None
  | (k', v') :: d' => if String.eqb k' k then Some v' else od_get k d'
  end.

Definition od_keys (d : odict) : list string := map fst d.

(** Scalar styles of a YAML node: [None] leaves the choice to the emitter. *)
Inductive node : Type :=
  | NScalar (tag : string) (text : string) (style : option string)
  | NSeq (tag : string) (items : list node)
  | NMap (tag : string) (items : list (node * node)).

Definition tag_str : string := "tag:yaml.org,2002:str".
Definition tag_int : string := "tag:yaml.org,2002:int".
Definition tag_bool : string := "tag:yaml.org,2002:bool".
Definition tag_seq : string := "tag:yaml.org,2002:seq".
Definition tag_map : string := "tag:yaml.org,2002:map".

(** ** The world *)

(** Absolute paths, as the list of their components from the root. *)
Definition path := list string.

(** [p.parent]; the root is its own parent. *)
Definition parent (p : path) : path := removelast p.

(** What a path holds.  The text of a file is kept abstract: a file is either
    empty (just opened for writing) or holds the dump of one node. *)
Inductive fnode : Type :=
  | FFile (content : option node)
  | FDir.

(** A command class as [__init_subclass__] and [__init__] see it. *)
Record cls : Type := Cls {
  cls_qualname : string;     (* which class statement this is *)
  cls_name : string;         (* [cls.name], after inheritance *)
  cls_abstract : bool;       (* some abstract method is left undefined *)
  cls_is_pytest : bool;      (* [Pytest.__init__] is the constructor *)
  cls_bypass : bool          (* [getattr(self, "bypass", False)] *)
}.

(** An instance; all that the modelled code reads from it is its class. *)
Record instance : Type := Instance { inst_cls : cls }.

Record world : Type := World {
  w_cwd : path;                               (* the current directory *)
  w_fs : gmap path fnode;                     (* the file system *)
  w_stdin : list string;                      (* lines still to be read *)
  w_stderr : list string;                     (* lines printed to stderr *)
  w_argv : list string;                       (* [sys.argv[1:]] *)
  w_commands : gmap string instance;          (* [base._COMMAND_REGISTER] *)
  w_tests : list instance                     (* [tests._TEST_REGISTRY] *)
}.

Definition with_cwd (d : path) (w : world) : world :=
  World d (w_fs w) (w_stdin w) (w_stderr w) (w_argv w)
        (w_commands w) (w_tests w).
Definition with_fs (f : gmap path fnode) (w : world) : world :=
  World (w_cwd w) f (w_stdin w) (w_stderr w) (w_argv w)
        (w_commands w) (w_tests w).
Definition with_stdin (i : list string) (w : world) : world :=
  World (w_cwd w) (w_fs w) i (w_stderr w) (w_argv w)
        (w_commands w) (w_tests w).
Definition with_stderr (e : list string) (w : world) : world :=
  World (w_cwd w) (w_fs w) (w_stdin w) e (w_argv w)
        (w_commands w) (w_tests w).
Definition with_commands (c : gmap string instance) (w : world) : world :=
  World (w_cwd w) (w_fs w) (w_stdin w) (w_stderr w) (w_argv w)
        c (w_tests w).
Definition with_tests (t : list instance) (w : world) : world :=
  World (w_cwd w) (w_fs w) (w_stdin w) (w_stderr w) (w_argv w)
        (w_commands w) t.

(** ** Exceptions and the monad *)

Inductive exn : Type :=
  | CommandError (msg : option string)   (* [base.CommandError] *)
  | NotImplementedError
  | SystemExit (status : Z)              (* raised by [exit(n)] *)
  | ArgparseExit                         (* [SystemExit] raised by argparse
                                            itself: usage error or help *)
  | FileNotFoundError
  | FileExistsError
  | NotADirectoryError
  | IsADirectoryError
  | EOFError
  | TypeError
  | KeyError (key : string).

Inductive res (A : Type) : Type :=
  | Ret (a : A) (w : world)
  | Raise (e : exn) (w : world).
Arguments Ret {A} a w.
Arguments Raise {A} e w.

Definition M (A : Type) : Type := world → res A.

Definition ret {A} (a : A) : M A := λ w, Ret a w.
Definition raise {A} (e : exn) : M A := λ w, Raise e w.
Definition bind {A B} (m : M A) (k : A → M B) : M B :=
  λ w, match m w with
       | Ret a w' => k a w'
       | Raise e w' => Raise e w'
       end.
Definition get : M world := λ w, Ret w w.
Definition modify (f : world → world) : M unit := λ w, Ret tt (f w).

Declare Scope py_scope.
Delimit Scope py_scope with py.
Notation "x <- c ;; k" := (bind c (λ x, k))
  (at level 100, c at next level, right associativity) : py_scope.
Notation "c ;;; k" := (bind c (λ _, k))
  (at level 100, right associativity) : py_scope.
Local Open Scope py_scope.

(** [try: body except CommandError as err: handler(err)]. *)
Definition except_CommandError {A} (body : M A) (handler : option string → M A)
  : M A :=
  λ w, match body w with
       | Ret a w' => Ret a w'
       | Raise (CommandError msg) w' => handler msg w'
       | Raise e w' => Raise e w'
       end.

(** How a process ends once a command call comes back to the entry point. *)
Inductive outcome : Type :=
  | ExitStatus (n : Z)
  | UncaughtFailure (e : exn).

Definition process_outcome {A} (r : res A) : outcome :=
  match r with
  | Ret _ _ => ExitStatus 0
  | Raise (SystemExit n) _ => ExitStatus n
  | Raise e _ => UncaughtFailure e
  end.

Definition final_world {A} (r : res A) : world :=
  match r with Ret _ w => w | Raise _ w => w end.

(** ** Operating-system primitives

    The file system is a finite map from absolute paths to what they hold; the
    root is always a directory.  Paths are not resolved further: there are no
    symbolic links, no [..] components and no permissions. *)

Definition stat (fs : gmap path fnode) (p : path) : option fnode :=
  match p with
  | [] => Some FDir
  | _ => fs !! p
  end.

Definition is_dir (fs : gmap path fnode) (p : path) : bool :=
  match stat fs p with Some FDir => true | _ => false end.

Definition path_exists (fs : gmap path fnode) (p : path) : bool :=
  match stat fs p with Some _ => true | None => false end.

(** What the system reports for a path that has no entry.  It walks the
    path from the root, [above] being the part walked and [below] the
    components left: the first component that cannot be entered decides,
    [ENOTDIR] when a regular file sits there, [ENOENT] when nothing does or
    when only the last component is missing. *)
Fixpoint unreachable (fs : gmap path fnode) (above : path)
    (below : list string) : exn :=
  match below with
  | [] => FileNotFoundError
  | c :: rest =>
      match stat fs above with
      | Some FDir => unreachable fs (above ++ [c]) rest
      | Some (FFile _) => NotADirectoryError
      | None => FileNotFoundError
      end
  end.

Definition no_entry (fs : gmap path fnode) (p : path) : exn :=
  unreachable fs [] p.

(** What opening or creating an entry under [parent p] raises, if anything. *)
Definition check_parent (fs : gmap path fnode) (p : path) : option exn :=
  match stat fs (parent p) with
  | Some FDir => None
  | Some (FFile _) => Some NotADirectoryError
  | None => Some (no_entry fs (parent p))
  end.

(** [os.mkdir(p)]. *)
Definition os_mkdir (p : path) (fs : gmap path fnode) : exn + gmap path fnode :=
  match stat fs p with
  | Some _ => inl FileExistsError
  | None =>
      match check_parent fs p with
      | Some e => inl e
      | None => inr (<[p := FDir]> fs)
      end
  end.

(** [Path.mkdir(parents=False, exist_ok=True)]: a missing parent is an error,
    any other failure is forgiven when the path is a directory already. *)
Definition Path_mkdir_leaf (p : path) (fs : gmap path fnode)
  : exn + gmap path fnode :=
  match os_mkdir p fs with
  | inr fs' => inr fs'
  | inl FileNotFoundError => inl FileNotFoundError
  | inl e => if is_dir fs p then inr fs else inl e
  end.

(** [Path.mkdir(parents=True, exist_ok=True)], by recursion on the reversed
    path [rp], so that the parent is the tail. *)
Fixpoint Path_mkdir_rev (rp : list string) (fs : gmap path fnode)
  : exn + gmap path fnode :=
  match os_mkdir (rev rp) fs with
  | inr fs' => inr fs'
  | inl FileNotFoundError =>
      match rp with
      | [] => inl FileNotFoundError
      | _ :: rparent =>
          match Path_mkdir_rev rparent fs with
          | inl e => inl e
          | inr fs1 => Path_mkdir_leaf (rev rp) fs1
          end
      end
  | inl e => if is_dir fs (rev rp) then inr fs else inl e
  end.

Definition Path_mkdir (p : path) (fs : gmap path fnode) : exn + gmap path fnode :=
  Path_mkdir_rev (rev p) fs.

(** [open(p, "w")]: the file is created, or truncated if it exists. *)
Definition open_w (p : path) (fs : gmap path fnode) : exn + gmap path fnode :=
  match stat fs p with
  | Some FDir => inl IsADirectoryError
  | _ =>
      match check_parent fs p with
      | Some e => inl e
      | None => inr (<[p := FFile None]> fs)
      end
  end.

(** [os.remove(p)]. *)
Definition os_remove (p : path) (fs : gmap path fnode) : exn + gmap path fnode :=
  match stat fs p with
  | Some (FFile _) => inr (delete p fs)
  | Some FDir => inl IsADirectoryError
  | None => inl (no_entry fs p)
  end.

(** A file-system call inside the monad. *)
Definition fs_call (f : gmap path fnode → exn + gmap path fnode) : M unit :=
  λ w, match f (w_fs w) with
       | inl e => Raise e w
       | inr fs' => Ret tt (with_fs fs' w)
       end.

(** [os.chdir(d)]. *)
Definition os_chdir (d : path) : M unit :=
  λ w, match stat (w_fs w) d with
       | Some FDir => Ret tt (with_cwd d w)
       | Some (FFile _) => Raise NotADirectoryError w
       | None => Raise (no_entry (w_fs w) d) w
       end.

(** [print(s, file=sys.stderr)]. *)
Definition print_stderr (s : string) : M unit :=
  modify (λ w, with_stderr (w_stderr w ++ [s]) w).

(** [input()]. *)
Definition input : M string :=
  λ w, match w_stdin w with
       | [] => Raise EOFError w
       | l :: rest => Ret l (with_stdin rest w)
       end.

(** [exit(n)]. *)
Definition exit {A} (n : Z) : M A := raise (SystemExit n).

(** ** Object construction

    [cls()] runs the constructor the class inherits.  The only constructor
    written in the package is [Pytest.__init__] (python/tests.py), which adds
    the new instance to the test registry unless the class bypasses it. *)
Module objects.

Definition Pytest__init__ (self : instance) : M unit :=
  if negb (cls_bypass (inst_cls self))
  then modify (λ w, with_tests (w_tests w ++ [self]) w)
  else ret tt.

(** [cls()] when Python agrees to make the instance: the constructor the
    class inherits runs on the new object. *)
Definition construct (c : cls) : M instance :=
  let self := Instance c in
  (if cls_is_pytest c then Pytest__init__ self else ret tt) ;;;
  ret self.

(** [cls()] once the class statement is over: [ABCMeta] has recorded the
    abstract methods of the class, and Python refuses to instantiate a class
    that has some. *)
Definition new (c : cls) : M instance :=
  if cls_abstract c then raise TypeError else construct c.

(** The class statements that leave an instance in the test registry: the
    class has a name, its constructor is [Pytest.__init__] and it does not
    bypass the registry. *)
Definition registers_test (c : cls) : bool :=
  (negb (String.eqb (cls_name c) EmptyString) && cls_is_pytest c
   && negb (cls_bypass c))%bool.

End objects.

(** ** scripts/base.py *)
Module base.

(** A command class: its class attributes, and its behaviour as far as the
    invocation sees it.  [K] is what [handle] receives: the parsed keyword
    arguments of a [Command], the raw argument list of a
    [CommandWithParser]. *)
Record Command (K : Type) : Type := {
  name : string;
  cwd : option path;
  (* [get_parser], [add_arguments] and [parser.parse_args(args)] *)
  parse_args : list string → exn + K;
  handle : K → M unit
}.
Arguments name {K} _.
Arguments cwd {K} _.
Arguments parse_args {K} _ _.
Arguments handle {K} _ _.

(** The context manager [set_cwd], around the body of its [with] block:
    [enter_cwd] is the [if] before [yield].  When the body raises, the
    generator is thrown the exception at its [yield] and ends there: the
    line after [yield] does not run. *)
Definition enter_cwd (cwd : option path) : M unit :=
  match cwd with
  | Some d => os_chdir d
  | None => ret tt
  end.

Definition set_cwd {A} (cwd : option path) (body : M A) : M A :=
  w <- get ;;
  let _cwd := w_cwd w in
  enter_cwd cwd ;;;
  λ w1, match body w1 with
        | Ret a w2 => (os_chdir _cwd ;;; ret a) w2
        | Raise e w2 => Raise e w2
        end.

(** [_BaseCommand.__call__]. *)
Definition BaseCommand__call__ (cwd : option path) (handle : M unit) : M unit :=
  set_cwd cwd handle.

(** [args or sys.argv[1:]]. *)
Definition effective_args (args : option (list string)) (w : world)
  : list string :=
  match args with
  | Some (a :: l) => a :: l
  | _ => w_argv w
  end.

Definition args_or_argv (args : option (list string)) : M (list string) :=
  w <- get ;; ret (effective_args args w).

(** [str(err)] for a [CommandError] built with no or one argument. *)
Definition str_err (msg : option string) : string :=
  match msg with
  | Some m => m
  | None => EmptyString
  end.

(** [Command.__call__]. *)
Definition Command__call__ {K} (self : Command K) (args : option (list string))
  : M unit :=
  args <- args_or_argv args ;;
  arguments <- (λ w, match parse_args self args with
                     | inl e => Raise e w
                     | inr k => Ret k w
                     end) ;;
  except_CommandError
    (set_cwd (cwd self) (handle self arguments))
    (λ err, print_stderr (str_err err) ;;; exit 1).


(** The [try] statement the two [__call__] methods above share, around an
    arbitrary body. *)
Definition guarded (cwd : option path) (body : M unit) : M unit :=
  except_CommandError
    (set_cwd cwd body)
    (λ err, print_stderr (str_err err) ;;; exit 1).

(** [_BaseCommand.as_command], called on a class whose statement is over. *)
Definition as_command (c : cls) : M instance := objects.new c.

(** [_BaseCommand.__init_subclass__], run by every class statement below
    [_BaseCommand].  It runs inside [type.__new__], before [ABCMeta] records
    the abstract methods of the class it is building: the [cls()] of
    [cls.as_command()] is not refused there, whatever the class leaves
    abstract. *)
Definition __init_subclass__ (c : cls) : M unit :=
  if String.eqb (cls_name c) EmptyString then ret tt
  else
    self <- objects.construct c ;;
    modify (λ w, with_commands (<[cls_name c := self]> (w_commands w)) w).

(** A module body as a sequence of class statements. *)
Fixpoint define_all (cs : list cls) : M unit :=
  match cs with
  | [] => ret tt
  | c :: cs' => __init_subclass__ c ;;; define_all cs'
  end.

(** [ExecCommand]: the class attributes and the hooks a subclass overrides.
    The environment is a list of name and value; the sinks [get_stdout] and
    [get_stderr] hand the streams of the process to the child and are not
    modelled. *)
Record ExecCommand (K : Type) : Type := {
  e_name : string;
  command_name : string;
  e_cwd : option path;
  e_parse_args : list string → exn + K;
  get_args : K → list string;
  get_env : K → list (string * string)
}.
Arguments e_name {K} _.
Arguments command_name {K} _.
Arguments e_cwd {K} _.
Arguments e_parse_args {K} _ _.
Arguments get_args {K} _ _.
Arguments get_env {K} _ _.

(** The defaults [ExecCommand] gives its hooks. *)
Definition default_get_args {K} (_ : K) : list string := [].
Definition default_get_env {K} (_ : K) : list (string * string) := [].

(** [Popen_wait argv cwd env] stands for [subprocess.Popen(argv, cwd=cwd,
    env=env, ...)] followed by [process.wait()]: what the child does to the
    world, and its exit status. *)
Section exec.
Variable Popen_wait :
  list string → option path → list (string * string) → M Z.

(** [ExecCommand.handle]. *)
Definition ExecCommand_handle {K} (self : ExecCommand K) (kwargs : K) : M unit :=
  let command_args := get_args self kwargs in
  result <- Popen_wait (command_name self :: command_args) (e_cwd self)
                       (get_env self kwargs) ;;
  if negb (result =? 0) then raise (CommandError None) else ret tt.

(** An [ExecCommand] class as the [Command] it is. *)
Definition ExecCommand_command {K} (self : ExecCommand K) : Command K :=
  {| name := e_name self;
     cwd := e_cwd self;
     parse_args := e_parse_args self;
     handle := ExecCommand_handle self |}.

End exec.

End base.

(** ** scripts/__init__.py: discovery *)
Module discovery.

(** An entry of a directory, as [is_dir()] and [is_file()] classify it. *)
Inductive entry : Type :=
  | EFile (name : string)
  | EDir (name : string) (children : list entry)
  | EOther (name : string).     (* neither a directory nor a file *)

(** [s.rfind(c)], with [None] for [-1]. *)
Fixpoint rfind (c : ascii) (s : string) : option nat :=
  match s with
  | EmptyString => None
  | String a s' =>
      match rfind c s' with
      | Some i => Some (S i)
      | None => if Ascii.eqb a c then Some 0%nat else None
      end
  end.

(** [PurePath.suffix] of a file name. *)
Definition suffix (name : string) : string :=
  match rfind "." name with
  | Some i =>
      if (Nat.ltb 0 i && Nat.ltb i (String.length name - 1))%bool
      then String.substring i (String.length name - i) name
      else EmptyString
  | None => EmptyString
  end.

(** The test of the [elif] branch on a file name. *)
Definition eligible (name : string) : bool :=
  (negb (startswith "_" name) && String.eqb (suffix name) ".py")%bool.

(** The body of the loop of [_walk_files] for one entry of directory
    [dir]; the paths are relative to the directory the walk started in. *)
Fixpoint walk_entry (dir : path) (exclude_current : bool) (e : entry)
  : list path :=
  match e with
  | EDir n children => flat_map (walk_entry (dir ++ [n]) false) children
  | EFile n =>
      if (negb exclude_current && eligible n)%bool then [dir ++ [n]] else []
  | EOther _ => []
  end.

(** [_walk_files(path, exclude_current)], where [entries] is what
    [path.iterdir()] lists. *)
Definition _walk_files (dir : path) (entries : list entry)
    (exclude_current : bool) : list path :=
  flat_map (walk_entry dir exclude_current) entries.

(** [str(file.relative_to(root)).replace("/", ".")[:-3]]. *)
Definition import_name (file : path) : string :=
  drop_last3 (replace_char "/" "." (join "/" file)).

(** [_import_all_modules]: the names handed to [importlib.import_module],
    in order, each relative to the package. *)
Definition _import_all_modules (entries : list entry) : list string :=
  map (λ file, "." +:+ import_name file) (_walk_files [] entries true).

(** The module-level [__getattr__]. *)
Definition __getattr__ (name : string) : M instance :=
  w <- get ;;
  match w_commands w !! name with
  | Some c => ret c
  | None => raise (KeyError name)
  end.

(** A regular file named [n] sits in the directory reached from [es] by
    the directory names [dir]. *)
Inductive file_at : list entry → path → string → Prop :=
  | file_here es n : EFile n ∈ es → file_at es [] n
  | file_below es d children dir n :
      EDir d children ∈ es → file_at children dir n →
      file_at es (d :: dir) n.

(** What the walk is to yield below directory [dir]: the eligible regular
    files, all of them when the current directory is not excluded, those of
    the sub-directories only when it is. *)
Definition yields (es : list entry) (dir : path)
    (exclude_current : bool) (p : path) : Prop :=
  ∃ sub n, p = dir ++ sub ++ [n] ∧ file_at es sub n ∧
           eligible n = true ∧
           (exclude_current = true → sub ≠ []).

End discovery.

(** ** scripts/python/tests.py *)
Module tests.

(** The class statements of the module, in order.  Only [Pytest] and
    [AllPythonTests] inherit [Pytest.__init__]; all but [Pytest], [MyPy]
    and [ImportLinter] set [bypass]. *)
Definition Pytest : cls := Cls "Pytest" "pytest" false true false.
Definition NamedPytest : cls := Cls "NamedPytest" "test_suite" false false true.
Definition AllPythonTests : cls := Cls "AllPythonTests" "all_tests" false true true.
Definition Coverage : cls := Cls "Coverage" "coverage" false false true.
Definition MyPy : cls := Cls "MyPy" "mypy" false false false.
Definition ImportLinter : cls := Cls "ImportLinter" "import_linter" false false false.

Definition module_body : list cls :=
  [Pytest; NamedPytest; AllPythonTests; Coverage; MyPy; ImportLinter].

(** Importing the module for the first time. *)
Definition import : M unit := base.define_all module_body.

(** [get_all_tests]. *)
Definition get_all_tests : M (list instance) :=
  w <- get ;; ret (w_tests w).

(** A command that declares no argument of its own. *)
Definition no_arguments (args : list string) : exn + unit :=
  match args with
  | [] => inr tt
  | _ => inl ArgparseExit
  end.

(** [ImportLinter] as a command.  [lint_imports] is the checker of the
    import-linter package; its result is true when a contract is broken.
    [project_root] is [base.PROJECT_ROOT] when the class is defined. *)
Definition ImportLinter_handle (lint_imports : M bool) (_ : unit) : M unit :=
  failed <- lint_imports ;;
  if (failed : bool) then raise (CommandError None) else ret tt.

Definition ImportLinter_command (project_root : path) (lint_imports : M bool)
  : base.Command unit :=
  {| base.name := cls_name ImportLinter;
     base.cwd := Some (parent project_root);
     base.parse_args := no_arguments;
     base.handle := ImportLinter_handle lint_imports |}.

(** From here on [pytest_main] is [pytest.cmdline.main]: what a test session
    does to the world, and its exit status; [get_defaults] is what
    [get_default_options()] followed by [get_default_files()] gives for an
    instance; [mypy_main] is [mypy.main(args=..., clean_exit=True)], which
    ends in [SystemExit] when it has something to report. *)
Section runners.
Variable pytest_main : list string → M Z.
Variable get_defaults : instance → list string.
Variable mypy_main : list string → M unit.










End runners.

End tests.

(** ** scripts/ci/_base.py *)
Module ci_base.

(** *** Paths *)

Fixpoint split_on (c : ascii) (s : string) : list string :=
  match s with
  | EmptyString => [EmptyString]
  | String a s' =>
      if Ascii.eqb a c then EmptyString :: split_on c s'
      else match split_on c s' with
           | [] => [String a EmptyString]
           | h :: t => String a h :: t
           end
  end.

(** [base.joinpath(s)]: the components of [s], without the empty ones and
    the [.] ones; an absolute [s] replaces [base]. *)
Definition joinpath (base : path) (s : string) : path :=
  let parts :=
    filter (λ x, x ≠ EmptyString ∧ x ≠ ".") (split_on "/" s) in
  if startswith "/" s then parts else base ++ parts.

Definition BASE_WORKFLOW_DIR (PROJECT_ROOT : path) : path :=
  parent PROJECT_ROOT ++ [".github"; "workflows"].
Definition BASE_ACTION_DIR (PROJECT_ROOT : path) : path :=
  parent PROJECT_ROOT ++ [".github"; "actions"].

(** *** Representers *)

(** [multiline_str_representer]: [represent_scalar] with style [|] for a
    string with a line break, with the default style otherwise. *)
Definition multiline_str_representer (data : string) : node :=
  if contains_char "010" data
  then NScalar tag_str data (Some "|")
  else NScalar tag_str data None.

Fixpoint insert_by_key (kv : string * node) (l : list (string * node))
  : list (string * node) :=
  match l with
  | [] => [kv]
  | h :: t =>
      if String.leb (fst kv) (fst h) then kv :: h :: t
      else h :: insert_by_key kv t
  end.

(** The order [yaml.dump] gives the items of a plain [dict] (its default
    [sort_keys=True]). *)
Definition sort_items (l : list (string * node)) : list (string * node) :=
  foldr insert_by_key [] l.

Definition key_nodes (l : list (string * node)) : list (node * node) :=
  map (λ kv, (multiline_str_representer (fst kv), snd kv)) l.

(** The node graph [yaml.dump] builds: the two representers registered by
    the module, for [OrderedDict] (items in their own order) and for [str],
    and the library's own ones for the other types. *)
Fixpoint represent (v : value) : node :=
  match v with
  | VStr s => multiline_str_representer s
  | VInt z => NScalar tag_int (pretty z) None
  | VBool b => NScalar tag_bool (if b then "true" else "false") None
  | VList l => NSeq tag_seq (map represent l)
  | VDict d =>
      NMap tag_map
        (key_nodes (sort_items
           (map (λ kv, match kv with (k, x) => (k, represent x) end) d)))
  | VODict d =>
      NMap tag_map
        (key_nodes (map (λ kv, match kv with (k, x) => (k, represent x) end) d))
  end.

(** The keys of a mapping node, as the scalars they are. *)
Definition node_keys (n : node) : list string :=
  match n with
  | NMap _ items =>
      flat_map (λ kv, match fst kv with
                      | NScalar _ k _ => [k]
                      | _ => []
                      end) items
  | _ => []
  end.

(** [yaml.dump(v, f)] on the file opened at [p]. *)
Definition yaml_dump (v : value) (p : path) : M unit :=
  modify (λ w, with_fs (<[p := FFile (Some (represent v))]> (w_fs w)) w).

(** Python truth value, as [if permissions := ...] takes it. *)
Definition truthy (v : value) : bool :=
  match v with
  | VStr s => negb (String.eqb s EmptyString)
  | VInt z => negb (z =? 0)
  | VBool b => b
  | VList l => match l with [] => false | _ => true end
  | VDict d | VODict d => match d with [] => false | _ => true end
  end.

(** *** Sub-commands *)

(** The namespace [parse_args] returns: [func] is set by the sub-parser
    that ran, next to the arguments that sub-parser declares. *)
Inductive namespace (K : Type) : Type :=
  | NoFunc
  | FuncDelete
  | FuncCreate (kwargs : K).
Arguments NoFunc {K}.
Arguments FuncDelete {K}.
Arguments FuncCreate {K} kwargs.

(** [add_arguments] followed by [parse_args]: a parser whose only argument
    is an optional group of the sub-commands [delete] and [create].
    [create_arguments] is how the [create] sub-parser, which subclasses
    extend, parses what follows its name.  Whatever is neither the empty
    list nor one of the two names is settled by argparse itself. *)
Definition add_arguments {K} (create_arguments : list string → exn + K)
    (args : list string) : exn + namespace K :=
  match args with
  | [] => inr NoFunc
  | sub :: rest =>
      if String.eqb sub "delete" then
        match rest with
        | [] => inr FuncDelete
        | _ => inl ArgparseExit
        end
      else if String.eqb sub "create" then
        match create_arguments rest with
        | inl e => inl e
        | inr k => inr (FuncCreate k)
        end
      else inl ArgparseExit
  end.

Definition no_command : string :=
  "No command provided. Use `add` or `delete` command.".

(** *** Workflow *)

Record Workflow (K : Type) : Type := {
  name : string;
  workflow_name : string;
  workflow_id : string;
  cwd : option path;
  get_jobs : K → M value;
  get_triggers : K → M value;
  get_permissions : M value;
  (* what the subclass adds to the [create] sub-parser *)
  create_arguments : list string → exn + K;
  (* an overriding [create], given [super().create] *)
  create_override : option ((K → M unit) → K → M unit)
}.
Arguments name {K} _.
Arguments workflow_name {K} _.
Arguments workflow_id {K} _.
Arguments cwd {K} _.
Arguments get_jobs {K} _ _.
Arguments get_triggers {K} _ _.
Arguments get_permissions {K} _.
Arguments create_arguments {K} _ _.
Arguments create_override {K} _.

(** The hooks as [Workflow] itself defines them. *)
Definition default_get_jobs {K} (_ : K) : M value := raise NotImplementedError.
Definition default_get_triggers {K} (_ : K) : M value :=
  ret (VDict [("push", VDict [("branches", VList [VStr "main"])]);
              ("pull_request", VDict [("branches", VList [VStr "main"])])]).
Definition default_get_permissions : M value := ret (VDict []).

(** A mapping with no key. *)
Definition empty_mapping (v : value) : Prop := v = VDict [] ∨ v = VODict [].

Definition get_workflow_definition {K} (self : Workflow K) (kwargs : K)
  : M odict :=
  let workflow := [] in
  let workflow := od_set "name" (VStr (workflow_name self)) workflow in
  let workflow := od_set "run-name" (VStr (workflow_id self)) workflow in
  permissions <- get_permissions self ;;
  let workflow :=
    if truthy permissions then od_set "permissions" permissions workflow
    else workflow in
  triggers <- get_triggers self kwargs ;;
  let workflow := od_set "on" triggers workflow in
  jobs <- get_jobs self kwargs ;;
  let workflow := od_set "jobs" jobs workflow in
  ret workflow.

(** *** Action *)

Record Action (K : Type) : Type := {
  a_name : string;
  action_name : string;
  action_id : string;
  description : string;
  using_ : string;
  a_cwd : option path;
  get_steps : K → M (list value);
  a_create_arguments : list string → exn + K
}.
Arguments a_name {K} _.
Arguments action_name {K} _.
Arguments action_id {K} _.
Arguments description {K} _.
Arguments using_ {K} _.
Arguments a_cwd {K} _.
Arguments get_steps {K} _ _.
Arguments a_create_arguments {K} _ _.

Definition get_action_definition {K} (self : Action K) (kwargs : K) : M value :=
  steps <- get_steps self kwargs ;;
  ret (VDict [("name", VStr (action_name self));
              ("description", VStr (description self));
              ("runs", VDict [("using", VStr (using_ self));
                              ("steps", VList steps)])]).

(** *** Paths and sub-commands *)

(** From here on [PROJECT_ROOT] is [base.PROJECT_ROOT], the directory two
    levels above [scripts/base.py], wherever the package is installed. *)
Section paths.
Variable PROJECT_ROOT : path.

Definition workflow_path {K} (self : Workflow K) : path :=
  joinpath (BASE_WORKFLOW_DIR PROJECT_ROOT) (workflow_id self +:+ ".yml").

(** [Workflow.create]: the file is opened before the document is built. *)
Definition Workflow_create {K} (self : Workflow K) (kwargs : K) : M unit :=
  fs_call (Path_mkdir (parent (workflow_path self))) ;;;
  fs_call (open_w (workflow_path self)) ;;;
  doc <- get_workflow_definition self kwargs ;;
  yaml_dump (VODict doc) (workflow_path self).

(** [Workflow.delete]. *)
Definition Workflow_delete {K} (self : Workflow K) : M unit :=
  w <- get ;;
  if path_exists (w_fs w) (workflow_path self)
  then fs_call (os_remove (workflow_path self))
  else ret tt.

(** [self.create], after method resolution. *)
Definition Workflow_self_create {K} (self : Workflow K) : K → M unit :=
  match create_override self with
  | Some f => f (Workflow_create self)
  | None => Workflow_create self
  end.

(** [Workflow.handle]; [func] is one of the bound methods [self.delete] and
    [self.create]. *)
Definition Workflow_handle {K} (self : Workflow K) (ns : namespace K) : M unit :=
  match ns with
  | NoFunc => raise (CommandError (Some no_command))
  | FuncDelete => Workflow_delete self
  | FuncCreate kwargs => Workflow_self_create self kwargs
  end.

(** A workflow class as the command it is. *)
Definition Workflow_command {K} (self : Workflow K)
  : base.Command (namespace K) :=
  {| base.name := name self;
     base.cwd := cwd self;
     base.parse_args := add_arguments (create_arguments self);
     base.handle := Workflow_handle self |}.

(** *** Action: paths and sub-commands *)

Definition action_path {K} (self : Action K) : path :=
  joinpath (BASE_ACTION_DIR PROJECT_ROOT) (action_id self).

(** The document of the action, [action_path/action.yml]. *)
Definition action_file {K} (self : Action K) : path :=
  joinpath (action_path self) "action.yml".

(** [Action.create]. *)
Definition Action_create {K} (self : Action K) (kwargs : K) : M unit :=
  fs_call (Path_mkdir (action_path self)) ;;;
  fs_call (open_w (action_file self)) ;;;
  doc <- get_action_definition self kwargs ;;
  yaml_dump doc (action_file self).

(** [Action.delete]: no test that the file is there. *)
Definition Action_delete {K} (self : Action K) : M unit :=
  fs_call (os_remove (action_file self)).

Definition Action_handle {K} (self : Action K) (ns : namespace K) : M unit :=
  match ns with
  | NoFunc => raise (CommandError (Some no_command))
  | FuncDelete => Action_delete self
  | FuncCreate kwargs => Action_create self kwargs
  end.

Definition Action_command {K} (self : Action K)
  : base.Command (namespace K) :=
  {| base.name := a_name self;
     base.cwd := a_cwd self;
     base.parse_args := add_arguments (a_create_arguments self);
     base.handle := Action_handle self |}.

End paths.

End ci_base.

(** ** scripts/ci/python_tests.py *)
Module python_tests.

Import ci_base.

(** The keyword arguments the [create] sub-parser of the generator hands
    over, each possibly absent as in the signatures of the methods. *)
Record kwargs : Type := Kwargs {
  tests : option (list string);
  required : option (list string);
  coverage_fail_under : option Z;
  coverage_fail_regressed : option bool
}.

(** *** PythonBuildAction *)

Definition PythonBuildAction_get_steps (_ : unit) : M (list value) :=
  ret [VDict [("name", VStr "Install git");
              ("shell", VStr "bash");
              ("run", VStr "apt update && apt install git -y")];
       VDict [("name", VStr "Checkout");
              ("uses", VStr "actions/checkout@v4")];
       VDict [("name", VStr "Install dependencies");
              ("shell", VStr "bash");
              ("run", VStr (join nl ["pip install -r requirements.txt";
                                     "poetry install --with=dev"]))]].

Definition PythonBuildAction : Action unit :=
  {| a_name := "github_python_build";
     action_name := "Build python application.";
     action_id := "build";
     description := EmptyString;
     using_ := "composite";
     a_cwd := None;
     get_steps := PythonBuildAction_get_steps;
     a_create_arguments := tests.no_arguments |}.

(** *** GitHubPythonTest: prompts and shared steps *)

(** The loop of [prompt_bool] over the lines still on standard input: the
    first line whose lower-case form is an answer, and what follows it. *)
Fixpoint read_choice (lines : list string) : option (string * list string) :=
  match lines with
  | [] => None
  | l :: rest =>
      let choice := lower l in
      if str_in choice ["y"; "yes"; "n"; "no"; EmptyString]
      then Some (choice, rest)
      else read_choice rest
  end.

(** [prompt_bool]; what it prints is not part of the model. *)
Definition prompt_bool (message : string) (default : bool) : M bool :=
  λ w, match read_choice (w_stdin w) with
       | Some (choice, rest) =>
           Ret (if String.eqb choice EmptyString then default
                else str_in choice ["y"; "yes"])
               (with_stdin rest w)
       | None => Raise EOFError (with_stdin [] w)
       end.

(** [not tests]. *)
Definition not_ (l : option (list string)) : bool :=
  match l with
  | Some (_ :: _) => false
  | _ => true
  end.

(** [key in l or "ALL" in l], for a list that is there. *)
Definition in_or_ALL (key : string) (l : option (list string)) : bool :=
  match l with
  | Some l => (str_in key l || str_in "ALL" l)%bool
  | None => false
  end.

(** The selection every job goes through: a prompt when no test was
    given, membership in the given list otherwise. *)
Definition wanted (tests : option (list string)) (message key : string)
  : M bool :=
  if not_ tests then prompt_bool message true
  else ret (in_or_ALL key tests).

Definition get_checkout : value :=
  VDict [("name", VStr "Checkout"); ("uses", VStr "actions/checkout@v4")].

Definition get_build : value :=
  VDict [("name", VStr "Build"); ("uses", VStr "./.github/actions/build")].

Definition get_file_changed : value :=
  VDict [("name", VStr "File changed");
         ("id", VStr "file-changed");
         ("uses", VStr "tj-actions/changed-files@v44");
         ("with", VDict [("files", VStr "**/*.py")])].

Definition pull_request_only : string :=
  "${{ github.event_name == 'pull_request' }}".
Definition ubuntu : string := "ubuntu-latest".
Definition container : string := "python:3.12-slim-bookworm".

(** *** The jobs *)

Definition ruff_job : value :=
  VDict [("name", VStr "Python linter: ruff");
         ("runs-on", VStr ubuntu);
         ("container", VStr container);
         ("if", VStr pull_request_only);
         ("steps", VList [get_checkout; get_build; get_file_changed;
            VDict [("name", VStr "Run ruff");
                   ("id", VStr "run-ruff");
                   ("if", VStr "${{ steps.file-changed.outputs.any_changed == 'true' }}");
                   ("run", VStr ("poetry run python-ruff " +:+
                      "${{ steps.file-changed.outputs.all_changed_files }}"))]])].

Definition lock_job : value :=
  VDict [("name", VStr "Python linter: poetry lock check");
         ("runs-on", VStr ubuntu);
         ("container", VStr container);
         ("if", VStr pull_request_only);
         ("steps", VList [get_checkout; get_build;
            VDict [("name", VStr "Run poetry lock check");
                   ("id", VStr "run-lock");
                   ("run", VStr "poetry lock --check")]])].

Definition mypy_job : value :=
  VDict [("name", VStr "Python linter: mypy");
         ("runs-on", VStr ubuntu);
         ("container", VStr container);
         ("if", VStr pull_request_only);
         ("steps", VList [get_checkout; get_build; get_file_changed;
            VDict [("name", VStr "Run mypy");
                   ("id", VStr "run-mypy");
                   ("run", VStr ("poetry run python-type-check " +:+
                      "${{ steps.file-changed.outputs.all_changed_files }}"))]])].

Definition importlinter_job : value :=
  VDict [("name", VStr "Python linter: import linter");
         ("runs-on", VStr ubuntu);
         ("container", VStr container);
         ("if", VStr pull_request_only);
         ("steps", VList [get_checkout; get_build; get_file_changed;
            VDict [("name", VStr "Run import linter");
                   ("id", VStr "run-importlinter");
                   ("run", VStr "poetry run python-check-imports")]])].

Definition pytest_job : value :=
  VDict [("name", VStr "Python test");
         ("runs-on", VStr ubuntu);
         ("container", VStr container);
         ("steps", VList [get_checkout; get_build;
            VDict [("name", VStr "Run pytest");
                   ("id", VStr "run-pytest");
                   ("run", VStr "poetry run python-tests")]])].

Definition suite_job (test_name : string) : value :=
  VDict [("name", VStr ("Python test: " +:+ test_name));
         ("runs-on", VStr ubuntu);
         ("container", VStr container);
         ("steps", VList [get_checkout; get_build;
            VDict [("name", VStr ("Run " +:+ test_name));
                   ("id", VStr ("run-" +:+ replace_char "_" "-" test_name));
                   ("run", VStr ("poetry run python-test-suite " +:+ test_name))]])].

Definition coverage_job (fail_under_param : string) : value :=
  VDict [("name", VStr "Python test: coverage");
         ("runs-on", VStr ubuntu);
         ("container", VStr container);
         ("steps", VList [get_checkout; get_build;
            VDict [("name", VStr "Run coverage");
                   ("id", VStr "run-coverage");
                   ("run", VStr ("poetry run python-coverage " +:+ fail_under_param))];
            VDict [("name", VStr "Upload coverage");
                   ("id", VStr "upload-coverage");
                   ("uses", VStr "codecov/codecov-action@v4");
                   ("with", VDict [("files", VStr "coverage/report.xml");
                                   ("fail_ci_if_error", VStr "true");
                                   ("verbose", VStr "true")])]])].

Definition gate : string := "python-tests-passed".

Definition tests_passed_job (all_required : list string) : value :=
  VDict [("name", VStr "Python test: OK");
         ("runs-on", VStr ubuntu);
         ("container", VStr container);
         ("if", VStr "${{ always() }}");
         ("needs", VList (map VStr all_required));
         ("env", VDict [("RESULTS", VStr (join nl
            (map (λ need, "${{ needs." +:+ need +:+ ".result =='success' }}")
                 all_required)))]);
         ("steps", VList [
            VDict [("id", VStr "test-results");
                   ("name", VStr "Test results");
                   ("run", VStr (join nl [
                      "echo ${{ RESULTS }}";
                      "for r in $RESULTS";
                      "do";
                      "    if [ $r = " +:+ dq +:+ "success" +:+ dq +:+
                        " ] || [ $r = " +:+ dq +:+ "skipped" +:+ dq +:+ " ];";
                      "    then";
                      "        true";
                      "    else";
                      "        echo " +:+ dq +:+ "Some tests failed" +:+ dq;
                      "        exit 1";
                      "    fi";
                      "done";
                      "echo " +:+ dq +:+ "All tests passed" +:+ dq]))]])].

(** *** Job-graph assembly *)

Definition get_linters (jobs : odict) (tests : option (list string))
  : M odict :=
  ruff <- wanted tests "Do you want to run ruff?" "ruff" ;;
  let jobs := if (ruff : bool) then od_set "ruff" ruff_job jobs else jobs in
  lock <- wanted tests "Do you want to run poetry lock check?" "lock" ;;
  let jobs := if (lock : bool) then od_set "lock" lock_job jobs else jobs in
  ret jobs.

Definition get_static_tests (jobs : odict) (tests : option (list string))
  : M odict :=
  mypy <- wanted tests "Do you want to run mypy?" "mypy" ;;
  let jobs := if (mypy : bool) then od_set "mypy" mypy_job jobs else jobs in
  importlinter <-
    wanted tests "Do you want to run import linter?" "importlinter" ;;
  let jobs :=
    if (importlinter : bool) then od_set "importlinter" importlinter_job jobs
    else jobs in
  ret jobs.

(** The [for test in all_tests] loop of [get_tests]. *)
Fixpoint get_tests_loop (all_tests : list instance) (jobs : odict)
    (tests : option (list string)) : M odict :=
  match all_tests with
  | [] => ret jobs
  | test :: rest =>
      let test_name := cls_name (inst_cls test) in
      test_run <-
        wanted tests ("Do you want to run " +:+ test_name +:+ "?") test_name ;;
      let jobs :=
        if (test_run : bool) then od_set test_name (suite_job test_name) jobs
        else jobs in
      get_tests_loop rest jobs tests
  end.

(** [get_tests].  With an empty registry the [pytest] job is added whatever
    [test_run] is. *)
Definition get_tests (jobs : odict) (tests : option (list string))
  : M odict :=
  all_tests <- tests.get_all_tests ;;
  match all_tests with
  | [] =>
      test_run <- wanted tests "Do you want to run pytest?" "pytest" ;;
      ret (od_set "pytest" pytest_job jobs)
  | _ => get_tests_loop all_tests jobs tests
  end.

(** Python truth value of an optional integer and of an optional flag. *)
Definition truthy_int (z : option Z) : bool :=
  match z with Some z => negb (z =? 0) | None => false end.
Definition truthy_flag (b : option bool) : bool :=
  match b with Some b => b | None => false end.

Definition get_coverage (jobs : odict) (tests : option (list string))
    (coverage_fail_under : option Z) (coverage_fail_regressed : option bool)
  : M odict :=
  coverage <- wanted tests "Do you want to run coverage?" "coverage" ;;
  if (coverage : bool) then
    if truthy_flag coverage_fail_regressed then raise NotImplementedError
    else
      let fail_under_param :=
        if truthy_int coverage_fail_under
        then "--fail-under=" +:+ pretty (default 0 coverage_fail_under)
        else EmptyString in
      ret (od_set "coverage" (coverage_job fail_under_param) jobs)
  else ret jobs.

(** The [for name in jobs] loop of [get_tests_passed]: the names marked
    required, in the order of the jobs. *)
Fixpoint mark_required (names : list string) (required : option (list string))
  : M (list string) :=
  match names with
  | [] => ret []
  | name :: rest =>
      test_required <-
        match required with
        | None => prompt_bool ("Is " +:+ name +:+ " required for the CI?") true
        | Some _ => ret (in_or_ALL name required)
        end ;;
      all_required <- mark_required rest required ;;
      ret (if (test_required : bool) then name :: all_required
           else all_required)
  end.

Definition get_tests_passed (jobs : odict) (required : option (list string))
  : M odict :=
  all_required <- mark_required (od_keys jobs) required ;;
  match all_required with
  | [] => ret jobs
  | _ => ret (od_set gate (tests_passed_job all_required) jobs)
  end.

(** [GitHubPythonTest.get_jobs]. *)
Definition get_jobs (kw : kwargs) : M odict :=
  let jobs := [] in
  jobs <- get_linters jobs (tests kw) ;;
  jobs <- get_static_tests jobs (tests kw) ;;
  jobs <- get_tests jobs (tests kw) ;;
  jobs <- get_coverage jobs (tests kw) (coverage_fail_under kw)
                       (coverage_fail_regressed kw) ;;
  jobs <- get_tests_passed jobs (required kw) ;;
  ret jobs.

(** Two prefixes of [get_jobs], to speak about its stages: the jobs
    assembled before the coverage job is decided, and the jobs selected
    before the gate is decided. *)
Definition jobs_before_coverage (kw : kwargs) : M odict :=
  let jobs := [] in
  jobs <- get_linters jobs (tests kw) ;;
  jobs <- get_static_tests jobs (tests kw) ;;
  get_tests jobs (tests kw).

Definition selected_jobs (kw : kwargs) : M odict :=
  jobs <- jobs_before_coverage kw ;;
  get_coverage jobs (tests kw) (coverage_fail_under kw)
               (coverage_fail_regressed kw).

(** [job[field]] for a job definition, and the names under which the tests
    of the registry would enter the graph. *)
Definition job_field (field : string) (job : value) : option value :=
  match job with
  | VDict d | VODict d => od_get field d
  | _ => None
  end.

Definition test_names (w : world) : list string :=
  map (λ t, cls_name (inst_cls t)) (w_tests w).

Section paths.
Variable PROJECT_ROOT : path.

(** [GitHubPythonTest.create]: the workflow, then the build action through
    its own command call. *)
Definition create (super_create : kwargs → M unit) (kw : kwargs) : M unit :=
  super_create kw ;;;
  build_action <- base.as_command
    (Cls "PythonBuildAction" (a_name PythonBuildAction) false false false) ;;
  base.Command__call__ (Action_command PROJECT_ROOT PythonBuildAction)
                       (Some ["create"]).

(** The generator class; how argparse reads the arguments of its [create]
    sub-parser is left open. *)
Definition GitHubPythonTest (create_arguments : list string → exn + kwargs)
  : Workflow kwargs :=
  {| name := "github_python_test";
     workflow_name := "Python Tests";
     workflow_id := "python-test";
     cwd := None;
     ci_base.get_jobs := λ kw, jobs <- get_jobs kw ;; ret (VODict jobs);
     get_triggers := default_get_triggers;
     get_permissions := default_get_permissions;
     ci_base.create_arguments := create_arguments;
     create_override := Some create |}.

End paths.

End python_tests.

(** ** scripts/python/linters.py *)
Module linters.

(** What the parser of [Ruff] hands over: [files] holds [str(file)] for each
    path given, [fix_] is the [--fix] flag. *)
Record kwargs : Type := Kwargs {
  files : list string;
  fix_ : bool
}.

(** [Ruff.get_args]. *)
Definition get_args (kw : kwargs) : list string :=
  let args := ["check"] in
  let args := if fix_ kw then args ++ ["--fix"] else args in
  args ++ files kw.

(** The class; [ruff_bin] is [ruff.find_ruff_bin()] and [parse] how argparse
    reads [files] and [--fix]. *)
Definition Ruff (ruff_bin : string) (parse : list string → exn + kwargs)
  : base.ExecCommand kwargs :=
  {| base.e_name := "ruff";
     base.command_name := ruff_bin;
     base.e_cwd := None;
     base.e_parse_args := parse;
     base.get_args := get_args;
     base.get_env := base.default_get_env |}.

End linters.

(** ** scripts/ci/approval_bot.py *)
Module approval_bot.

Import ci_base.

(** The four flags of the [create] sub-parser. *)
Record kwargs : Type := Kwargs {
  owner : bool;
  dependabot : bool;
  commit_linter : bool;
  clear_automerge : bool
}.

Definition pr_env : value :=
  VDict [("PR_URL", VStr "${{github.event.pull_request.html_url}}");
         ("GITHUB_TOKEN", VStr "${{secrets.GITHUB_TOKEN}}")].

Definition pr_url : string := dq +:+ "$PR_URL" +:+ dq.

Definition clear_automerge_job : value :=
  VDict [("name", VStr "Clear automerge");
         ("runs-on", VStr "ubuntu-latest");
         ("steps", VList [
            VDict [("name", VStr "Disable auto - merge");
                   ("run", VStr ("gh pr merge - -disable - auto - -merge "
                                 +:+ pr_url +:+ " || true"));
                   ("env", pr_env)]])].

Definition auto_approve_owner_job : value :=
  VDict [("name", VStr "Auto approve owner");
         ("runs-on", VStr "ubuntu-latest");
         ("if", VStr ("${{github.event.pull_request.user.login == " +:+
                      "github.repository_owner}}"));
         ("steps", VList [
            VDict [("name", VStr "Auto approve owner");
                   ("run", VStr ("gh pr review " +:+ pr_url +:+ " --approve"));
                   ("env", pr_env)]])].

Definition auto_approve_dependabot_job : value :=
  VDict [("name", VStr "Auto approve dependabot");
         ("runs-on", VStr "ubuntu-latest");
         ("needs", VList [VStr "clear-automerge"]);
         ("if", VStr "${{github.event.pull_request.user.login == 'dependabot[bot]'}}");
         ("steps", VList [
            VDict [("name", VStr "Dependabot metadata");
                   ("id", VStr "dependabot-metadata");
                   ("uses", VStr "dependabot/fetch-metadata@v2.1.0")];
            VDict [("name", VStr "Approve patch and minor updates");
                   ("if", VStr ("${{steps.dependabot-metadata.outputs.update-type" +:+
                                " == 'version-update:semver-patch' || " +:+
                                "steps.dependabot-metadata.outputs.update-type " +:+
                                "== 'version-update:semver-minor'}}"));
                   ("run", VStr ("gh pr review " +:+ pr_url +:+ " --approve -b " +:+
                                 dq +:+ "I'm **approving** this pull request because " +:+
                                 "**it includes a patch or minor update**" +:+ dq));
                   ("env", pr_env)];
            VDict [("name", VStr "Approve major updates of development dependencies");
                   ("if", VStr ("${{steps.dependabot-metadata.outputs.update-type " +:+
                                "== 'version-update:semver-major' && " +:+
                                "steps.dependabot-metadata.outputs.dependency-type" +:+
                                " == 'direct:development'}}"));
                   ("run", VStr ("gh pr review " +:+ pr_url +:+ " --approve -b " +:+
                                 dq +:+ "I'm **approving** this pull request because " +:+
                                 "**it includes a major update of a dependency " +:+
                                 "only used in development**" +:+ dq))];
            VDict [("name", VStr "Comment major updates of production dependencies");
                   ("if", VStr ("${{steps.dependabot-metadata.outputs.update-type" +:+
                                " == 'version-update:semver-major' " +:+
                                "&& steps.dependabot-metadata.outputs." +:+
                                "dependency-type == 'direct:production'}}"));
                   ("run", VStr (join nl [
                      "gh pr comment $PR_URL --body " +:+
                        dq +:+ "I'm **not approving** this PR because " +:+
                        "**it includes a major update of a " +:+
                        "dependency used in production**" +:+ dq;
                      "gh pr edit $PR_URL " +:+
                        "--add-label " +:+ dq +:+ "requires-manual-qa" +:+ dq;
                      "gh pr edit $PR_URL " +:+
                        "--add-assignee ${{ github.repository_owner }}"]));
                   ("env", pr_env)];
            VDict [("name", VStr "Enable auto merge");
                   ("if", VStr "${{ github.event.pull_request.assignees != null }}");
                   ("run", VStr ("gh pr merge --auto --merge " +:+ pr_url));
                   ("env", pr_env)]])].

Definition commit_linter_job : value :=
  VDict [("name", VStr "Commit linter");
         ("runs-on", VStr "ubuntu-latest");
         ("if", VStr "${{ github.event.pull_request.user.login != 'dependabot[bot]' }}");
         ("steps", VList [
            VDict [("name", VStr "Check commit messages");
                   ("uses", VStr "opensource-nepal/commitlint@v1")]])].

(** [ApprovalBot.get_jobs]. *)
Definition get_jobs (kw : kwargs) : odict :=
  let jobs := [] in
  let jobs :=
    if (clear_automerge kw || dependabot kw)%bool
    then od_set "clear-automerge" clear_automerge_job jobs else jobs in
  let jobs :=
    if owner kw then od_set "auto-approve-owner" auto_approve_owner_job jobs
    else jobs in
  let jobs :=
    if dependabot kw
    then od_set "auto-approve-dependabot" auto_approve_dependabot_job jobs
    else jobs in
  let jobs :=
    if commit_linter kw then od_set "commit-linter" commit_linter_job jobs
    else jobs in
  jobs.

(** [ApprovalBot.get_triggers] and [ApprovalBot.get_permissions]. *)
Definition get_triggers : value :=
  VDict [("pull_request", VDict [("branches", VList [VStr "main"])])].

Definition get_permissions : value :=
  VDict [("contents", VStr "write"); ("pull-requests", VStr "write")].

(** The class; how argparse reads the four flags is left open. *)
Definition ApprovalBot (create_arguments : list string → exn + kwargs)
  : Workflow kwargs :=
  {| name := "github_approval_bot";
     workflow_name := "Approval Bot";
     workflow_id := "approval-bot";
     cwd := None;
     ci_base.get_jobs := λ kw, ret (VODict (get_jobs kw));
     ci_base.get_triggers := λ _, ret get_triggers;
     ci_base.get_permissions := ret get_permissions;
     ci_base.create_arguments := create_arguments;
     create_override := None |}.

End approval_bot.

(** ** Job graphs

    What the workflow runner reads from a graph of jobs: the jobs a job
    waits for, and whether each of them is a job of the graph. *)
Module graph.

Definition strings (l : list value) : list string :=
  flat_map (λ v, match v with VStr s => [s] | _ => [] end) l.

(** [job["needs"]], empty when the job has no such key. *)
Definition needs_of (job : value) : list string :=
  match python_tests.job_field "needs" job with
  | Some (VList l) => strings l
  | _ => []
  end.

(** Every job waited for is a job of the graph. *)
Definition needs_closed (jobs : odict) : bool :=
  forallb (λ kv, forallb (λ n, str_in n (od_keys jobs)) (needs_of (snd kv))) jobs.

End graph.

(** ** Test sessions

    What it is for a list of tests to have run. *)
Module sessions.


End sessions.

(** ** Conditions on the file system *)
Module fsys.

(** No regular file sits at [rev rp] or at a directory above it. *)
Fixpoint clear_rev (fs : gmap path fnode) (rp : list string) : bool :=
  match stat fs (rev rp) with
  | Some (FFile _) => false
  | _ =>
      match rp with
      | [] => true
      | _ :: rparent => clear_rev fs rparent
      end
  end.

(** The directory [p] can be made: no regular file is in the way. *)
Definition clear_above (fs : gmap path fnode) (p : path) : bool :=
  clear_rev fs (rev p).

(** [fs'] is [fs] with directories added at or above [p], and nothing else
    changed. *)
Definition adds_dirs (fs : gmap path fnode) (p : path) (fs' : gmap path fnode)
  : Prop :=
  ∀ q, stat fs' q = stat fs q ∨
       (stat fs q = None ∧ stat fs' q = Some FDir ∧ q `prefix_of` p).

(** A path segment that [joinpath] keeps as one component. *)
Definition component (s : string) : bool :=
  (negb (contains_char "/" s) && negb (String.eqb s EmptyString)
   && negb (String.eqb s "."))%bool.

End fsys.

(** ** Concrete worlds and classes, for the examples below *)
Module examples.

(** A checkout at [/repo] with the package under [/repo/src]. *)
Definition repo_fs : gmap path fnode :=
  <[ ["repo"] := FDir ]> (<[ ["repo"; "src"] := FDir ]> ∅).

Definition w_start : world :=
  World ["repo"; "src"] repo_fs [] [] [] ∅ [].

(** [base.PROJECT_ROOT] in that checkout. *)
Definition root : path := ["repo"; "src"].

(** The world once [scripts.python.tests] is imported. *)
Definition w_imported : world := final_world (tests.import w_start).

(** Two command classes that declare the same name, and a nameless one. *)
Definition first_lint : cls := Cls "FirstLint" "lint" false false false.
Definition second_lint : cls := Cls "SecondLint" "lint" false false false.
Definition nameless : cls := Cls "Helper" EmptyString true false false.

(** The world after the two classes are defined, with [MyPy] in between. *)
Definition w_two_lints : world :=
  final_world (base.define_all [first_lint; tests.MyPy; second_lint] w_start).

(** An import linter that finds a broken contract. *)
Definition failing_linter : base.Command unit :=
  tests.ImportLinter_command root (ret true).
Definition passing_linter : base.Command unit :=
  tests.ImportLinter_command root (ret false).

(** A command that forwards its arguments and fails outside the domain. *)
(** The package as the repository has it. *)
Definition package_tree : list discovery.entry :=
  [discovery.EFile "__init__.py";
   discovery.EFile "base.py";
   discovery.EDir "ci" [discovery.EFile "_base.py";
                        discovery.EFile "approval_bot.py";
                        discovery.EFile "python_tests.py"];
   discovery.EDir "python" [discovery.EFile "linters.py";
                            discovery.EFile "tests.py"]].

(** A workflow whose three hooks return empty mappings. *)
Definition bare_workflow : ci_base.Workflow unit :=
  {| ci_base.name := "bare";
     ci_base.workflow_name := "Bare";
     ci_base.workflow_id := "bare";
     ci_base.cwd := None;
     ci_base.get_jobs := λ _, ret (VODict []);
     ci_base.get_triggers := λ _, ret (VDict []);
     ci_base.get_permissions := ret (VDict []);
     ci_base.create_arguments := tests.no_arguments;
     ci_base.create_override := None |}.

(** The build action of the repository, and the test-pipeline generator
    with a [create] sub-parser that knows one command line: the coverage
    job with the regression flag set. *)
Definition regressed : python_tests.kwargs :=
  python_tests.Kwargs (Some ["coverage"]) None (Some 0) (Some true).

Definition regressed_line : list string :=
  ["coverage"; "--coverage-fail-regressed"; "1"].

Definition parse_regressed (rest : list string) : exn + python_tests.kwargs :=
  if bool_decide (rest = regressed_line) then inr regressed
  else inl ArgparseExit.

Definition generator : base.Command (ci_base.namespace python_tests.kwargs) :=
  ci_base.Workflow_command root
    (python_tests.GitHubPythonTest root parse_regressed).

Definition python_test_yml : path :=
  ["repo"; ".github"; "workflows"; "python-test.yml"].

(** The same checkout with a workflow written earlier. *)
Definition w_written : world :=
  with_fs (<[ python_test_yml := FFile (Some (NScalar tag_str "old" None)) ]>
           (<[ ["repo"; ".github"; "workflows"] := FDir ]>
            (<[ ["repo"; ".github"] := FDir ]> repo_fs)))
          w_start.

(** The scenario of the specification. *)
Definition scenario : python_tests.kwargs :=
  python_tests.Kwargs (Some ["ruff"]) (Some ["ruff"]) (Some 80) None.

(** The generator, with a [create] sub-parser that reads any command line
    as the scenario. *)
Definition scenario_generator : ci_base.Workflow python_tests.kwargs :=
  python_tests.GitHubPythonTest root (λ _, inr scenario).



(** The same selection with no job required. *)
Definition none_required : python_tests.kwargs :=
  python_tests.Kwargs (Some ["ruff"]) (Some []) (Some 80) None.

Definition build_action_yml : path :=
  ["repo"; ".github"; "actions"; "build"; "action.yml"].

(** A child process that ends with status 2 whatever it is given, and ruff
    run on one file with a parser that reads any command line that way. *)
Definition status_2 (argv : list string) (cwd : option path)
    (env : list (string * string)) : M Z := ret 2.

Definition ruff : base.Command linters.kwargs :=
  base.ExecCommand_command status_2
    (linters.Ruff "/venv/bin/ruff" (λ _, inr (linters.Kwargs ["a.py"] true))).





(** Two test suites, each run on its own directory, and a test session
    that fails on the first of them only. *)
Definition unit_tests : cls := Cls "UnitTests" "unit" false true false.
Definition api_tests : cls := Cls "ApiTests" "api" false true false.

Definition w_two_suites : world :=
  with_tests [Instance unit_tests; Instance api_tests] w_start.



(** Every job asked for and required, and the jobs this selects with the
    two suites registered. *)
Definition all_jobs : python_tests.kwargs :=
  python_tests.Kwargs (Some ["ALL"]) (Some ["ALL"]) None None.

Definition all_selected : odict :=
  [("ruff", python_tests.ruff_job);
   ("lock", python_tests.lock_job);
   ("mypy", python_tests.mypy_job);
   ("importlinter", python_tests.importlinter_job);
   ("unit", python_tests.suite_job "unit");
   ("api", python_tests.suite_job "api");
   ("coverage", python_tests.coverage_job EmptyString)].

(** Nothing on the command line, every prompt answered with the empty line:
    two prompts for each of the seven candidate jobs. *)
Definition interactive : python_tests.kwargs :=
  python_tests.Kwargs None None None None.

Definition w_enter : world :=
  with_stdin (replicate 14 EmptyString ++ ["n"]) w_two_suites.

(** The generator as a command, the world after it has created its
    documents, and a checkout where [.github] is a regular file. *)
Definition scenario_command
  : base.Command (ci_base.namespace python_tests.kwargs) :=
  ci_base.Workflow_command root scenario_generator.

Definition w_created : world :=
  final_world (base.Command__call__ scenario_command (Some ["create"])
                 w_imported).

Definition w_file_above : world :=
  with_fs (<[ ["repo"; ".github"] := FFile None ]> repo_fs) w_start.

(** Two named classes that leave [handle] abstract, the second one below
    [Pytest]. *)
Definition unfinished : cls := Cls "Unfinished" "unfinished" true false false.
Definition abstract_suite : cls :=
  Cls "AbstractSuite" "abstract_suite" true true false.


(** The checkout with a directory where the workflow file should be. *)
Definition w_blocked : world :=
  with_fs (<[ python_test_yml := FDir ]>
           (<[ ["repo"; ".github"; "workflows"] := FDir ]>
            (<[ ["repo"; ".github"] := FDir ]> repo_fs)))
          w_start.

(** The approval bot, with a parser that reads any command line as the
    dependabot flag alone. *)
Definition dependabot_only : approval_bot.kwargs :=
  approval_bot.Kwargs false true false false.

Definition bot : ci_base.Workflow approval_bot.kwargs :=
  approval_bot.ApprovalBot (λ _, inr dependabot_only).


End examples.

(** * Theorems *)

(** ** The monad *)

Lemma bind_Ret_inv {A B} (m : M A) (k : A → M B) w b w' :
  bind m k w = Ret b w' → ∃ a w1, m w = Ret a w1 ∧ k a w1 = Ret b w'.
Proof.
  unfold bind. destruct (m w) as [a w1|e w1]; [eauto | discriminate].
Qed.

Lemma bind_Ret {A B} (m : M A) (k : A → M B) w a w1 :
  m w = Ret a w1 → bind m k w = k a w1.
Proof. intros H. unfold bind. by rewrite H. Qed.

Lemma bind_Raise {A B} (m : M A) (k : A → M B) w e w1 :
  m w = Raise e w1 → bind m k w = Raise e w1.
Proof. intros H. unfold bind. by rewrite H. Qed.

Lemma bind_assoc {A B C} (m : M A) (f : A → M B) (g : B → M C) w :
  bind (bind m f) g w = bind m (λ a, bind (f a) g) w.
Proof. unfold bind. by destruct (m w). Qed.

Ltac unfold_monad :=
  unfold bind, ret, raise, get, modify, exit, fs_call, print_stderr in *.

(** ** The command register (scripts/base.py) *)

Lemma init_subclass_nameless c w :
  cls_name c = EmptyString → base.__init_subclass__ c w = Ret tt w.
Proof. intros H. unfold base.__init_subclass__. by rewrite H. Qed.

Lemma init_subclass_named c w w' :
  cls_name c ≠ EmptyString →
  base.__init_subclass__ c w = Ret tt w' →
  w_commands w' = <[cls_name c := Instance c]> (w_commands w).
Proof.
  intros Hn. unfold base.__init_subclass__.
  destruct (String.eqb_spec (cls_name c) EmptyString) as [|_]; [done|].
  unfold objects.construct, objects.Pytest__init__.
  unfold_monad; simpl.
  destruct (cls_is_pytest c), (cls_bypass c);
    simpl; intros H; injection H as <-; done.
Qed.

(** A class statement always returns: the instance is made whatever the
    class leaves abstract. *)
Lemma init_subclass_returns c w : ∃ w', base.__init_subclass__ c w = Ret tt w'.
Proof.
  unfold base.__init_subclass__.
  destruct (String.eqb (cls_name c) EmptyString); [by eexists|].
  unfold objects.construct, objects.Pytest__init__.
  unfold_monad; simpl.
  destruct (cls_is_pytest c), (cls_bypass c); simpl; by eexists.
Qed.

Lemma define_all_returns cs w : ∃ w', base.define_all cs w = Ret tt w'.
Proof.
  revert w. induction cs as [|c cs IH]; intros w; simpl; [by eexists|].
  destruct (init_subclass_returns c w) as [w1 H1].
  rewrite (bind_Ret _ _ _ _ _ H1). apply IH.
Qed.

(** Whatever the register holds after a class statement was there before
    or is the instance of that class under its name. *)
Lemma init_subclass_lookup c w w' k i :
  base.__init_subclass__ c w = Ret tt w' →
  w_commands w' !! k = Some i →
  w_commands w !! k = Some i ∨ (i = Instance c ∧ k = cls_name c).
Proof.
  intros Hd Hk.
  destruct (decide (cls_name c = EmptyString)) as [He|Hne].
  - rewrite (init_subclass_nameless c w He) in Hd. injection Hd as <-. by left.
  - rewrite (init_subclass_named c w w' Hne Hd) in Hk.
    destruct (decide (cls_name c = k)) as [<-|Hk'].
    + rewrite lookup_insert_eq in Hk. injection Hk as <-. by right.
    + rewrite lookup_insert_ne in Hk by done. by left.
Qed.

Lemma define_all_cons c cs w w' :
  base.define_all (c :: cs) w = Ret tt w' →
  ∃ w1, base.__init_subclass__ c w = Ret tt w1 ∧ base.define_all cs w1 = Ret tt w'.
Proof.
  simpl. intros H. apply bind_Ret_inv in H as ([] & w1 & H1 & H2). eauto.
Qed.

Lemma define_all_app cs1 cs2 w w' :
  base.define_all (cs1 ++ cs2) w = Ret tt w' →
  ∃ w1, base.define_all cs1 w = Ret tt w1 ∧ base.define_all cs2 w1 = Ret tt w'.
Proof.
  revert w. induction cs1 as [|c cs1 IH]; intros w H.
  - exists w. split; [done | exact H].
  - rewrite <- app_comm_cons in H.
    apply define_all_cons in H as (w1 & H1 & H2).
    apply IH in H2 as (w2 & H2 & H3).
    exists w2. split; [|done].
    simpl. by rewrite (bind_Ret _ _ _ _ _ H1).
Qed.

Lemma define_all_lookup cs w w' k i :
  base.define_all cs w = Ret tt w' →
  w_commands w' !! k = Some i →
  w_commands w !! k = Some i ∨ (∃ c, c ∈ cs ∧ i = Instance c ∧ k = cls_name c).
Proof.
  revert w. induction cs as [|c cs IH]; intros w Hd Hk.
  - injection Hd as <-. by left.
  - apply define_all_cons in Hd as (w1 & H1 & H2).
    destruct (IH _ H2 Hk) as [Hold | (c' & Hin & -> & ->)].
    + destruct (init_subclass_lookup _ _ _ _ _ H1 Hold) as [?|[-> ->]].
      * by left.
      * right. exists c. split; [apply list_elem_of_here | done].
    + right. exists c'. split; [by apply list_elem_of_further | done].
Qed.

(** C5.  When two command classes are defined with the same non-empty name,
    with any class statements in between and whatever methods the classes
    leave abstract, the class statements return and the register resolves
    that name to the instance of the later one; the instance of the earlier
    one is then resolvable under no name at all, unless it was registered
    some other way.  A class whose name is empty leaves the world as it is:
    it is neither instantiated nor registered. *)
Theorem last_registration_wins :
  (∀ (c1 c2 : cls) (mid : list cls) (w : world),
      cls_name c1 = cls_name c2 →
      cls_name c2 ≠ EmptyString →
      ∃ w',
        base.define_all (c1 :: mid ++ [c2]) w = Ret tt w' ∧
        w_commands w' !! cls_name c2 = Some (Instance c2) ∧
        (c1 ≠ c2 → c1 ∉ mid →
         (∀ k, w_commands w !! k ≠ Some (Instance c1)) →
         ∀ k, w_commands w' !! k ≠ Some (Instance c1))) ∧
  (∀ (c : cls) (w : world),
      cls_name c = EmptyString → base.__init_subclass__ c w = Ret tt w).
Proof.
  split; [|apply init_subclass_nameless].
  intros c1 c2 mid w Hsame Hne.
  destruct (define_all_returns (c1 :: mid ++ [c2]) w) as [w' Hdef].
  exists w'. split; [exact Hdef|].
  rewrite app_comm_cons in Hdef.
  apply define_all_app in Hdef as (w1 & Hfirst & Hlast).
  apply define_all_cons in Hlast as (w2 & Hc2 & Hnil).
  injection Hnil as <-.
  pose proof (init_subclass_named _ _ _ Hne Hc2) as Hreg.
  split.
  - rewrite Hreg. apply lookup_insert_eq.
  - intros Hdiff Hmid Hfresh k Hk.
    rewrite Hreg in Hk.
    destruct (decide (cls_name c2 = k)) as [<-|Hk'].
    + rewrite lookup_insert_eq in Hk. congruence.
    + rewrite lookup_insert_ne in Hk by done.
      destruct (define_all_lookup _ _ _ _ _ Hfirst Hk)
        as [Hold | (c & Hin & Hc & ->)].
      * by apply (Hfresh k).
      * injection Hc as <-.
        apply elem_of_cons in Hin as [_|Hin]; [congruence | done].
Qed.

Lemma last_registration_wins_witness :
  w_commands examples.w_two_lints !! "lint"
    = Some (Instance examples.second_lint) ∧
  (∀ k, w_commands examples.w_two_lints !! k
          ≠ Some (Instance examples.first_lint)) ∧
  base.__init_subclass__ examples.nameless examples.w_start
    = Ret tt examples.w_start.
Proof.
  destruct (proj1 last_registration_wins
              examples.first_lint examples.second_lint [tests.MyPy]
              examples.w_start) as (w' & Hdef & Hlast & Honly);
    [reflexivity | discriminate |].
  assert (w' = examples.w_two_lints) as -> by (by injection Hdef).
  split; [exact Hlast|]. split.
  - apply Honly; [discriminate | | ].
    + intros Hin%list_elem_of_singleton. discriminate Hin.
    + intros k. unfold examples.w_start. simpl. by rewrite lookup_empty.
  - apply (proj2 last_registration_wins). reflexivity.
Defined.

(** ** The invocation boundary (scripts/base.py) *)

Lemma set_cwd_entered {A} (cwd : option path) (body : M A) w w1 :
  base.enter_cwd cwd w = Ret tt w1 →
  base.set_cwd cwd body w =
    match body w1 with
    | Ret a w2 => bind (os_chdir (w_cwd w)) (λ _, ret a) w2
    | Raise e w2 => Raise e w2
    end.
Proof. intros H. unfold base.set_cwd, bind, get. by rewrite H. Qed.


(** On a normal return the directory of before the call is restored. *)
Lemma set_cwd_restores_on_return {A} (cwd : option path) (body : M A) w w1 a w2 w3 :
  base.enter_cwd cwd w = Ret tt w1 →
  body w1 = Ret a w2 →
  os_chdir (w_cwd w) w2 = Ret tt w3 →
  base.set_cwd cwd body w = Ret a w3 ∧ w_cwd w3 = w_cwd w.
Proof.
  intros He Hb Hr. rewrite (set_cwd_entered _ _ _ _ He), Hb.
  unfold bind. rewrite Hr. split; [done|].
  unfold os_chdir in Hr.
  destruct (stat (w_fs w2) (w_cwd w)) as [[]|]; try discriminate.
  by injection Hr as <-.
Qed.




Lemma guarded_success cwd body w w1 w2 w3 :
  base.enter_cwd cwd w = Ret tt w1 →
  body w1 = Ret tt w2 →
  os_chdir (w_cwd w) w2 = Ret tt w3 →
  base.guarded cwd body w = Ret tt w3.
Proof.
  intros He Hb Hr. unfold base.guarded, except_CommandError.
  by rewrite (proj1 (set_cwd_restores_on_return _ _ _ _ _ _ _ He Hb Hr)).
Qed.

Lemma Command_call_parsed {K} (self : base.Command K) args k w :
  base.parse_args self (base.effective_args args w) = inr k →
  base.Command__call__ self args w =
    base.guarded (base.cwd self) (base.handle self k) w.
Proof.
  intros Hp. unfold base.Command__call__, base.args_or_argv, bind, get, ret.
  by rewrite Hp.
Qed.

Lemma Command_call_unparsed {K} (self : base.Command K) args e w :
  base.parse_args self (base.effective_args args w) = inl e →
  base.Command__call__ self args w = Raise e w.
Proof.
  intros Hp. unfold base.Command__call__, base.args_or_argv, bind, get, ret.
  by rewrite Hp.
Qed.




(** C6, at a failing input.  The import linter declares the parent of the
    project root as its directory.  Called from [/repo/src] with a broken
    contract, it ends in [exit(1)] with the process still in [/repo]: the
    directory of before the call is not restored on this path. *)
Theorem cwd_not_restored_on_failure :
  w_cwd examples.w_start = ["repo"; "src"] ∧
  process_outcome
    (base.Command__call__ examples.failing_linter None examples.w_start)
    = ExitStatus 1 ∧
  w_cwd (final_world
    (base.Command__call__ examples.failing_linter None examples.w_start))
    = ["repo"] ∧
  w_cwd (final_world
    (base.Command__call__ examples.passing_linter None examples.w_start))
    = ["repo"; "src"].
Proof. repeat split; reflexivity. Qed.

(** ** Discovery (scripts/__init__.py) *)

(** Induction on a directory tree, with the children of a directory. *)
Fixpoint entry_tree_ind (P : discovery.entry → Prop)
    (Hfile : ∀ n, P (discovery.EFile n))
    (Hdir : ∀ n children, Forall P children → P (discovery.EDir n children))
    (Hother : ∀ n, P (discovery.EOther n))
    (e : discovery.entry) : P e :=
  match e with
  | discovery.EFile n => Hfile n
  | discovery.EOther n => Hother n
  | discovery.EDir n children =>
      Hdir n children
        ((fix all (l : list discovery.entry) : Forall P l :=
            match l with
            | [] => @List.Forall_nil _ P
            | x :: l' =>
                @List.Forall_cons _ P x l' (entry_tree_ind P Hfile Hdir Hother x) (all l')
            end) children)
  end.

Lemma file_at_elem es sub n :
  discovery.file_at es sub n ↔ ∃ e, e ∈ es ∧ discovery.file_at [e] sub n.
Proof.
  split.
  - intros H. inversion H; subst.
    + eexists. split; [eassumption|]. constructor. apply list_elem_of_here.
    + eexists. split; [eassumption|].
      econstructor; [apply list_elem_of_here | eassumption].
  - intros (e & Hin & H). inversion H as [? ? He | ? ? ? ? ? He Hc]; subst.
    + apply list_elem_of_singleton in He as <-. by constructor.
    + apply list_elem_of_singleton in He as <-. by econstructor.
Qed.

Lemma file_at_file m sub n :
  discovery.file_at [discovery.EFile m] sub n ↔ sub = [] ∧ n = m.
Proof.
  split.
  - intros H. inversion H as [? ? He | ? ? ? ? ? He Hc]; subst;
      apply list_elem_of_singleton in He; by inversion He.
  - intros [-> ->]. constructor. apply list_elem_of_here.
Qed.

Lemma file_at_dir d children sub n :
  discovery.file_at [discovery.EDir d children] sub n ↔
  ∃ sub', sub = d :: sub' ∧ discovery.file_at children sub' n.
Proof.
  split.
  - intros H. inversion H as [? ? He | ? ? ? ? ? He Hc]; subst;
      apply list_elem_of_singleton in He; inversion He; subst. eauto.
  - intros (sub' & -> & H). econstructor; [apply list_elem_of_here | done].
Qed.

Lemma file_at_other m sub n :
  ¬ discovery.file_at [discovery.EOther m] sub n.
Proof.
  intros H. inversion H as [? ? He | ? ? ? ? ? He Hc]; subst;
    apply list_elem_of_singleton in He; inversion He.
Qed.

Lemma walk_entry_yields e :
  ∀ dir exclude_current p,
    p ∈ discovery.walk_entry dir exclude_current e ↔
    discovery.yields [e] dir exclude_current p.
Proof.
  induction e as [m | d children IH | m] using entry_tree_ind;
    intros dir excl p; unfold discovery.yields; simpl.
  - destruct excl, (discovery.eligible m) eqn:Hel; simpl.
    + split; [by intros ?%elem_of_nil|].
      intros (sub & n & _ & [-> _]%file_at_file & _ & Hsub). by destruct Hsub.
    + split; [by intros ?%elem_of_nil|].
      intros (sub & n & _ & [-> _]%file_at_file & _ & Hsub). by destruct Hsub.
    + rewrite list_elem_of_singleton. split.
      * intros ->. exists [], m. repeat split; [by apply file_at_file | done..].
      * by intros (sub & n & -> & [-> ->]%file_at_file & _).
    + split; [by intros ?%elem_of_nil|].
      intros (sub & n & _ & [_ ->]%file_at_file & Hn & _). congruence.
  - rewrite list_elem_of_In, in_flat_map. split.
    + intros (e & Hin & Hp). apply list_elem_of_In in Hin, Hp.
      rewrite Forall_forall in IH.
      apply (IH e Hin) in Hp as (sub & n & -> & Hf & Hel & _).
      exists (d :: sub), n. repeat split; [|  | done..].
      * by rewrite <- app_assoc.
      * apply file_at_dir. exists sub. split; [done|].
        apply file_at_elem. eauto.
    + intros (sub & n & -> & (sub' & -> & Hf)%file_at_dir & Hel & _).
      apply file_at_elem in Hf as (e & Hin & Hf).
      exists e. rewrite <- !list_elem_of_In. split; [done|].
      rewrite Forall_forall in IH. apply (IH e Hin).
      exists sub', n. repeat split; [|done..].
      by rewrite <- app_assoc.
  - split; [by intros ?%elem_of_nil|].
    by intros (sub & n & _ & ?%file_at_other & _).
Qed.

Lemma walk_files_yields es dir exclude_current p :
  p ∈ discovery._walk_files dir es exclude_current ↔
  discovery.yields es dir exclude_current p.
Proof.
  unfold discovery._walk_files. rewrite list_elem_of_In, in_flat_map. split.
  - intros (e & Hin & Hp). apply list_elem_of_In in Hin, Hp.
    apply walk_entry_yields in Hp as (sub & n & -> & Hf & Hel & Hex).
    exists sub, n. repeat split; [|done..]. apply file_at_elem. eauto.
  - intros (sub & n & -> & (e & Hin & Hf)%file_at_elem & Hel & Hex).
    exists e. rewrite <- !list_elem_of_In. split; [done|].
    apply walk_entry_yields. exists sub, n. by repeat split.
Qed.

Lemma eligible_spec n :
  discovery.eligible n = true ↔
  startswith "_" n = false ∧ discovery.suffix n = ".py".
Proof.
  unfold discovery.eligible. rewrite andb_true_iff, negb_true_iff.
  by rewrite String.eqb_eq.
Qed.

(** C7, as the code has it.  Discovery hands a file to the import machinery
    if and only if it is a regular file that lies in a sub-directory of the
    package, at any depth, whose name does not start with an underscore and
    has the suffix [.py]; no file that sits directly in the package
    directory is imported by discovery. *)
Theorem discovery_imports_below_root (entries : list discovery.entry) :
  (∀ p : path,
     p ∈ discovery._walk_files [] entries true ↔
     ∃ sub n, p = sub ++ [n] ∧ sub ≠ [] ∧ discovery.file_at entries sub n ∧
              startswith "_" n = false ∧ discovery.suffix n = ".py") ∧
  discovery._import_all_modules entries =
    map (λ file, "." +:+ discovery.import_name file)
        (discovery._walk_files [] entries true).
Proof.
  split; [|reflexivity].
  intros p. rewrite walk_files_yields. unfold discovery.yields. split.
  - intros (sub & n & -> & Hf & Hel%eligible_spec & Hex).
    exists sub, n. destruct Hel. repeat split; auto.
  - intros (sub & n & -> & Hsub & Hf & Hel).
    exists sub, n. repeat split; [done | by apply eligible_spec | done].
Qed.

Lemma discovery_imports_below_root_witness :
  ["ci"; "approval_bot.py"] ∈
    discovery._walk_files [] examples.package_tree true.
Proof.
  apply (proj1 (discovery_imports_below_root examples.package_tree)).
  exists ["ci"], "approval_bot.py".
  repeat split; [discriminate | ].
  eapply discovery.file_below.
  - apply list_elem_of_further, list_elem_of_further, list_elem_of_here.
  - constructor. apply list_elem_of_further, list_elem_of_here.
Defined.

(** C7, as stated, fails on the package of the repository: [base.py] is a
    regular file of the tree, is not private, has the suffix [.py] and is not
    the root unit [__init__.py], yet discovery does not import it. *)
Lemma discovery_skips_root_files :
  discovery.file_at examples.package_tree [] "base.py" ∧
  startswith "_" "base.py" = false ∧
  discovery.suffix "base.py" = ".py" ∧
  "base.py" ≠ "__init__.py" ∧
  (["base.py"] ∉ discovery._walk_files [] examples.package_tree true) ∧
  discovery._import_all_modules examples.package_tree =
    [".ci.approval_bot"; ".ci.python_tests"; ".python.linters"; ".python.tests"].
Proof.
  repeat split; try discriminate.
  - constructor. apply list_elem_of_further, list_elem_of_here.
  - apply (bool_decide_unpack _). by vm_compute.
Qed.

(** ** Documents (scripts/ci/_base.py) *)

Lemma node_keys_odict (d : odict) :
  ci_base.node_keys (ci_base.represent (VODict d)) = od_keys d.
Proof.
  simpl. unfold ci_base.key_nodes. rewrite map_map.
  induction d as [|[k v] d IH]; simpl; [done|].
  rewrite <- IH. unfold ci_base.multiline_str_representer.
  by destruct (contains_char _ k).
Qed.

(** The document of a workflow whose permissions are falsy. *)
Lemma get_workflow_definition_no_permissions {K} (self : ci_base.Workflow K)
    (kw : K) w w' p t jobs :
  (∀ w, ci_base.get_permissions self w = Ret p w) →
  ci_base.truthy p = false →
  (∀ kw w, ci_base.get_triggers self kw w = Ret t w) →
  ci_base.get_jobs self kw w = Ret jobs w' →
  ci_base.get_workflow_definition self kw w =
    Ret [("name", VStr (ci_base.workflow_name self));
         ("run-name", VStr (ci_base.workflow_id self));
         ("on", t); ("jobs", jobs)] w'.
Proof.
  intros Hp Hfalsy Ht Hj. unfold ci_base.get_workflow_definition.
  rewrite (bind_Ret _ _ _ _ _ (Hp w)), Hfalsy.
  rewrite (bind_Ret _ _ _ _ _ (Ht kw w)).
  by rewrite (bind_Ret _ _ _ _ _ Hj).
Qed.

Lemma get_workflow_definition_jobs {K} (self : ci_base.Workflow K)
    (kw : K) w w' p t doc :
  (∀ w, ci_base.get_permissions self w = Ret p w) →
  (∀ kw w, ci_base.get_triggers self kw w = Ret t w) →
  ci_base.get_workflow_definition self kw w = Ret doc w' →
  ∃ jobs, ci_base.get_jobs self kw w = Ret jobs w'.
Proof.
  intros Hp Ht. unfold ci_base.get_workflow_definition.
  rewrite (bind_Ret _ _ _ _ _ (Hp w)), (bind_Ret _ _ _ _ _ (Ht kw w)).
  intros (jobs & w1 & Hj & Hr)%bind_Ret_inv.
  injection Hr as _ <-. eauto.
Qed.

Lemma empty_mapping_falsy v : ci_base.empty_mapping v → ci_base.truthy v = false.
Proof. by intros [-> | ->]. Qed.

(** C2, as the code has it.  When the permission hook and the trigger hook
    return empty mappings, the document that is built, and so the mapping
    node that is dumped, has exactly the keys [name], [run-name], [on] and
    [jobs], in that order: the permissions key is left out, while the trigger
    key [on] is there, with the empty mapping as its value. *)
Theorem empty_hooks_omit_permissions_only :
  ∀ (K : Type) (self : ci_base.Workflow K) (kw : K) (w w' : world)
    (p t : value) (doc : odict),
    ci_base.empty_mapping p → ci_base.empty_mapping t →
    (∀ w, ci_base.get_permissions self w = Ret p w) →
    (∀ kw w, ci_base.get_triggers self kw w = Ret t w) →
    ci_base.get_workflow_definition self kw w = Ret doc w' →
    od_keys doc = ["name"; "run-name"; "on"; "jobs"] ∧
    ci_base.node_keys (ci_base.represent (VODict doc))
      = ["name"; "run-name"; "on"; "jobs"] ∧
    od_get "permissions" doc = None ∧
    od_get "on" doc = Some t ∧
    ci_base.node_keys (ci_base.represent t) = [].
Proof.
  intros K self kw w w' p t doc Hp Ht Hperm Htrig Hdef.
  destruct (get_workflow_definition_jobs self kw w w' p t doc Hperm Htrig Hdef)
    as [jobs Hj].
  rewrite (get_workflow_definition_no_permissions self kw w w' p t jobs
             Hperm (empty_mapping_falsy p Hp) Htrig Hj) in Hdef.
  injection Hdef as <-.
  rewrite node_keys_odict.
  repeat split; try done.
  by destruct Ht as [-> | ->].
Qed.

Lemma empty_hooks_omit_permissions_only_witness :
  ∃ doc,
    ci_base.get_workflow_definition examples.bare_workflow tt examples.w_start
      = Ret doc examples.w_start ∧
    od_keys doc = ["name"; "run-name"; "on"; "jobs"].
Proof.
  eexists. split; [reflexivity|].
  eapply (empty_hooks_omit_permissions_only unit examples.bare_workflow tt
            examples.w_start examples.w_start (VDict []) (VDict [])).
  - by left.
  - by left.
  - reflexivity.
  - reflexivity.
  - reflexivity.
Defined.

(** C2, as stated, fails: with both hooks returning empty mappings, the
    document that [create] writes still has the trigger key [on]. *)
Lemma empty_triggers_are_written :
  ∃ doc n,
    ci_base.get_workflow_definition examples.bare_workflow tt examples.w_start
      = Ret doc examples.w_start ∧
    od_get "on" doc = Some (VDict []) ∧
    w_fs (final_world
            (ci_base.Workflow_create examples.root examples.bare_workflow tt
               examples.w_start))
      !! ci_base.workflow_path examples.root examples.bare_workflow
      = Some (FFile (Some n)) ∧
    n = ci_base.represent (VODict doc) ∧
    "on" ∈ ci_base.node_keys n ∧
    "permissions" ∉ ci_base.node_keys n.
Proof.
  eexists. eexists. split; [reflexivity|].
  split; [reflexivity|].
  split; [reflexivity|].
  split; [reflexivity|].
  split; apply (bool_decide_unpack _); by vm_compute.
Qed.

(** ** Create and delete (scripts/ci/_base.py) *)

Lemma stat_insert_eq fs p x : p ≠ [] → stat (<[p := x]> fs) p = Some x.
Proof. intros Hp. destruct p; [done|]. apply lookup_insert_eq. Qed.

Lemma stat_delete_eq fs p : p ≠ [] → stat (delete p fs) p = None.
Proof. intros Hp. destruct p; [done|]. apply lookup_delete_eq. Qed.

Lemma stat_insert_ne fs p q x : q ≠ p → stat (<[p := x]> fs) q = stat fs q.
Proof. intros Hq. destruct q; [done|]. simpl. by rewrite lookup_insert_ne. Qed.

Lemma stat_delete_ne fs p q : q ≠ p → stat (delete p fs) q = stat fs q.
Proof. intros Hq. destruct q; [done|]. simpl. by rewrite lookup_delete_ne. Qed.

Lemma prefix_of_inv {A} (q : list A) x l :
  q `prefix_of` x :: l → q = [] ∨ ∃ q', q = x :: q' ∧ q' `prefix_of` l.
Proof.
  destruct q as [|y q]; [by left|]. intros H. right. exists q. split.
  - f_equal. by apply prefix_cons_inv_1 in H.
  - by apply prefix_cons_inv_2 in H.
Qed.


Lemma unreachable_clear fs a b :
  (∀ b1 b2 c, b = b1 ++ b2 → b2 ≠ [] → stat fs (a ++ b1) ≠ Some (FFile c)) →
  unreachable fs a b = FileNotFoundError.
Proof.
  revert a. induction b as [|x b IH]; intros a H; simpl; [done|].
  destruct (stat fs a) as [[c|]|] eqn:E; [|apply IH|done].
  - destruct (H [] (x :: b) c); [done | done | by rewrite app_nil_r].
  - intros b1 b2 c -> Hb2. rewrite <- app_assoc. by apply (H (x :: b1) b2 c).
Qed.

Lemma unreachable_file fs a b1 b2 c :
  b2 ≠ [] →
  stat fs (a ++ b1) = Some (FFile c) →
  (∀ b0 b', b1 = b0 ++ b' → b' ≠ [] → is_dir fs (a ++ b0) = true) →
  unreachable fs a (b1 ++ b2) = NotADirectoryError.
Proof.
  revert a. induction b1 as [|x b1 IH]; intros a Hb2 Hf Hd.
  - destruct b2; [done|]. simpl. rewrite app_nil_r in Hf. by rewrite Hf.
  - simpl. assert (is_dir fs a = true) as Ha.
    { rewrite <- (app_nil_r a). by apply (Hd [] (x :: b1)). }
    unfold is_dir in Ha.
    destruct (stat fs a) as [[]|]; [done | | done].
    apply IH; [done | by rewrite <- app_assoc |].
    intros b0 b' -> Hb'. rewrite <- app_assoc. by apply (Hd (x :: b0) b').
Qed.

(** A path with no entry is reported missing when no regular file sits
    above it. *)
Lemma no_entry_clear fs p :
  (∀ q c, q `prefix_of` parent p → stat fs q ≠ Some (FFile c)) →
  no_entry fs p = FileNotFoundError.
Proof.
  intros H. apply unreachable_clear. intros b1 b2 c -> Hb2. simpl.
  apply H. unfold parent. rewrite removelast_app by done.
  by apply prefix_app_r.
Qed.

(** It is reported as not a directory when the first thing in the way is a
    regular file. *)
Lemma no_entry_file fs p q c :
  q `prefix_of` parent p →
  stat fs q = Some (FFile c) →
  (∀ q', q' `prefix_of` q → q' ≠ q → is_dir fs q' = true) →
  no_entry fs p = NotADirectoryError.
Proof.
  intros [k Hk] Hf Hd.
  destruct p as [|x p'] using rev_ind.
  { destruct q; [done | by destruct k]. }
  clear IHp'. unfold parent in Hk. rewrite removelast_last in Hk. subst p'.
  rewrite <- app_assoc.
  apply (unreachable_file fs [] q (k ++ [x]) c); [by destruct k | done |].
  intros b0 b' -> Hb'. simpl. apply Hd; [by apply prefix_app_r|].
  intros E. apply Hb'. apply (app_inv_head b0). by rewrite app_nil_r.
Qed.

Lemma Path_mkdir_rev_unfold rp fs :
  Path_mkdir_rev rp fs =
    match os_mkdir (rev rp) fs with
    | inr fs' => inr fs'
    | inl FileNotFoundError =>
        match rp with
        | [] => inl FileNotFoundError
        | _ :: rparent =>
            match Path_mkdir_rev rparent fs with
            | inl e => inl e
            | inr fs1 => Path_mkdir_leaf (rev rp) fs1
            end
        end
    | inl e => if is_dir fs (rev rp) then inr fs else inl e
    end.
Proof. by destruct rp. Qed.

(** Making directories leaves what exists as it is. *)
Lemma os_mkdir_keeps p fs fs1 q x :
  os_mkdir p fs = inr fs1 → stat fs q = Some x → stat fs1 q = Some x.
Proof.
  unfold os_mkdir. destruct (stat fs p) eqn:E; [done|].
  destruct (check_parent fs p); [done|].
  intros [= <-] Hq. rewrite stat_insert_ne; [done|]. intros ->. congruence.
Qed.

Lemma Path_mkdir_leaf_keeps p fs fs1 q x :
  Path_mkdir_leaf p fs = inr fs1 → stat fs q = Some x → stat fs1 q = Some x.
Proof.
  unfold Path_mkdir_leaf. destruct (os_mkdir p fs) as [e|fs'] eqn:E.
  - intros H Hq.
    destruct e; try discriminate H; destruct (is_dir fs p);
      try discriminate H; by injection H as <-.
  - intros [= <-]. by apply (os_mkdir_keeps p fs).
Qed.

Lemma Path_mkdir_rev_keeps rp fs fs1 q x :
  Path_mkdir_rev rp fs = inr fs1 → stat fs q = Some x → stat fs1 q = Some x.
Proof.
  revert fs fs1. induction rp as [|a r IH]; intros fs fs1 H Hq;
    rewrite Path_mkdir_rev_unfold in H;
    destruct (os_mkdir _ fs) as [e|fs'] eqn:E;
    try (injection H as <-; by apply (os_mkdir_keeps _ _ _ _ _ E));
    destruct e;
    try (destruct (is_dir fs _); [by injection H as <- | discriminate H]);
    try discriminate H.
  destruct (Path_mkdir_rev r fs) as [e'|fs2] eqn:E2; [discriminate H|].
  apply (Path_mkdir_leaf_keeps _ _ _ _ _ H), (IH _ _ E2 Hq).
Qed.

Lemma open_w_inv p fs fs' :
  open_w p fs = inr fs' → p ≠ [] ∧ fs' = <[p := FFile None]> fs.
Proof.
  unfold open_w. destruct p as [|c p].
  - discriminate.
  - destruct (stat fs (c :: p)) as [[]|], (check_parent fs (c :: p));
      intros [= <-] || discriminate; done.
Qed.

Lemma fs_call_Ret_inv f w w' :
  fs_call f w = Ret tt w' → ∃ fs', f (w_fs w) = inr fs' ∧ w' = with_fs fs' w.
Proof.
  unfold fs_call. destruct (f (w_fs w)) as [e|fs']; [discriminate|].
  intros [= <-]. eauto.
Qed.

(** What [open] and [dump] leave at the path of the document. *)
Lemma dumped_after_open (p : path) (body : M value) w w1 :
  bind (fs_call (open_w p)) (λ _, bind body (λ doc, ci_base.yaml_dump doc p)) w
    = Ret tt w1 →
  p ≠ [] ∧ ∃ n, stat (w_fs w1) p = Some (FFile (Some n)).
Proof.
  intros ([] & wa & Ho & H)%bind_Ret_inv.
  apply fs_call_Ret_inv in Ho as (fs' & [Hp _]%open_w_inv & _).
  apply bind_Ret_inv in H as (doc & wb & _ & Hd).
  unfold ci_base.yaml_dump, modify in Hd. injection Hd as <-.
  split; [done|]. eexists. simpl. by apply stat_insert_eq.
Qed.

Lemma os_remove_file p n w :
  p ≠ [] → stat (w_fs w) p = Some (FFile n) →
  fs_call (os_remove p) w = Ret tt (with_fs (delete p (w_fs w)) w) ∧
  path_exists (delete p (w_fs w)) p = false.
Proof.
  intros Hp Hs. unfold fs_call, os_remove. rewrite Hs. split; [done|].
  unfold path_exists. by rewrite stat_delete_eq.
Qed.

Lemma Workflow_create_leaves_file root {K} (self : ci_base.Workflow K) kw w w1 :
  ci_base.Workflow_create root self kw w = Ret tt w1 →
  ci_base.workflow_path root self ≠ [] ∧
  ∃ n, stat (w_fs w1) (ci_base.workflow_path root self) = Some (FFile (Some n)).
Proof.
  unfold ci_base.Workflow_create.
  intros ([] & wa & _ & H)%bind_Ret_inv.
  apply (dumped_after_open _
    (bind (ci_base.get_workflow_definition self kw) (λ doc, ret (VODict doc)))
    wa w1).
  rewrite <- H. unfold bind. destruct (fs_call _ wa); [|done].
  by destruct (ci_base.get_workflow_definition self kw w0).
Qed.

Lemma Action_create_leaves_file root {K} (self : ci_base.Action K) kw w w1 :
  ci_base.Action_create root self kw w = Ret tt w1 →
  ci_base.action_file root self ≠ [] ∧
  ∃ n, stat (w_fs w1) (ci_base.action_file root self) = Some (FFile (Some n)).
Proof.
  unfold ci_base.Action_create.
  intros ([] & wa & _ & H)%bind_Ret_inv.
  by apply (dumped_after_open _ (ci_base.get_action_definition self kw) wa w1).
Qed.

Lemma os_chdir_Ret_inv d w w' : os_chdir d w = Ret tt w' → w' = with_cwd d w.
Proof.
  unfold os_chdir. destruct (stat (w_fs w) d) as [[]|]; [done| |done].
  by intros [= <-].
Qed.

(** A guarded body that comes back has returned, and the directory of
    before was restored. *)
Lemma guarded_Ret_inv cwd body w w3 :
  base.guarded cwd body w = Ret tt w3 →
  ∃ w1 w2, base.enter_cwd cwd w = Ret tt w1 ∧ body w1 = Ret tt w2 ∧
           os_chdir (w_cwd w) w2 = Ret tt w3.
Proof.
  unfold base.guarded, except_CommandError, base.set_cwd, bind, get, ret.
  destruct (base.enter_cwd cwd w) as [[] w1|e w1] eqn:He.
  - destruct (body w1) as [[] w2|e w2] eqn:Hb.
    + destruct (os_chdir (w_cwd w) w2) as [[] w4|e w4] eqn:Hr.
      * intros [= <-]. by exists w1, w2.
      * by destruct e.
    + by destruct e.
  - by destruct e.
Qed.

(** The build action leaves every other entry of the file system as it
    is. *)
Lemma build_action_create_keeps root w w2 q x :
  ci_base.Action_create root python_tests.PythonBuildAction tt w = Ret tt w2 →
  q ≠ ci_base.action_file root python_tests.PythonBuildAction →
  stat (w_fs w) q = Some x → stat (w_fs w2) q = Some x.
Proof.
  unfold ci_base.Action_create.
  intros ([] & wa & (fs1 & Hm & ->)%fs_call_Ret_inv & H)%bind_Ret_inv Hq Hs.
  apply bind_Ret_inv in H as ([] & wb & (fs2 & [_ ->]%open_w_inv & ->)%fs_call_Ret_inv & H).
  apply bind_Ret_inv in H as (doc & wc & Hdoc & Hd).
  injection Hdoc as _ <-.
  unfold ci_base.yaml_dump, modify in Hd. injection Hd as <-.
  cbn [w_fs with_fs]. rewrite !stat_insert_ne by done.
  apply (Path_mkdir_rev_keeps _ _ _ _ _ Hm Hs).
Qed.

Lemma generator_paths_differ root create_arguments :
  ci_base.workflow_path root
    (python_tests.GitHubPythonTest root create_arguments)
  ≠ ci_base.action_file root python_tests.PythonBuildAction.
Proof.
  intros E. apply (f_equal length) in E. revert E.
  change (length ((parent root ++ [".github"; "workflows"])
                    ++ ["python-test.yml"])
          = length (((parent root ++ [".github"; "actions"]) ++ ["build"])
                      ++ ["action.yml"]) → False).
  rewrite !length_app. simpl. lia.
Qed.

(** What the [create] of the generator leaves: both documents. *)
Lemma generator_create_leaves_files root create_arguments kw w w1 :
  ci_base.Workflow_self_create root
    (python_tests.GitHubPythonTest root create_arguments) kw w = Ret tt w1 →
  (∃ n, stat (w_fs w1)
          (ci_base.workflow_path root
             (python_tests.GitHubPythonTest root create_arguments))
        = Some (FFile (Some n))) ∧
  (∃ n, stat (w_fs w1)
          (ci_base.action_file root python_tests.PythonBuildAction)
        = Some (FFile (Some n))).
Proof.
  change (ci_base.Workflow_self_create root
            (python_tests.GitHubPythonTest root create_arguments))
    with (python_tests.create root
            (ci_base.Workflow_create root
               (python_tests.GitHubPythonTest root create_arguments))).
  unfold python_tests.create.
  intros ([] & wa & Hc & H)%bind_Ret_inv.
  apply bind_Ret_inv in H as (i & wb & Hi & H).
  injection Hi as _ <-.
  rewrite (Command_call_parsed _ _ (ci_base.FuncCreate tt)) in H by reflexivity.
  apply guarded_Ret_inv in H as (wc & w2 & He & Hb & ->%os_chdir_Ret_inv).
  injection He as <-.
  change (ci_base.Action_create root python_tests.PythonBuildAction tt wa
          = Ret tt w2) in Hb.
  apply Workflow_create_leaves_file in Hc as (_ & n & Hs).
  split.
  - exists n. cbn [w_fs with_cwd].
    apply (build_action_create_keeps _ _ _ _ _ Hb); [|done].
    apply generator_paths_differ.
  - apply Action_create_leaves_file in Hb as (_ & m & Hm). by exists m.
Qed.

(** C3, as stated, fails for the generator of the test workflow: its
    [create] also writes the build action, which [delete] does not remove.
    Called through the command on a checkout that has no [.github]
    directory, [create] and then [delete] both end with status 0 and leave
    [.github/actions/build/action.yml] on disk. *)
Lemma generator_leaves_the_build_action :
  process_outcome
    (base.Command__call__ examples.scenario_command (Some ["create"])
       examples.w_imported) = ExitStatus 0 ∧
  process_outcome
    (base.Command__call__ examples.scenario_command (Some ["delete"])
       examples.w_created) = ExitStatus 0 ∧
  path_exists (w_fs examples.w_imported) examples.build_action_yml = false ∧
  path_exists
    (w_fs (final_world
             (base.Command__call__ examples.scenario_command (Some ["delete"])
                examples.w_created)))
    examples.build_action_yml = true ∧
  ci_base.action_file examples.root python_tests.PythonBuildAction
    = examples.build_action_yml.
Proof. repeat split; by vm_compute. Qed.

(** C3, amended.  For an action, and for a workflow that inherits [create],
    once the [create] that [handle] calls has returned, [delete] returns too
    and nothing is left at the path of the document, whatever the identifier.
    The generator of the test workflow overrides [create]: after it,
    [delete] removes the workflow and leaves the [action.yml] of the build
    action.  When nothing exists at the path of its document, [delete] of a
    workflow returns and changes nothing, while [delete] of an action raises
    and changes nothing: [FileNotFoundError] when no regular file sits above
    the document, [NotADirectoryError] when the first thing in the way is a
    regular file. *)
Theorem create_then_delete_removes_the_document (PROJECT_ROOT : path) :
  (∀ (K : Type) (self : ci_base.Workflow K) (kw : K) (w w1 : world),
      ci_base.create_override self = None →
      ci_base.Workflow_self_create PROJECT_ROOT self kw w = Ret tt w1 →
      ∃ w2, ci_base.Workflow_delete PROJECT_ROOT self w1 = Ret tt w2 ∧
            path_exists (w_fs w2) (ci_base.workflow_path PROJECT_ROOT self)
              = false) ∧
  (∀ (K : Type) (self : ci_base.Action K) (kw : K) (w w1 : world),
      ci_base.Action_handle PROJECT_ROOT self (ci_base.FuncCreate kw) w
        = Ret tt w1 →
      ∃ w2, ci_base.Action_handle PROJECT_ROOT self ci_base.FuncDelete w1
              = Ret tt w2 ∧
            path_exists (w_fs w2) (ci_base.action_file PROJECT_ROOT self)
              = false) ∧
  (∀ (create_arguments : list string → exn + python_tests.kwargs)
     (kw : python_tests.kwargs) (w w1 : world),
      ci_base.Workflow_self_create PROJECT_ROOT
        (python_tests.GitHubPythonTest PROJECT_ROOT create_arguments) kw w
        = Ret tt w1 →
      ∃ w2,
        ci_base.Workflow_delete PROJECT_ROOT
          (python_tests.GitHubPythonTest PROJECT_ROOT create_arguments) w1
          = Ret tt w2 ∧
        path_exists (w_fs w2)
          (ci_base.workflow_path PROJECT_ROOT
             (python_tests.GitHubPythonTest PROJECT_ROOT create_arguments))
          = false ∧
        path_exists (w_fs w2)
          (ci_base.action_file PROJECT_ROOT python_tests.PythonBuildAction)
          = true) ∧
  (∀ (K : Type) (self : ci_base.Workflow K) (w : world),
      path_exists (w_fs w) (ci_base.workflow_path PROJECT_ROOT self) = false →
      ci_base.Workflow_delete PROJECT_ROOT self w = Ret tt w) ∧
  (∀ (K : Type) (self : ci_base.Action K) (w : world),
      path_exists (w_fs w) (ci_base.action_file PROJECT_ROOT self) = false →
      ∃ e,
        ci_base.Action_delete PROJECT_ROOT self w = Raise e w ∧
        ((∀ q c, q `prefix_of` ci_base.action_path PROJECT_ROOT self →
                 stat (w_fs w) q ≠ Some (FFile c)) →
         e = FileNotFoundError) ∧
        (∀ q c, q `prefix_of` ci_base.action_path PROJECT_ROOT self →
                stat (w_fs w) q = Some (FFile c) →
                (∀ q', q' `prefix_of` q → q' ≠ q →
                       is_dir (w_fs w) q' = true) →
                e = NotADirectoryError)).
Proof.
  split; [|split; [|split; [|split]]].
  - intros K self kw w w1 Hinherit. unfold ci_base.Workflow_self_create.
    rewrite Hinherit.
    intros (Hp & n & Hs)%Workflow_create_leaves_file.
    destruct (os_remove_file _ _ w1 Hp Hs) as [Hrm Hgone].
    eexists. split.
    + unfold ci_base.Workflow_delete, bind, get, path_exists. rewrite Hs.
      exact Hrm.
    + exact Hgone.
  - intros K self kw w w1 (Hp & n & Hs)%Action_create_leaves_file.
    destruct (os_remove_file _ _ w1 Hp Hs) as [Hrm Hgone].
    eexists. split; [exact Hrm | exact Hgone].
  - intros ca kw w w1 [[n Hs] [m Hm]]%generator_create_leaves_files.
    assert (ci_base.workflow_path PROJECT_ROOT
              (python_tests.GitHubPythonTest PROJECT_ROOT ca) ≠ []) as Hp
      by (intros E; apply (f_equal length) in E; revert E;
          change (length ((parent PROJECT_ROOT ++ [".github"; "workflows"])
                            ++ ["python-test.yml"])
                  = 0%nat → False);
          rewrite !length_app; simpl; lia).
    destruct (os_remove_file _ _ w1 Hp Hs) as [Hrm Hgone].
    eexists. split; [|split].
    + unfold ci_base.Workflow_delete, bind, get, path_exists. rewrite Hs.
      exact Hrm.
    + exact Hgone.
    + cbn [w_fs with_fs]. unfold path_exists.
      rewrite stat_delete_ne, Hm; [done|].
      intros E. by apply (generator_paths_differ PROJECT_ROOT ca).
  - intros K self w Hno.
    unfold ci_base.Workflow_delete, bind, get. by rewrite Hno.
  - intros K self w Hno.
    unfold ci_base.Action_delete, fs_call, os_remove.
    unfold path_exists in Hno.
    destruct (stat (w_fs w) (ci_base.action_file PROJECT_ROOT self)); [done|].
    eexists. split; [reflexivity|].
    assert (parent (ci_base.action_file PROJECT_ROOT self)
            = ci_base.action_path PROJECT_ROOT self) as Hpar
      by apply removelast_last.
    split.
    + intros Hclear. apply no_entry_clear. by rewrite Hpar.
    + intros q c Hq Hf Hd. apply (no_entry_file _ _ q c); [by rewrite Hpar|done..].
Qed.

Lemma create_then_delete_removes_the_document_witness :
  (∃ w2,
     ci_base.Workflow_delete examples.root examples.bare_workflow
       (final_world
          (ci_base.Workflow_self_create examples.root examples.bare_workflow
             tt examples.w_start)) = Ret tt w2 ∧
     path_exists (w_fs w2)
       (ci_base.workflow_path examples.root examples.bare_workflow) = false) ∧
  (∃ w2,
     ci_base.Workflow_delete examples.root examples.scenario_generator
       (final_world
          (ci_base.Workflow_self_create examples.root
             examples.scenario_generator examples.scenario
             examples.w_imported)) = Ret tt w2 ∧
     path_exists (w_fs w2) examples.build_action_yml = true) ∧
  ci_base.Workflow_delete examples.root examples.bare_workflow examples.w_start
    = Ret tt examples.w_start ∧
  ci_base.Action_delete examples.root python_tests.PythonBuildAction
    examples.w_start = Raise FileNotFoundError examples.w_start ∧
  ci_base.Action_delete examples.root python_tests.PythonBuildAction
    examples.w_file_above = Raise NotADirectoryError examples.w_file_above.
Proof.
  destruct (create_then_delete_removes_the_document examples.root)
    as (Hwf & _ & Hgen & Habsent & Haction).
  split; [|split; [|split; [|split]]].
  - destruct (Hwf unit examples.bare_workflow tt examples.w_start
                (final_world
                   (ci_base.Workflow_self_create examples.root
                      examples.bare_workflow tt examples.w_start)))
      as (w2 & Hdel & Hgone); [reflexivity | reflexivity |].
    by exists w2.
  - destruct (Hgen (λ _, inr examples.scenario) examples.scenario
                examples.w_imported
                (final_world
                   (ci_base.Workflow_self_create examples.root
                      examples.scenario_generator examples.scenario
                      examples.w_imported)))
      as (w2 & Hdel & _ & Hleft); [vm_compute; reflexivity|].
    exists w2. split; [exact Hdel | exact Hleft].
  - apply Habsent. reflexivity.
  - destruct (Haction unit python_tests.PythonBuildAction examples.w_start)
      as (e & Hcall & Hnf & _); [reflexivity|].
    rewrite Hcall, Hnf; [done|].
    intros q c Hq.
    change (q `prefix_of` ["repo"; ".github"; "actions"; "build"]) in Hq.
    repeat (apply prefix_of_inv in Hq as [->|(? & -> & Hq)]; [by vm_compute|]).
    apply prefix_nil_inv in Hq as ->. by vm_compute.
  - destruct (Haction unit python_tests.PythonBuildAction
                examples.w_file_above)
      as (e & Hcall & _ & Hnd); [reflexivity|].
    rewrite Hcall, (Hnd ["repo"; ".github"] None); [done | | reflexivity |].
    + by exists ["actions"; "build"].
    + intros q' Hq' Hne.
      repeat (apply prefix_of_inv in Hq' as [->|(? & -> & Hq')]; [by vm_compute|]).
      by apply prefix_nil_inv in Hq' as ->.
Defined.

(** ** No sub-command (scripts/ci/_base.py) *)



(** ** Job-graph assembly (scripts/ci/python_tests.py) *)

Lemma bind_ret_r {A} (m : M A) w : bind m ret w = m w.
Proof. unfold bind, ret. by destruct (m w). Qed.

(** [get_jobs] by its stages. *)
Lemma get_jobs_stages kw w :
  python_tests.get_jobs kw w =
    bind (python_tests.jobs_before_coverage kw)
      (λ jobs,
         bind (python_tests.get_coverage jobs (python_tests.tests kw)
                 (python_tests.coverage_fail_under kw)
                 (python_tests.coverage_fail_regressed kw))
           (λ jobs,
              python_tests.get_tests_passed jobs (python_tests.required kw))) w.
Proof.
  unfold python_tests.get_jobs, python_tests.jobs_before_coverage, bind, ret.
  destruct (python_tests.get_linters [] (python_tests.tests kw) w) as [j1 w1|];
    [|done].
  destruct (python_tests.get_static_tests j1 (python_tests.tests kw) w1)
    as [j2 w2|]; [|done].
  destruct (python_tests.get_tests j2 (python_tests.tests kw) w2) as [j3 w3|];
    [|done].
  destruct (python_tests.get_coverage j3 _ _ _ w3) as [j4 w4|]; [|done].
  by destruct (python_tests.get_tests_passed j4 _ w4).
Qed.

Lemma get_jobs_selected kw w :
  python_tests.get_jobs kw w =
    bind (python_tests.selected_jobs kw)
      (λ jobs,
         python_tests.get_tests_passed jobs (python_tests.required kw)) w.
Proof.
  rewrite get_jobs_stages. unfold python_tests.selected_jobs.
  by rewrite bind_assoc.
Qed.

(** With a list of tests on the command line nothing is prompted. *)
Lemma wanted_given tests message key w :
  python_tests.not_ tests = false →
  python_tests.wanted tests message key w
    = Ret (python_tests.in_or_ALL key tests) w.
Proof. intros H. unfold python_tests.wanted. by rewrite H. Qed.









Lemma with_fs_with_fs a b w : with_fs a (with_fs b w) = with_fs a w.
Proof. reflexivity. Qed.






(** ** The gate job (scripts/ci/python_tests.py) *)

Lemma od_keys_od_set k v d x :
  x ∈ od_keys (od_set k v d) ↔ x = k ∨ x ∈ od_keys d.
Proof.
  unfold od_keys. induction d as [|[k' v'] d IH]; simpl.
  - rewrite list_elem_of_singleton. split; [by left | by intros [|?%elem_of_nil]].
  - destruct (String.eqb_spec k' k) as [->|Hne]; simpl.
    + rewrite !elem_of_cons. tauto.
    + rewrite !elem_of_cons, IH. tauto.
Qed.

(** Importing the tests module registers [Pytest] as a test. *)
Lemma import_registers_pytest w0 w :
  tests.import w0 = Ret tt w →
  w_tests w = w_tests w0 ++ [Instance tests.Pytest].
Proof. intros H. injection H as <-. reflexivity. Qed.

Lemma import_returns w0 : ∃ w, tests.import w0 = Ret tt w.
Proof. eexists. reflexivity. Qed.

Lemma in_ruff_only name :
  python_tests.in_or_ALL name (Some ["ruff"]) = true → name = "ruff".
Proof.
  unfold python_tests.in_or_ALL, str_in.
  rewrite orb_true_iff, !bool_decide_eq_true, !list_elem_of_singleton.
  by intros [-> | [=]].
Qed.

Lemma get_tests_loop_ruff all_tests v w :
  ∃ v', python_tests.get_tests_loop all_tests [("ruff", v)] (Some ["ruff"]) w
          = Ret [("ruff", v')] w.
Proof.
  revert v. induction all_tests as [|t l IH]; intros v; simpl; [by eexists|].
  rewrite (bind_Ret _ _ _ _ _ (wanted_given (Some ["ruff"]) _ _ w eq_refl)).
  destruct (python_tests.in_or_ALL _ _) eqn:Hin; [|apply IH].
  apply in_ruff_only in Hin. rewrite Hin. simpl. apply IH.
Qed.

Lemma get_tests_ruff v w :
  w_tests w ≠ [] →
  ∃ v', python_tests.get_tests [("ruff", v)] (Some ["ruff"]) w
          = Ret [("ruff", v')] w.
Proof.
  intros Hreg. unfold python_tests.get_tests, tests.get_all_tests.
  unfold bind at 1 2. unfold get, ret at 1.
  destruct (w_tests w) as [|t l] eqn:Ht; [done|].
  apply get_tests_loop_ruff.
Qed.

(** The scenario on any world whose test registry is not empty. *)
Lemma scenario_jobs w :
  w_tests w ≠ [] →
  ∃ v, python_tests.get_jobs examples.scenario w
         = Ret [("ruff", v);
                (python_tests.gate, python_tests.tests_passed_job ["ruff"])] w.
Proof.
  intros Hreg. rewrite get_jobs_stages.
  unfold python_tests.jobs_before_coverage.
  cbn [examples.scenario python_tests.tests python_tests.required
       python_tests.coverage_fail_under python_tests.coverage_fail_regressed].
  destruct (get_tests_ruff python_tests.ruff_job w Hreg) as [v Hv].
  exists v.
  rewrite bind_assoc.
  rewrite (bind_Ret (python_tests.get_linters [] (Some ["ruff"])) _ w
             [("ruff", python_tests.ruff_job)] w eq_refl).
  rewrite bind_assoc.
  rewrite (bind_Ret (python_tests.get_static_tests _ (Some ["ruff"])) _ w
             [("ruff", python_tests.ruff_job)] w eq_refl).
  rewrite (bind_Ret _ _ _ _ _ Hv).
  reflexivity.
Qed.

(** Prompts read standard input and nothing else. *)
Lemma wanted_tests tests message key w b w' :
  python_tests.wanted tests message key w = Ret b w' → w_tests w' = w_tests w.
Proof.
  unfold python_tests.wanted, python_tests.prompt_bool, ret.
  destruct (python_tests.not_ tests).
  - destruct (python_tests.read_choice (w_stdin w)) as [[c r]|]; [|done].
    by intros [= _ <-].
  - by intros [= _ <-].
Qed.

Lemma get_linters_keys jobs tests w jobs' w' :
  python_tests.get_linters jobs tests w = Ret jobs' w' →
  w_tests w' = w_tests w ∧
  ∀ x, x ∈ od_keys jobs' → x ∈ od_keys jobs ∨ x ∈ ["ruff"; "lock"].
Proof.
  unfold python_tests.get_linters.
  intros (b1 & w1 & H1 & (b2 & w2 & H2 & Hr)%bind_Ret_inv)%bind_Ret_inv.
  injection Hr as <- <-.
  split; [by rewrite (wanted_tests _ _ _ _ _ _ H2), (wanted_tests _ _ _ _ _ _ H1)|].
  intros x. destruct b1, b2; rewrite ?od_keys_od_set, !elem_of_cons; tauto.
Qed.

Lemma get_static_tests_keys jobs tests w jobs' w' :
  python_tests.get_static_tests jobs tests w = Ret jobs' w' →
  w_tests w' = w_tests w ∧
  ∀ x, x ∈ od_keys jobs' → x ∈ od_keys jobs ∨ x ∈ ["mypy"; "importlinter"].
Proof.
  unfold python_tests.get_static_tests.
  intros (b1 & w1 & H1 & (b2 & w2 & H2 & Hr)%bind_Ret_inv)%bind_Ret_inv.
  injection Hr as <- <-.
  split; [by rewrite (wanted_tests _ _ _ _ _ _ H2), (wanted_tests _ _ _ _ _ _ H1)|].
  intros x. destruct b1, b2; rewrite ?od_keys_od_set, !elem_of_cons; tauto.
Qed.

Lemma get_tests_loop_keys all_tests jobs tests w jobs' w' :
  python_tests.get_tests_loop all_tests jobs tests w = Ret jobs' w' →
  w_tests w' = w_tests w ∧
  ∀ x, x ∈ od_keys jobs' →
       x ∈ od_keys jobs ∨ x ∈ map (λ t, cls_name (inst_cls t)) all_tests.
Proof.
  revert jobs w. induction all_tests as [|t l IH]; intros jobs w; simpl.
  - intros [= <- <-]. auto.
  - intros (b & w1 & H1 & [Hw Hk]%IH)%bind_Ret_inv.
    split; [by rewrite Hw, (wanted_tests _ _ _ _ _ _ H1)|].
    intros x [Hx|Hx]%Hk; [|right; by apply list_elem_of_further].
    destruct b; [|by left].
    apply od_keys_od_set in Hx as [->|Hx]; [right; apply list_elem_of_here | by left].
Qed.

Lemma get_tests_keys jobs tests w jobs' w' :
  python_tests.get_tests jobs tests w = Ret jobs' w' →
  w_tests w' = w_tests w ∧
  ∀ x, x ∈ od_keys jobs' →
       x ∈ od_keys jobs ∨ x = "pytest" ∨ x ∈ python_tests.test_names w.
Proof.
  unfold python_tests.get_tests, tests.get_all_tests, python_tests.test_names.
  unfold bind at 1 2. unfold get, ret at 1.
  destruct (w_tests w) as [|t l] eqn:Ht.
  - intros (b & w1 & H1 & Hr)%bind_Ret_inv. injection Hr as <- <-.
    split; [by rewrite (wanted_tests _ _ _ _ _ _ H1)|].
    intros x [->|Hx]%od_keys_od_set; auto.
  - intros [Hw Hk]%get_tests_loop_keys. split; [by rewrite Hw|].
    intros x [Hx|Hx]%Hk; auto.
Qed.

Lemma get_coverage_keys jobs tests fail_under regressed w jobs' w' :
  python_tests.get_coverage jobs tests fail_under regressed w = Ret jobs' w' →
  ∀ x, x ∈ od_keys jobs' → x ∈ od_keys jobs ∨ x = "coverage".
Proof.
  unfold python_tests.get_coverage.
  intros (b & w1 & H1 & Hr)%bind_Ret_inv.
  destruct b; [destruct (python_tests.truthy_flag regressed); [done|]|];
    injection Hr as <- <-; intros x; rewrite ?od_keys_od_set; tauto.
Qed.

(** Every selected job is one of the six fixed ones or a registered test. *)
Lemma selected_jobs_keys kw w jobs w1 :
  python_tests.selected_jobs kw w = Ret jobs w1 →
  ∀ x, x ∈ od_keys jobs →
       x ∈ ["ruff"; "lock"; "mypy"; "importlinter"; "pytest"; "coverage"] ∨
       x ∈ python_tests.test_names w.
Proof.
  unfold python_tests.selected_jobs, python_tests.jobs_before_coverage.
  intros (j3 & w3 & Hb & Hc)%bind_Ret_inv.
  apply bind_Ret_inv in Hb as (j1 & wa & [Hwa H1]%get_linters_keys & Hb).
  apply bind_Ret_inv in Hb as (j2 & wb & [Hwb H2]%get_static_tests_keys & Hb).
  apply get_tests_keys in Hb as [_ H3].
  pose proof (get_coverage_keys _ _ _ _ _ _ _ Hc) as H4.
  unfold python_tests.test_names in *. rewrite Hwb, Hwa in H3.
  intros x Hx. rewrite !elem_of_cons.
  apply H4 in Hx as [Hx|Hx]; [|tauto].
  apply H3 in Hx as [Hx|[Hx|Hx]]; [|tauto..].
  apply H2 in Hx as [Hx|Hx]; [|rewrite !elem_of_cons in Hx; tauto].
  apply H1 in Hx as [Hx|Hx]; [|rewrite !elem_of_cons in Hx; tauto].
  by apply elem_of_nil in Hx.
Qed.

(** With a list of required jobs nothing is prompted: the jobs marked
    required are those named in the list, all of them under [ALL]. *)
Lemma mark_required_given names r w :
  python_tests.mark_required names (Some r) w =
    Ret (List.filter (λ n, python_tests.in_or_ALL n (Some r)) names) w.
Proof.
  induction names as [|n l IH]; simpl; [done|].
  unfold bind at 1. unfold ret at 1. rewrite (bind_Ret _ _ _ _ _ IH).
  by destruct (python_tests.in_or_ALL n (Some r)).
Qed.

(** C1.  Once [scripts.python.tests] is imported, the generator called with
    [tests=["ruff"]], [required=["ruff"]], [coverage_fail_under=80] returns,
    without reading any input, a job graph whose keys are [ruff] and
    [python-tests-passed], in that order, and whose gate job has [needs]
    equal to [["ruff"]].  Whenever none of the selected jobs is marked
    required (by the prompts, or by the [required] list: a job is marked when
    the list names it or holds [ALL]), [get_jobs] returns the selected jobs as
    they are, with no [python-tests-passed] key, no registered test bearing
    that name. *)
Theorem gate_job_follows_required :
  (∀ (w0 w : world),
      tests.import w0 = Ret tt w →
      ∃ jobs gate_job,
        python_tests.get_jobs examples.scenario w = Ret jobs w ∧
        od_keys jobs = ["ruff"; "python-tests-passed"] ∧
        od_get "python-tests-passed" jobs = Some gate_job ∧
        python_tests.job_field "needs" gate_job = Some (VList [VStr "ruff"])) ∧
  (∀ (kw : python_tests.kwargs) (w w1 w2 : world) (jobs : odict),
      python_tests.selected_jobs kw w = Ret jobs w1 →
      python_tests.mark_required (od_keys jobs) (python_tests.required kw) w1
        = Ret [] w2 →
      "python-tests-passed" ∉ python_tests.test_names w →
      python_tests.get_jobs kw w = Ret jobs w2 ∧
      "python-tests-passed" ∉ od_keys jobs) ∧
  (∀ (names r : list string) (w : world),
      python_tests.mark_required names (Some r) w =
        Ret (List.filter (λ n, (str_in n r || str_in "ALL" r)%bool) names) w).
Proof.
  split; [|split].
  - intros w0 w Himp.
    destruct (scenario_jobs w) as [v Hv].
    { rewrite (import_registers_pytest _ _ Himp). by destruct (w_tests w0). }
    eexists. eexists. split; [exact Hv|]. by repeat split.
  - intros kw w w1 w2 jobs Hsel Hmark Hnames.
    split.
    + rewrite get_jobs_selected, (bind_Ret _ _ _ _ _ Hsel).
      unfold python_tests.get_tests_passed. by rewrite (bind_Ret _ _ _ _ _ Hmark).
    + intros [Hk|Hk]%(selected_jobs_keys _ _ _ _ Hsel); [|done].
      revert Hk. apply (bool_decide_unpack _). by vm_compute.
  - intros names r w. apply mark_required_given.
Qed.

Lemma gate_job_follows_required_witness :
  (∃ jobs,
     python_tests.get_jobs examples.scenario examples.w_imported
       = Ret jobs examples.w_imported ∧
     od_keys jobs = ["ruff"; "python-tests-passed"]) ∧
  python_tests.get_jobs examples.none_required examples.w_imported
    = Ret [("ruff", python_tests.ruff_job)] examples.w_imported.
Proof.
  split.
  - destruct (proj1 gate_job_follows_required
                examples.w_start examples.w_imported)
      as (jobs & gate_job & Hjobs & Hkeys & _); [reflexivity|].
    exists jobs. by split.
  - apply (proj1 (proj2 gate_job_follows_required)
             examples.none_required examples.w_imported examples.w_imported
             examples.w_imported [("ruff", python_tests.ruff_job)]);
      [reflexivity | reflexivity |].
    apply (bool_decide_unpack _). by vm_compute.
Defined.

(** In a fresh process the only registered test is [pytest]. *)
Lemma imported_test_names w0 w :
  w_tests w0 = [] → tests.import w0 = Ret tt w →
  python_tests.test_names w = ["pytest"].
Proof.
  intros H0 Himp. unfold python_tests.test_names.
  by rewrite (import_registers_pytest _ _ Himp), H0.
Qed.

(** The gate job names exactly the jobs marked required. *)
Lemma get_tests_passed_needs jobs required w all_required w' :
  python_tests.mark_required (od_keys jobs) required w = Ret all_required w' →
  all_required ≠ [] →
  python_tests.get_tests_passed jobs required w
    = Ret (od_set python_tests.gate
             (python_tests.tests_passed_job all_required) jobs) w' ∧
  python_tests.job_field "needs" (python_tests.tests_passed_job all_required)
    = Some (VList (map VStr all_required)).
Proof.
  intros Hm Hne. unfold python_tests.get_tests_passed.
  rewrite (bind_Ret _ _ _ _ _ Hm). by destruct all_required.
Qed.

(** The generator writes two documents and deletes one: after [create] and
    [delete] the workflow is gone and the build action, which has an
    identifier of its own, is still there. *)
Example python_test_create_then_delete :
  let created :=
    ci_base.Workflow_self_create examples.root examples.scenario_generator
      examples.scenario examples.w_imported in
  let deleted :=
    ci_base.Workflow_delete examples.root examples.scenario_generator
      (final_world created) in
  process_outcome created = ExitStatus 0 ∧
  process_outcome deleted = ExitStatus 0 ∧
  path_exists (w_fs (final_world deleted))
    (ci_base.workflow_path examples.root examples.scenario_generator) = false ∧
  path_exists (w_fs (final_world deleted)) examples.build_action_yml = true ∧
  ci_base.action_file examples.root python_tests.PythonBuildAction
    = examples.build_action_yml.
Proof. repeat split; by vm_compute. Qed.

(** ** The string representer (scripts/ci/_base.py) *)

Lemma contains_char_in c s : contains_char c s = true ↔ In c (list_ascii_of_string s).
Proof.
  induction s as [|a s IH]; simpl; [split; [done | tauto]|].
  destruct (Ascii.eqb_spec a c) as [->|Hne]; [tauto|].
  rewrite IH. split; [tauto | by intros [?|?]].
Qed.

(** What the representer asks of the emitter: the literal style [|] exactly
    for the strings that hold a line break, no style of its own otherwise;
    tag and text are those of the string either way. *)
Lemma multiline_str_representer_style (data : string) :
  (In "010"%char (list_ascii_of_string data) →
   ci_base.multiline_str_representer data = NScalar tag_str data (Some "|")) ∧
  (¬ In "010"%char (list_ascii_of_string data) →
   ci_base.multiline_str_representer data = NScalar tag_str data None).
Proof.
  unfold ci_base.multiline_str_representer. split; intros H.
  - apply contains_char_in in H. by rewrite H.
  - destruct (contains_char "010" data) eqn:Hc; [|done].
    by apply contains_char_in in Hc.
Qed.

Example build_action_run_is_literal :
  ci_base.represent
    (VStr (join nl ["pip install -r requirements.txt";
                    "poetry install --with=dev"]))
  = NScalar tag_str
      ("pip install -r requirements.txt" +:+ nl +:+ "poetry install --with=dev")
      (Some "|").
Proof. reflexivity. Qed.

(** * Further properties of the code *)

(** ** The two registers (scripts/base.py, scripts/python/tests.py) *)

Lemma init_subclass_keeps c w w' k :
  base.__init_subclass__ c w = Ret tt w' →
  is_Some (w_commands w !! k) → is_Some (w_commands w' !! k).
Proof.
  intros Hd Hk.
  destruct (decide (cls_name c = EmptyString)) as [He|Hne].
  - rewrite (init_subclass_nameless c w He) in Hd. by injection Hd as <-.
  - rewrite (init_subclass_named c w w' Hne Hd).
    destruct (decide (cls_name c = k)) as [<-|Hk'].
    + rewrite lookup_insert_eq. eauto.
    + by rewrite lookup_insert_ne.
Qed.

Lemma define_all_keeps cs w w' k :
  base.define_all cs w = Ret tt w' →
  is_Some (w_commands w !! k) → is_Some (w_commands w' !! k).
Proof.
  revert w. induction cs as [|c cs IH]; intros w Hd Hk.
  - by injection Hd as <-.
  - apply define_all_cons in Hd as (w1 & H1 & H2).
    eapply IH; [exact H2|]. by eapply init_subclass_keeps.
Qed.

Lemma define_all_registers cs w w' c :
  base.define_all cs w = Ret tt w' →
  c ∈ cs → cls_name c ≠ EmptyString →
  is_Some (w_commands w' !! cls_name c).
Proof.
  revert w. induction cs as [|c' cs IH]; intros w Hd Hin Hne.
  - by apply elem_of_nil in Hin.
  - apply define_all_cons in Hd as (w1 & H1 & H2).
    apply elem_of_cons in Hin as [->|Hin]; [|by eapply IH].
    eapply define_all_keeps; [exact H2|].
    rewrite (init_subclass_named _ _ _ Hne H1), lookup_insert_eq. eauto.
Qed.

Lemma getattr_lookup n w :
  discovery.__getattr__ n w =
    match w_commands w !! n with
    | Some i => Ret i w
    | None => Raise (KeyError n) w
    end.
Proof. unfold discovery.__getattr__, bind, get. by destruct (w_commands w !! n). Qed.

Lemma init_subclass_lookup_named c w w' k i :
  base.__init_subclass__ c w = Ret tt w' →
  w_commands w' !! k = Some i →
  w_commands w !! k = Some i ∨
  (i = Instance c ∧ k = cls_name c ∧ cls_name c ≠ EmptyString).
Proof.
  intros Hd Hk.
  destruct (decide (cls_name c = EmptyString)) as [He|Hne].
  - rewrite (init_subclass_nameless c w He) in Hd. injection Hd as <-. by left.
  - destruct (init_subclass_lookup _ _ _ _ _ Hd Hk) as [?|[-> ->]]; auto.
Qed.

Lemma define_all_lookup_named cs w w' k i :
  base.define_all cs w = Ret tt w' →
  w_commands w' !! k = Some i →
  w_commands w !! k = Some i ∨
  (∃ c, c ∈ cs ∧ i = Instance c ∧ k = cls_name c ∧ cls_name c ≠ EmptyString).
Proof.
  revert w. induction cs as [|c cs IH]; intros w Hd Hk.
  - injection Hd as <-. by left.
  - apply define_all_cons in Hd as (w1 & H1 & H2).
    destruct (IH _ H2 Hk) as [Hold | (c' & Hin & -> & -> & Hne)].
    + destruct (init_subclass_lookup_named _ _ _ _ _ H1 Hold) as [?|(-> & -> & ?)].
      * by left.
      * right. exists c. split; [apply list_elem_of_here | done].
    + right. exists c'. split; [by apply list_elem_of_further | done].
Qed.

(** X1.  Starting from an empty register, any sequence of class statements
    returns, whatever the classes leave abstract, and afterwards a name
    resolves exactly when it is the non-empty name of one of the classes:
    the instance it resolves to is an instance of such a class and bears
    that name, and any other name raises [KeyError] and changes nothing. *)
Theorem resolvable_names (cs : list cls) (w : world) :
  w_commands w = ∅ →
  ∃ w',
    base.define_all cs w = Ret tt w' ∧
    (∀ n i w'', discovery.__getattr__ n w' = Ret i w'' →
       w'' = w' ∧ n ≠ EmptyString ∧ inst_cls i ∈ cs
       ∧ cls_name (inst_cls i) = n) ∧
    (∀ c, c ∈ cs → cls_name c ≠ EmptyString →
       ∃ i, discovery.__getattr__ (cls_name c) w' = Ret i w') ∧
    (∀ n, (n = EmptyString ∨ ∀ c, c ∈ cs → cls_name c ≠ n) →
       discovery.__getattr__ n w' = Raise (KeyError n) w').
Proof.
  intros Hempty.
  destruct (define_all_returns cs w) as [w' Hdef].
  exists w'. split; [exact Hdef|].
  assert (∀ n i, w_commands w' !! n = Some i →
            ∃ c, c ∈ cs ∧ i = Instance c ∧ n = cls_name c
                 ∧ cls_name c ≠ EmptyString) as Hinv.
  { intros n i Hn.
    destruct (define_all_lookup_named _ _ _ _ _ Hdef Hn) as [Hold|?]; [|done].
    by rewrite Hempty, lookup_empty in Hold. }
  split; [|split].
  - intros n i w'' Hg. rewrite getattr_lookup in Hg.
    destruct (w_commands w' !! n) as [j|] eqn:Hn; [|done].
    injection Hg as -> ->.
    destruct (Hinv _ _ Hn) as (c & Hin & -> & -> & Hne). by repeat split.
  - intros c Hin Hne.
    destruct (define_all_registers _ _ _ _ Hdef Hin Hne) as [i Hi].
    exists i. by rewrite getattr_lookup, Hi.
  - intros n Hn. rewrite getattr_lookup.
    destruct (w_commands w' !! n) as [j|] eqn:Hj; [|done].
    destruct (Hinv _ _ Hj) as (c & Hin & -> & -> & Hne).
    destruct Hn as [Hn|Hn]; [done | by destruct (Hn c Hin)].
Qed.

Lemma resolvable_names_witness :
  ∃ w',
    base.define_all [tests.MyPy; examples.unfinished] examples.w_start
      = Ret tt w' ∧
    (∃ i, discovery.__getattr__ "unfinished" w' = Ret i w') ∧
    discovery.__getattr__ "ruff" w' = Raise (KeyError "ruff") w'.
Proof.
  destruct (resolvable_names [tests.MyPy; examples.unfinished]
              examples.w_start eq_refl) as (w' & Hdef & _ & Hyes & Hno).
  exists w'. split; [exact Hdef|]. split.
  - apply (Hyes examples.unfinished); [|discriminate].
    apply list_elem_of_further, list_elem_of_here.
  - apply Hno. right. intros c Hc.
    rewrite !elem_of_cons in Hc.
    destruct Hc as [->|[->|Hc]]; try discriminate.
    by apply elem_of_nil in Hc.
Defined.

Lemma init_subclass_tests c w w' :
  base.__init_subclass__ c w = Ret tt w' →
  w_tests w' =
    w_tests w ++ (if objects.registers_test c then [Instance c] else []).
Proof.
  unfold base.__init_subclass__, objects.registers_test.
  destruct (String.eqb (cls_name c) EmptyString); simpl.
  - intros [= <-]. by rewrite app_nil_r.
  - unfold objects.construct, objects.Pytest__init__.
    unfold_monad; simpl.
    destruct (cls_is_pytest c), (cls_bypass c);
      simpl; intros H; injection H as <-; simpl;
      by rewrite ?app_nil_r.
Qed.

(** X2.  Class statements only ever add to the test registry, at its end
    and in the order of the statements: any sequence of class statements
    returns, whatever the classes leave abstract, and the registry is then
    what it was followed by one instance of each class that has a name, is
    constructed by [Pytest.__init__] and does not set [bypass]. *)
Theorem test_registry_grows (cs : list cls) (w : world) :
  ∃ w',
    base.define_all cs w = Ret tt w' ∧
    w_tests w' =
      w_tests w ++ map Instance (List.filter objects.registers_test cs).
Proof.
  revert w. induction cs as [|c cs IH]; intros w.
  - exists w. split; [done|]. simpl. by rewrite app_nil_r.
  - destruct (init_subclass_returns c w) as [w1 H1].
    destruct (IH w1) as (w' & H2 & Ht).
    exists w'. split; [simpl; by rewrite (bind_Ret _ _ _ _ _ H1)|].
    rewrite Ht, (init_subclass_tests _ _ _ H1). simpl.
    destruct (objects.registers_test c); simpl.
    + by rewrite <- app_assoc.
    + by rewrite app_nil_r.
Qed.

Lemma test_registry_grows_witness :
  ∃ w',
    base.define_all (tests.module_body ++ [examples.abstract_suite])
      examples.w_start = Ret tt w' ∧
    w_tests w' = [Instance tests.Pytest; Instance examples.abstract_suite].
Proof.
  destruct (test_registry_grows (tests.module_body ++ [examples.abstract_suite])
              examples.w_start) as (w' & Hdef & Ht).
  exists w'. split; [exact Hdef | exact Ht].
Defined.

(** ** Around [handle] (scripts/base.py, scripts/python/tests.py) *)

Lemma os_chdir_dir d w :
  is_dir (w_fs w) d = true → os_chdir d w = Ret tt (with_cwd d w).
Proof.
  unfold is_dir, os_chdir. by destruct (stat (w_fs w) d) as [[]|].
Qed.

Lemma prefix_of_parent (q p : path) :
  q `prefix_of` p → q ≠ p → q `prefix_of` parent p.
Proof.
  intros [k ->] Hne. destruct k as [|x k]; [by rewrite app_nil_r in Hne|].
  unfold parent. rewrite removelast_app by done. by apply prefix_app_r.
Qed.

Lemma parent_prefix_of (p : path) : parent p `prefix_of` p.
Proof.
  destruct p as [|x p] using rev_ind; [done|].
  unfold parent. rewrite removelast_last. by apply prefix_app_r.
Qed.











(** ** Running the registered tests (scripts/python/tests.py) *)

Section sessions.
Variable pytest_main : list string → M Z.
Variable get_defaults : instance → list string.
Hypothesis sessions_end : ∀ a w, ∃ z w', pytest_main a w = Ret z w'.




End sessions.






(** ** Writing documents (scripts/ci/_base.py) *)

Lemma parent_rev a r : parent (rev (a :: r)) = rev r.
Proof. simpl. apply removelast_last. Qed.

Lemma parent_app l x : parent (l ++ [x]) = l.
Proof. apply removelast_last. Qed.

Lemma not_prefix_of_parent p : p ≠ [] → ¬ p `prefix_of` parent p.
Proof.
  intros Hp Hpre. apply prefix_length in Hpre.
  rewrite (app_removelast_last EmptyString Hp) in Hpre at 1.
  rewrite length_app in Hpre. simpl in Hpre. unfold parent in Hpre. lia.
Qed.

Lemma adds_dirs_refl fs p : fsys.adds_dirs fs p fs.
Proof. intros q. by left. Qed.

Lemma adds_dirs_trans fs fs1 fs2 p1 p2 :
  fsys.adds_dirs fs p1 fs1 → fsys.adds_dirs fs1 p2 fs2 → p1 `prefix_of` p2 →
  fsys.adds_dirs fs p2 fs2.
Proof.
  intros H1 H2 Hp q.
  destruct (H2 q) as [E2|(N2 & D2 & P2)], (H1 q) as [E1|(N1 & D1 & P1)].
  - left. congruence.
  - right. repeat split; [done | congruence | by etrans].
  - right. repeat split; [congruence | done..].
  - congruence.
Qed.

Lemma adds_dirs_insert fs p :
  stat fs p = None → fsys.adds_dirs fs p (<[p := FDir]> fs).
Proof.
  intros Hs q. destruct (decide (q = p)) as [->|Hq].
  - right. repeat split; [done| |done].
    apply stat_insert_eq. by intros ->.
  - left. by apply stat_insert_ne.
Qed.

Lemma clear_rev_here fs rp c :
  fsys.clear_rev fs rp = true → stat fs (rev rp) ≠ Some (FFile c).
Proof.
  intros H Hs. destruct rp; simpl in H, Hs; [done | by rewrite Hs in H].
Qed.

Lemma clear_rev_above fs a r :
  fsys.clear_rev fs (a :: r) = true → fsys.clear_rev fs r = true.
Proof.
  simpl. by destruct (stat fs (rev r ++ [a])) as [[]|].
Qed.

Lemma clear_rev_prefix fs rp q c :
  fsys.clear_rev fs rp = true → q `prefix_of` rev rp →
  stat fs q ≠ Some (FFile c).
Proof.
  revert q. induction rp as [|a r IH]; intros q Hclear Hq.
  - apply prefix_nil_inv in Hq as ->. done.
  - destruct (decide (q = rev (a :: r))) as [->|Hne].
    + by apply clear_rev_here.
    + apply IH; [by apply clear_rev_above in Hclear|].
      rewrite <- (parent_rev a r). by apply prefix_of_parent.
Qed.

Lemma no_entry_clear_rev fs rp :
  fsys.clear_rev fs rp = true → no_entry fs (rev rp) = FileNotFoundError.
Proof.
  intros Hclear. apply no_entry_clear. intros q c Hq.
  apply (clear_rev_prefix _ rp); [done|].
  etrans; [exact Hq | apply parent_prefix_of].
Qed.

(** [Path.mkdir(parents=True, exist_ok=True)] succeeds when no regular file
    is in the way, and then only adds directories. *)
Lemma Path_mkdir_rev_clear rp fs :
  fsys.clear_rev fs rp = true →
  ∃ fs', Path_mkdir_rev rp fs = inr fs' ∧ is_dir fs' (rev rp) = true ∧
         fsys.adds_dirs fs (rev rp) fs'.
Proof.
  induction rp as [|a r IH]; intros Hclear.
  - exists fs. repeat split. apply adds_dirs_refl.
  - rewrite Path_mkdir_rev_unfold. unfold os_mkdir.
    destruct (stat fs (rev (a :: r))) as [[c|]|] eqn:Hs.
    + by destruct (clear_rev_here _ _ c Hclear).
    + exists fs. unfold is_dir. rewrite Hs. repeat split. apply adds_dirs_refl.
    + apply clear_rev_above in Hclear.
      unfold check_parent. rewrite parent_rev.
      destruct (stat fs (rev r)) as [[c|]|] eqn:Hp.
      * by destruct (clear_rev_here _ _ c Hclear).
      * exists (<[rev (a :: r) := FDir]> fs). split; [done|]. split.
        -- unfold is_dir. rewrite stat_insert_eq; [done|]. by intros E; rewrite E in Hs.
        -- by apply adds_dirs_insert.
      * rewrite (no_entry_clear_rev _ _ Hclear).
        destruct (IH Hclear) as (fs1 & Hm & Hd & Ha). rewrite Hm.
        assert (rev r `prefix_of` rev (a :: r)) as Hpre.
        { simpl. by apply prefix_app_r. }
        unfold Path_mkdir_leaf, os_mkdir.
        destruct (Ha (rev (a :: r))) as [E|(_ & D & _)].
        -- rewrite E, Hs. unfold check_parent. rewrite parent_rev.
           unfold is_dir in Hd.
           destruct (stat fs1 (rev r)) as [[]|] eqn:Hp1; try done.
           exists (<[rev (a :: r) := FDir]> fs1). split; [done|]. split.
           ++ unfold is_dir. rewrite stat_insert_eq; [done|].
              by intros E'; rewrite E' in Hs.
           ++ eapply adds_dirs_trans; [exact Ha| |exact Hpre].
              apply adds_dirs_insert. by rewrite E.
        -- rewrite D. unfold is_dir. rewrite D.
           exists fs1. split; [done|]. split; [by rewrite D|].
           eapply adds_dirs_trans; [exact Ha|apply adds_dirs_refl|exact Hpre].
Qed.

(** The directory made, the file opens. *)
Lemma open_after_mkdir file fs :
  fsys.clear_above fs (parent file) = true →
  is_dir fs file = false →
  ∃ fs1, Path_mkdir (parent file) fs = inr fs1 ∧
         fsys.adds_dirs fs (parent file) fs1 ∧
         open_w file fs1 = inr (<[file := FFile None]> fs1).
Proof.
  intros Hclear Hfile.
  destruct (Path_mkdir_rev_clear _ _ Hclear) as (fs1 & Hm & Hd & Ha).
  rewrite rev_involutive in Hd, Ha.
  exists fs1. split; [exact Hm|]. split; [exact Ha|].
  assert (file ≠ []) as Hne by (by intros ->).
  unfold open_w, check_parent. unfold is_dir in Hd.
  destruct (stat fs1 (parent file)) as [[]|]; try done.
  destruct (Ha file) as [E|(_ & _ & Hpre)].
  - rewrite E. unfold is_dir in Hfile.
    by destruct (stat fs file) as [[]|].
  - by destruct (not_prefix_of_parent _ Hne).
Qed.

Lemma action_file_parent root {K} (self : ci_base.Action K) :
  ci_base.action_file root self = ci_base.action_path root self ++ ["action.yml"].
Proof. reflexivity. Qed.

(** X9.  [create] returns whenever no regular file sits where a directory
    is needed, no directory sits at the path of the document, and the hooks
    return: the directories above the document are made, nothing that
    existed is changed by that, and the file then holds the dump of the
    document the hooks built, for a workflow and for an action alike. *)
Theorem create_writes_the_document (PROJECT_ROOT : path) :
  (∀ (K : Type) (self : ci_base.Workflow K) (kw : K) (w : world),
      fsys.clear_above (w_fs w)
        (parent (ci_base.workflow_path PROJECT_ROOT self)) = true →
      is_dir (w_fs w) (ci_base.workflow_path PROJECT_ROOT self) = false →
      ∃ fs1,
        fsys.adds_dirs (w_fs w)
          (parent (ci_base.workflow_path PROJECT_ROOT self)) fs1 ∧
        ∀ doc w3,
          ci_base.get_workflow_definition self kw
            (with_fs (<[ci_base.workflow_path PROJECT_ROOT self := FFile None]> fs1) w)
            = Ret doc w3 →
          ci_base.Workflow_create PROJECT_ROOT self kw w =
            Ret tt (with_fs
                      (<[ci_base.workflow_path PROJECT_ROOT self :=
                           FFile (Some (ci_base.represent (VODict doc)))]>
                         (w_fs w3)) w3)) ∧
  (∀ (K : Type) (self : ci_base.Action K) (kw : K) (w : world),
      fsys.clear_above (w_fs w) (ci_base.action_path PROJECT_ROOT self) = true →
      is_dir (w_fs w) (ci_base.action_file PROJECT_ROOT self) = false →
      ∃ fs1,
        fsys.adds_dirs (w_fs w) (ci_base.action_path PROJECT_ROOT self) fs1 ∧
        ∀ doc w3,
          ci_base.get_action_definition self kw
            (with_fs (<[ci_base.action_file PROJECT_ROOT self := FFile None]> fs1) w)
            = Ret doc w3 →
          ci_base.Action_create PROJECT_ROOT self kw w =
            Ret tt (with_fs
                      (<[ci_base.action_file PROJECT_ROOT self :=
                           FFile (Some (ci_base.represent doc))]>
                         (w_fs w3)) w3)).
Proof.
  split.
  - intros K self kw w Hclear Hfile.
    destruct (open_after_mkdir _ _ Hclear Hfile) as (fs1 & Hm & Ha & Ho).
    exists fs1. split; [exact Ha|]. intros doc w3 Hdoc.
    unfold ci_base.Workflow_create.
    rewrite (bind_Ret _ _ w tt (with_fs fs1 w)); [|by unfold fs_call; rewrite Hm].
    rewrite (bind_Ret _ _ _ tt
               (with_fs (<[ci_base.workflow_path PROJECT_ROOT self := FFile None]> fs1) w));
      [|by unfold fs_call; simpl; rewrite Ho].
    by rewrite (bind_Ret _ _ _ _ _ Hdoc).
  - intros K self kw w Hclear Hfile.
    assert (parent (ci_base.action_file PROJECT_ROOT self)
            = ci_base.action_path PROJECT_ROOT self) as Hpar.
    { rewrite action_file_parent. apply parent_app. }
    rewrite <- Hpar in Hclear.
    destruct (open_after_mkdir _ _ Hclear Hfile) as (fs1 & Hm & Ha & Ho).
    rewrite Hpar in Hm, Ha.
    exists fs1. split; [exact Ha|]. intros doc w3 Hdoc.
    unfold ci_base.Action_create.
    rewrite (bind_Ret _ _ w tt (with_fs fs1 w)); [|by unfold fs_call; rewrite Hm].
    rewrite (bind_Ret _ _ _ tt
               (with_fs (<[ci_base.action_file PROJECT_ROOT self := FFile None]> fs1) w));
      [|by unfold fs_call; simpl; rewrite Ho].
    by rewrite (bind_Ret _ _ _ _ _ Hdoc).
Qed.

Lemma create_writes_the_document_witness :
  ∃ w',
    ci_base.Workflow_create examples.root examples.bare_workflow tt
      examples.w_start = Ret tt w'.
Proof.
  destruct (proj1 (create_writes_the_document examples.root)
              unit examples.bare_workflow tt examples.w_start
              eq_refl eq_refl) as (fs1 & _ & Hcreate).
  eexists. apply Hcreate. reflexivity.
Defined.

Lemma with_fs_same w : with_fs (w_fs w) w = w.
Proof. by destruct w. Qed.

(** X10.  [delete] changes at most the path of the document: when it
    returns, every other path holds what it held, nothing is left at the
    path of the document and nothing but the file system has changed.  A
    directory at the path of the document makes the [delete] of a workflow
    and of an action raise [IsADirectoryError]: the workflow one is only
    silent when nothing is there. *)
Theorem delete_touches_one_path (PROJECT_ROOT : path) :
  (∀ (K : Type) (self : ci_base.Workflow K) (w w' : world),
      ci_base.Workflow_delete PROJECT_ROOT self w = Ret tt w' →
      ∃ fs', w' = with_fs fs' w ∧
             path_exists fs' (ci_base.workflow_path PROJECT_ROOT self) = false ∧
             ∀ q, q ≠ ci_base.workflow_path PROJECT_ROOT self →
                  stat fs' q = stat (w_fs w) q) ∧
  (∀ (K : Type) (self : ci_base.Action K) (w w' : world),
      ci_base.Action_delete PROJECT_ROOT self w = Ret tt w' →
      ∃ fs', w' = with_fs fs' w ∧
             path_exists fs' (ci_base.action_file PROJECT_ROOT self) = false ∧
             ∀ q, q ≠ ci_base.action_file PROJECT_ROOT self →
                  stat fs' q = stat (w_fs w) q) ∧
  (∀ (K : Type) (self : ci_base.Workflow K) (w : world),
      is_dir (w_fs w) (ci_base.workflow_path PROJECT_ROOT self) = true →
      ci_base.Workflow_delete PROJECT_ROOT self w = Raise IsADirectoryError w) ∧
  (∀ (K : Type) (self : ci_base.Action K) (w : world),
      is_dir (w_fs w) (ci_base.action_file PROJECT_ROOT self) = true →
      ci_base.Action_delete PROJECT_ROOT self w = Raise IsADirectoryError w).
Proof.
  assert (∀ p w w', fs_call (os_remove p) w = Ret tt w' →
            ∃ fs', w' = with_fs fs' w ∧ path_exists fs' p = false ∧
                   ∀ q, q ≠ p → stat fs' q = stat (w_fs w) q) as Hremove.
  { intros p w w' H. unfold fs_call, os_remove in H.
    destruct (stat (w_fs w) p) as [[c|]|] eqn:Hs; try discriminate.
    injection H as <-. exists (delete p (w_fs w)). split; [done|].
    assert (p ≠ []) as Hp by (by intros ->).
    split; [|intros q Hq; by apply stat_delete_ne].
    unfold path_exists. by rewrite stat_delete_eq. }
  split; [|split; [|split]].
  - intros K self w w'. unfold ci_base.Workflow_delete, bind, get.
    destruct (path_exists (w_fs w) (ci_base.workflow_path PROJECT_ROOT self))
      eqn:Hex; [apply Hremove|].
    intros [= <-]. exists (w_fs w). by rewrite with_fs_same.
  - intros K self w w'. apply Hremove.
  - intros K self w Hd. unfold ci_base.Workflow_delete, bind, get.
    unfold is_dir in Hd. unfold path_exists.
    destruct (stat (w_fs w) (ci_base.workflow_path PROJECT_ROOT self))
      as [[]|] eqn:Hs; try done.
    unfold fs_call, os_remove. by rewrite Hs.
  - intros K self w Hd. unfold ci_base.Action_delete.
    unfold is_dir in Hd. unfold fs_call, os_remove.
    by destruct (stat (w_fs w) (ci_base.action_file PROJECT_ROOT self)) as [[]|].
Qed.

Lemma delete_touches_one_path_witness :
  ci_base.Workflow_delete examples.root examples.scenario_generator
    examples.w_blocked = Raise IsADirectoryError examples.w_blocked ∧
  ∃ fs', final_world
           (ci_base.Workflow_delete examples.root examples.scenario_generator
              examples.w_written) = with_fs fs' examples.w_written.
Proof.
  split.
  - apply (proj1 (proj2 (proj2 (delete_touches_one_path examples.root)))).
    reflexivity.
  - destruct (proj1 (delete_touches_one_path examples.root)
                python_tests.kwargs examples.scenario_generator
                examples.w_written
                (final_world
                   (ci_base.Workflow_delete examples.root
                      examples.scenario_generator examples.w_written)))
      as (fs' & Hw & _); [reflexivity|].
    by exists fs'.
Defined.

Lemma split_on_absent c s : contains_char c s = false → ci_base.split_on c s = [s].
Proof.
  induction s as [|a s IH]; simpl; [done|].
  destruct (Ascii.eqb a c); [done|]. intros H. by rewrite (IH H).
Qed.

Lemma joinpath_component base s :
  fsys.component s = true → ci_base.joinpath base s = base ++ [s].
Proof.
  unfold fsys.component. rewrite !andb_true_iff, !negb_true_iff.
  intros [[Hslash Hne] Hdot].
  apply String.eqb_neq in Hne, Hdot.
  unfold ci_base.joinpath. rewrite (split_on_absent _ _ Hslash).
  rewrite filter_cons_True by done. rewrite filter_nil.
  destruct s as [|a s]; [done|].
  assert (a ≠ "/"%char) as Hne'.
  { intros ->. simpl in Hslash. discriminate Hslash. }
  unfold startswith.
  change (String.prefix "/" (String a s))
    with (if ascii_dec "/" a then String.prefix EmptyString s else false).
  by destruct (ascii_dec "/" a) as [E|_]; [destruct Hne'|].
Qed.

Lemma contains_char_append c s t :
  contains_char c (s +:+ t) = (contains_char c s || contains_char c t)%bool.
Proof.
  induction s as [|a s IH]; simpl; [done|]. by destruct (Ascii.eqb a c).
Qed.

Lemma string_length_append s t :
  String.length (s +:+ t) = (String.length s + String.length t)%nat.
Proof. induction s as [|a s IH]; simpl; [done|]. by rewrite IH. Qed.

Lemma append_inv_r s1 s2 t : s1 +:+ t = s2 +:+ t → s1 = s2.
Proof.
  revert s2. induction s1 as [|a s1 IH]; intros [|b s2] H; simpl in H.
  - done.
  - apply (f_equal String.length) in H.
    rewrite !string_length_append in H. simpl in H. lia.
  - apply (f_equal String.length) in H.
    rewrite !string_length_append in H. simpl in H. lia.
  - injection H as -> H. by rewrite (IH _ H).
Qed.

Lemma yml_component s :
  contains_char "/" s = false → fsys.component (s +:+ ".yml") = true.
Proof.
  intros H. unfold fsys.component.
  rewrite contains_char_append, H. simpl.
  rewrite !andb_true_iff, !negb_true_iff. split.
  - apply String.eqb_neq. intros E.
    apply (f_equal String.length) in E. rewrite string_length_append in E.
    simpl in E. lia.
  - apply String.eqb_neq. intros E.
    apply (f_equal String.length) in E. rewrite string_length_append in E.
    simpl in E. lia.
Qed.

(** X11.  For identifiers that are one path component (no [/]; for an
    action, also not empty and not [.]), the document of a workflow is
    [<id>.yml] directly in the workflows directory and that of an action is
    [action.yml] in the directory [<id>] of the actions directory.  So two
    workflows, or two actions, with different identifiers never write the
    same file, and a workflow never writes the file of an action. *)
Theorem documents_do_not_collide (PROJECT_ROOT : path) :
  ∀ (K1 K2 K3 K4 : Type) (f1 : ci_base.Workflow K1) (f2 : ci_base.Workflow K2)
    (a1 : ci_base.Action K3) (a2 : ci_base.Action K4),
    contains_char "/" (ci_base.workflow_id f1) = false →
    contains_char "/" (ci_base.workflow_id f2) = false →
    fsys.component (ci_base.action_id a1) = true →
    fsys.component (ci_base.action_id a2) = true →
    ci_base.workflow_path PROJECT_ROOT f1 =
      parent PROJECT_ROOT ++ [".github"; "workflows";
                              ci_base.workflow_id f1 +:+ ".yml"] ∧
    ci_base.action_file PROJECT_ROOT a1 =
      parent PROJECT_ROOT ++ [".github"; "actions"; ci_base.action_id a1;
                              "action.yml"] ∧
    (ci_base.workflow_path PROJECT_ROOT f1 = ci_base.workflow_path PROJECT_ROOT f2 →
     ci_base.workflow_id f1 = ci_base.workflow_id f2) ∧
    (ci_base.action_file PROJECT_ROOT a1 = ci_base.action_file PROJECT_ROOT a2 →
     ci_base.action_id a1 = ci_base.action_id a2) ∧
    ci_base.workflow_path PROJECT_ROOT f1 ≠ ci_base.action_file PROJECT_ROOT a2.
Proof.
  intros K1 K2 K3 K4 f1 f2 a1 a2 H1 H2 Ha1 Ha2.
  assert (∀ K (f : ci_base.Workflow K),
            contains_char "/" (ci_base.workflow_id f) = false →
            ci_base.workflow_path PROJECT_ROOT f =
              parent PROJECT_ROOT ++ [".github"; "workflows";
                                      ci_base.workflow_id f +:+ ".yml"]) as Hw.
  { intros K f Hf. unfold ci_base.workflow_path, ci_base.BASE_WORKFLOW_DIR.
    rewrite (joinpath_component _ _ (yml_component _ Hf)).
    by rewrite <- app_assoc. }
  assert (∀ K (a : ci_base.Action K),
            fsys.component (ci_base.action_id a) = true →
            ci_base.action_file PROJECT_ROOT a =
              parent PROJECT_ROOT ++ [".github"; "actions"; ci_base.action_id a;
                                      "action.yml"]) as Ha.
  { intros K a Hc. rewrite action_file_parent.
    unfold ci_base.action_path, ci_base.BASE_ACTION_DIR.
    rewrite (joinpath_component _ _ Hc). by rewrite <- !app_assoc. }
  split; [by apply Hw|]. split; [by apply Ha|].
  rewrite !Hw, !Ha by done. repeat split.
  - intros E%app_inv_head. injection E as E. by apply append_inv_r in E.
  - intros E%app_inv_head. by injection E.
  - intros E%app_inv_head. discriminate E.
Qed.

Lemma documents_do_not_collide_witness :
  ci_base.workflow_path examples.root examples.scenario_generator
    ≠ ci_base.action_file examples.root python_tests.PythonBuildAction.
Proof.
  apply (documents_do_not_collide examples.root _ _ _ _
           examples.scenario_generator examples.bare_workflow
           python_tests.PythonBuildAction python_tests.PythonBuildAction
           eq_refl eq_refl eq_refl eq_refl).
Defined.

(** ** The order of keys (scripts/ci/_base.py) *)

(** X12.  Whatever the hooks are, a workflow document that is built has its
    keys in the order [name], [run-name], [permissions] (present exactly
    when the permission hook returns something truthy), [on], [jobs], with
    the values the hooks returned, the hooks being called in the order
    permissions, triggers, jobs; the mapping node that is dumped lists the
    keys in that same order, and so does the node of an [OrderedDict] of
    jobs. *)
Theorem workflow_keys_in_order :
  ∀ (K : Type) (self : ci_base.Workflow K) (kw : K) (w w' : world) (doc : odict),
    ci_base.get_workflow_definition self kw w = Ret doc w' →
    ∃ p t jobs w1 w2,
      ci_base.get_permissions self w = Ret p w1 ∧
      ci_base.get_triggers self kw w1 = Ret t w2 ∧
      ci_base.get_jobs self kw w2 = Ret jobs w' ∧
      doc = [("name", VStr (ci_base.workflow_name self));
             ("run-name", VStr (ci_base.workflow_id self))]
            ++ (if ci_base.truthy p then [("permissions", p)] else [])
            ++ [("on", t); ("jobs", jobs)] ∧
      ci_base.node_keys (ci_base.represent (VODict doc)) =
        ["name"; "run-name"]
        ++ (if ci_base.truthy p then ["permissions"] else [])
        ++ ["on"; "jobs"] ∧
      ∀ js, jobs = VODict js →
            ci_base.node_keys (ci_base.represent jobs) = od_keys js.
Proof.
  intros K self kw w w' doc H. unfold ci_base.get_workflow_definition in H.
  apply bind_Ret_inv in H as (p & w1 & Hp & H).
  apply bind_Ret_inv in H as (t & w2 & Ht & H).
  apply bind_Ret_inv in H as (jobs & w3 & Hj & H).
  injection H as <- <-.
  exists p, t, jobs, w1, w2. repeat split; try done.
  - by destruct (ci_base.truthy p).
  - rewrite node_keys_odict. by destruct (ci_base.truthy p).
  - intros js ->. apply node_keys_odict.
Qed.

Lemma workflow_keys_in_order_witness :
  ∃ doc,
    ci_base.get_workflow_definition examples.bot examples.dependabot_only
      examples.w_start = Ret doc examples.w_start ∧
    ci_base.node_keys (ci_base.represent (VODict doc))
      = ["name"; "run-name"; "permissions"; "on"; "jobs"].
Proof.
  eexists. split; [reflexivity|].
  destruct (workflow_keys_in_order _ examples.bot examples.dependabot_only
              examples.w_start examples.w_start _ eq_refl)
    as (p & t & jobs & w1 & w2 & Hp & _ & _ & _ & Hkeys & _).
  injection Hp as <- <-. exact Hkeys.
Defined.

Lemma node_keys_key_nodes tag l :
  ci_base.node_keys (NMap tag (ci_base.key_nodes l)) = map fst l.
Proof.
  simpl. unfold ci_base.key_nodes.
  induction l as [|[k n] l IH]; simpl; [done|].
  rewrite <- IH. unfold ci_base.multiline_str_representer.
  by destruct (contains_char _ k).
Qed.

Lemma insert_by_key_perm kv l :
  map fst (ci_base.insert_by_key kv l) ≡ₚ fst kv :: map fst l.
Proof.
  induction l as [|h t IH]; simpl; [done|].
  destruct (String.leb (fst kv) (fst h)); simpl; [done|].
  rewrite IH. apply Permutation_swap.
Qed.

Lemma insert_by_key_head kv l x :
  String.leb x (fst kv) = true →
  HdRel (λ a b, String.leb a b = true) x (map fst l) →
  HdRel (λ a b, String.leb a b = true) x (map fst (ci_base.insert_by_key kv l)).
Proof.
  intros Hx Hl. destruct l as [|h t]; simpl.
  - by constructor.
  - destruct (String.leb (fst kv) (fst h)); simpl; constructor; [done|].
    by inversion Hl.
Qed.

Lemma insert_by_key_sorted kv l :
  Sorted (λ a b, String.leb a b = true) (map fst l) →
  Sorted (λ a b, String.leb a b = true) (map fst (ci_base.insert_by_key kv l)).
Proof.
  induction l as [|h t IH]; simpl; intros Hs.
  - by repeat constructor.
  - destruct (String.leb (fst kv) (fst h)) eqn:Hle; simpl.
    + constructor; [done|]. by constructor.
    + inversion Hs as [|? ? Ht Hh]; subst. constructor; [by apply IH|].
      apply insert_by_key_head; [|done].
      by destruct (String.leb_total (fst kv) (fst h)) as [E|E]; [congruence|].
Qed.

(** X13.  A plain [dict], such as a job definition or a step, is dumped with
    its keys sorted, whatever order the code wrote them in: the keys of its
    mapping node are those of the dictionary, rearranged in ascending
    order. *)
Theorem dict_keys_are_sorted (d : list (string * value)) :
  ci_base.node_keys (ci_base.represent (VDict d)) ≡ₚ od_keys d ∧
  Sorted (λ a b, String.leb a b = true)
         (ci_base.node_keys (ci_base.represent (VDict d))).
Proof.
  change (ci_base.represent (VDict d))
    with (NMap tag_map (ci_base.key_nodes (ci_base.sort_items
            (map (λ kv, match kv with (k, x) => (k, ci_base.represent x) end) d)))).
  rewrite node_keys_key_nodes. unfold ci_base.sort_items, od_keys.
  induction d as [|[k v] d [IHp IHs]]; simpl.
  - split; [done | constructor].
  - split.
    + rewrite insert_by_key_perm. simpl. by rewrite IHp.
    + by apply insert_by_key_sorted.
Qed.

(** ** The job graph of the test workflow (scripts/ci/python_tests.py) *)

Lemma keys_put_iff (b : bool) k v d x :
  x ∈ od_keys (if b then od_set k v d else d) ↔ x ∈ od_keys d ∨ (x = k ∧ b = true).
Proof.
  destruct b; [rewrite od_keys_od_set|]; intuition congruence.
Qed.

Lemma od_keys_od_set_new k v d :
  k ∉ od_keys d → od_keys (od_set k v d) = od_keys d ++ [k].
Proof.
  unfold od_keys. induction d as [|[k' v'] d IH]; simpl; intros Hk; [done|].
  apply not_elem_of_cons in Hk as [Hne Hk].
  destruct (String.eqb_spec k' k) as [->|_]; [done|].
  simpl. by rewrite IH.
Qed.

Lemma keys_put_new (b : bool) k v d :
  k ∉ od_keys d →
  od_keys (if b then od_set k v d else d) = od_keys d ++ (if b then [k] else []).
Proof.
  intros Hk. destruct b; [by apply od_keys_od_set_new | by rewrite app_nil_r].
Qed.

Lemma get_linters_list jobs t w :
  python_tests.not_ t = false →
  python_tests.get_linters jobs t w =
    Ret (let jobs := if python_tests.in_or_ALL "ruff" t
                     then od_set "ruff" python_tests.ruff_job jobs else jobs in
         if python_tests.in_or_ALL "lock" t
         then od_set "lock" python_tests.lock_job jobs else jobs) w.
Proof.
  intros H. unfold python_tests.get_linters, bind, ret.
  rewrite wanted_given by done. cbv beta iota.
  by rewrite wanted_given by done.
Qed.

Lemma get_static_tests_list jobs t w :
  python_tests.not_ t = false →
  python_tests.get_static_tests jobs t w =
    Ret (let jobs := if python_tests.in_or_ALL "mypy" t
                     then od_set "mypy" python_tests.mypy_job jobs else jobs in
         if python_tests.in_or_ALL "importlinter" t
         then od_set "importlinter" python_tests.importlinter_job jobs
         else jobs) w.
Proof.
  intros H. unfold python_tests.get_static_tests, bind, ret.
  rewrite wanted_given by done. cbv beta iota.
  by rewrite wanted_given by done.
Qed.

Lemma get_coverage_list jobs t fail_under regressed w :
  python_tests.not_ t = false →
  python_tests.get_coverage jobs t fail_under regressed w =
    if python_tests.in_or_ALL "coverage" t then
      if python_tests.truthy_flag regressed then Raise NotImplementedError w
      else Ret (od_set "coverage"
                  (python_tests.coverage_job
                     (if python_tests.truthy_int fail_under
                      then "--fail-under=" +:+ pretty (default 0 fail_under)
                      else EmptyString)) jobs) w
    else Ret jobs w.
Proof.
  intros H. unfold python_tests.get_coverage.
  rewrite (bind_Ret _ _ _ _ _ (wanted_given _ _ _ w H)).
  destruct (python_tests.in_or_ALL "coverage" t); [|done].
  by destruct (python_tests.truthy_flag regressed).
Qed.

Lemma get_tests_loop_list l jobs t w :
  python_tests.not_ t = false →
  ∃ jobs',
    python_tests.get_tests_loop l jobs t w = Ret jobs' w ∧
    (∀ x, x ∈ od_keys jobs' ↔
          x ∈ od_keys jobs ∨
          (x ∈ map (λ t, cls_name (inst_cls t)) l ∧
           python_tests.in_or_ALL x t = true)) ∧
    (NoDup (map (λ t, cls_name (inst_cls t)) l) →
     (∀ n, n ∈ map (λ t, cls_name (inst_cls t)) l → n ∉ od_keys jobs) →
     od_keys jobs' =
       od_keys jobs ++ List.filter (λ n, python_tests.in_or_ALL n t)
                         (map (λ t, cls_name (inst_cls t)) l)).
Proof.
  intros H. revert jobs. induction l as [|c l IH]; intros jobs.
  - exists jobs. split; [done|]. split.
    + intros x. simpl. rewrite elem_of_nil. tauto.
    + intros _ _. simpl. by rewrite app_nil_r.
  - simpl. rewrite (bind_Ret _ _ _ _ _ (wanted_given _ _ _ w H)).
    set (n := cls_name (inst_cls c)).
    destruct (IH (if python_tests.in_or_ALL n t
                  then od_set n (python_tests.suite_job n) jobs else jobs))
      as (jobs' & He & Hiff & Hord).
    exists jobs'. split; [done|]. split.
    + intros x. rewrite Hiff, keys_put_iff, elem_of_cons.
      split.
      * intros [[?|[-> ?]]|[? ?]]; tauto.
      * intros [?|[[->|?] ?]]; tauto.
    + intros [Hn Hnd]%NoDup_cons Hdis. rewrite Hord; [|done|].
      * rewrite keys_put_new by (apply Hdis, list_elem_of_here).
        rewrite <- app_assoc. f_equal.
        by destruct (python_tests.in_or_ALL n t).
      * intros m Hm [Hin|[-> _]]%keys_put_iff; [|done].
        by apply (Hdis m); [apply list_elem_of_further|].
Qed.

Lemma get_tests_unfold jobs t w :
  python_tests.get_tests jobs t w =
    match w_tests w with
    | [] =>
        bind (python_tests.wanted t "Do you want to run pytest?" "pytest")
          (λ _, ret (od_set "pytest" python_tests.pytest_job jobs)) w
    | _ => python_tests.get_tests_loop (w_tests w) jobs t w
    end.
Proof.
  unfold python_tests.get_tests, tests.get_all_tests.
  unfold bind at 1 2. unfold get, ret at 1. by destruct (w_tests w).
Qed.

(** The jobs assembled before the coverage job is decided, when the tests
    are listed on the command line. *)
Lemma jobs_before_coverage_list kw w :
  python_tests.not_ (python_tests.tests kw) = false →
  ∃ j,
    python_tests.jobs_before_coverage kw w = Ret j w ∧
    (∀ x, x ∈ od_keys j ↔
          (x ∈ ["ruff"; "lock"; "mypy"; "importlinter"]
                 ++ python_tests.test_names w ∧
           python_tests.in_or_ALL x (python_tests.tests kw) = true) ∨
          (w_tests w = [] ∧ x = "pytest")) ∧
    (w_tests w = [] →
     od_keys j =
       List.filter (λ n, python_tests.in_or_ALL n (python_tests.tests kw))
         ["ruff"; "lock"; "mypy"; "importlinter"] ++ ["pytest"]) ∧
    (w_tests w ≠ [] →
     NoDup (python_tests.test_names w) →
     (∀ n, n ∈ python_tests.test_names w →
           n ∉ ["ruff"; "lock"; "mypy"; "importlinter"]) →
     od_keys j =
       List.filter (λ n, python_tests.in_or_ALL n (python_tests.tests kw))
         (["ruff"; "lock"; "mypy"; "importlinter"]
            ++ python_tests.test_names w)).
Proof.
  intros H. unfold python_tests.jobs_before_coverage.
  rewrite (bind_Ret _ _ _ _ _ (get_linters_list _ _ w H)).
  rewrite (bind_Ret _ _ _ _ _ (get_static_tests_list _ _ w H)).
  cbv zeta. set (t := python_tests.tests kw) in *.
  match goal with |- ∃ j, python_tests.get_tests ?j0 _ _ = _ ∧ _ =>
    set (j2 := j0) end.
  assert (od_keys j2 = List.filter (λ n, python_tests.in_or_ALL n t)
                         ["ruff"; "lock"; "mypy"; "importlinter"]) as Hk2.
  { subst j2. cbn [List.filter].
    by destruct (python_tests.in_or_ALL "ruff" t),
                (python_tests.in_or_ALL "lock" t),
                (python_tests.in_or_ALL "mypy" t),
                (python_tests.in_or_ALL "importlinter" t). }
  assert (∀ x, x ∈ od_keys j2 ↔
               x ∈ ["ruff"; "lock"; "mypy"; "importlinter"] ∧
               python_tests.in_or_ALL x t = true) as Hj2.
  { intros x. by rewrite Hk2, !list_elem_of_In, List.filter_In. }
  clearbody j2. rewrite get_tests_unfold. unfold python_tests.test_names.
  destruct (w_tests w) as [|c l] eqn:Hw.
  - rewrite (bind_Ret _ _ _ _ _ (wanted_given _ _ _ w H)).
    eexists. split; [reflexivity|]. split; [|split; [|done]].
    + intros x. rewrite od_keys_od_set, Hj2. simpl. rewrite ?app_nil_r.
      intuition congruence.
    + intros _. rewrite od_keys_od_set_new, Hk2; [done|].
      rewrite Hj2, !elem_of_cons, elem_of_nil. intuition discriminate.
  - destruct (get_tests_loop_list (c :: l) j2 t w H) as (j & He & Hiff & Hord).
    exists j. split; [done|]. split; [|split; [done|]].
    + intros x. rewrite Hiff, Hj2, elem_of_app. intuition congruence.
    + intros _ Hnd Hdis. rewrite Hord, Hk2, List.filter_app; [done..|].
      intros n Hn [Hin _]%Hj2. by apply (Hdis n).
Qed.

(** X14.  When the tests are listed on the command line, nothing is asked
    and the jobs selected are settled by the list alone: a job is selected
    exactly when it is one of [ruff], [lock], [mypy], [importlinter],
    [coverage] or a registered test and the list names it or holds [ALL];
    with an empty test registry the [pytest] job is selected besides,
    whether the list names it or not.  The selection returns unless the
    coverage job is selected together with [coverage_fail_regressed]. *)
Theorem listed_tests_select_jobs (kw : python_tests.kwargs) (w : world) :
  python_tests.not_ (python_tests.tests kw) = false →
  (∀ jobs w',
      python_tests.selected_jobs kw w = Ret jobs w' →
      w' = w ∧
      ∀ x, x ∈ od_keys jobs ↔
           (x ∈ ["ruff"; "lock"; "mypy"; "importlinter"]
                  ++ python_tests.test_names w ++ ["coverage"] ∧
            python_tests.in_or_ALL x (python_tests.tests kw) = true) ∨
           (w_tests w = [] ∧ x = "pytest")) ∧
  ((python_tests.in_or_ALL "coverage" (python_tests.tests kw)
    && python_tests.truthy_flag (python_tests.coverage_fail_regressed kw))%bool
   = false →
   ∃ jobs, python_tests.selected_jobs kw w = Ret jobs w).
Proof.
  intros H.
  destruct (jobs_before_coverage_list kw w H) as (j & Hj & Hiff & _).
  unfold python_tests.selected_jobs.
  rewrite (bind_Ret _ _ _ _ _ Hj), get_coverage_list by done.
  split.
  - intros jobs w'.
    destruct (python_tests.in_or_ALL "coverage" (python_tests.tests kw)) eqn:Hc;
      [destruct (python_tests.truthy_flag _); [done|]|];
      intros [= <- <-]; (split; [done|]); intros x;
      rewrite ?od_keys_od_set, Hiff, !elem_of_app, list_elem_of_singleton;
      intuition congruence.
  - destruct (python_tests.in_or_ALL "coverage" (python_tests.tests kw));
      [|by eexists].
    destruct (python_tests.truthy_flag _); [done | by eexists].
Qed.

Lemma listed_tests_select_jobs_witness :
  "pytest" ∈ od_keys [("ruff", python_tests.ruff_job)] ↔
  ("pytest" ∈ ["ruff"; "lock"; "mypy"; "importlinter"]
                ++ python_tests.test_names examples.w_imported ++ ["coverage"] ∧
   python_tests.in_or_ALL "pytest" (python_tests.tests examples.scenario)
     = true) ∨
  (w_tests examples.w_imported = [] ∧ "pytest" = "pytest").
Proof.
  exact (proj2 (proj1 (listed_tests_select_jobs examples.scenario
                         examples.w_imported eq_refl)
                  [("ruff", python_tests.ruff_job)] examples.w_imported
                  eq_refl) "pytest").
Defined.

(** X15.  The selected jobs come in the order of the stages: the linters
    [ruff] and [lock], the static tests [mypy] and [importlinter], the
    registered tests in the order of the registry (the [pytest] job when
    the registry is empty), then [coverage].  For the registered tests this
    holds when their names are distinct and none is the name of a fixed
    job; a test bearing the name of an earlier job takes that job's place
    instead. *)
Theorem selected_jobs_in_stage_order (kw : python_tests.kwargs) (w w' : world)
    (jobs : odict) :
  python_tests.not_ (python_tests.tests kw) = false →
  python_tests.selected_jobs kw w = Ret jobs w' →
  (w_tests w = [] →
   od_keys jobs =
     List.filter (λ n, python_tests.in_or_ALL n (python_tests.tests kw))
       ["ruff"; "lock"; "mypy"; "importlinter"]
     ++ ["pytest"]
     ++ List.filter (λ n, python_tests.in_or_ALL n (python_tests.tests kw))
          ["coverage"]) ∧
  (w_tests w ≠ [] →
   NoDup (python_tests.test_names w) →
   (∀ n, n ∈ python_tests.test_names w →
         n ∉ ["ruff"; "lock"; "mypy"; "importlinter"; "coverage"]) →
   od_keys jobs =
     List.filter (λ n, python_tests.in_or_ALL n (python_tests.tests kw))
       (["ruff"; "lock"; "mypy"; "importlinter"]
          ++ python_tests.test_names w ++ ["coverage"])).
Proof.
  intros H.
  destruct (jobs_before_coverage_list kw w H) as (j & Hj & Hiff & Hemp & Hord).
  unfold python_tests.selected_jobs.
  rewrite (bind_Ret _ _ _ _ _ Hj), get_coverage_list by done.
  intros Hsel. split.
  - intros Hw. specialize (Hemp Hw). cbn [List.filter].
    assert ("coverage" ∉ od_keys j) as Hc.
    { rewrite Hiff. unfold python_tests.test_names. rewrite Hw. simpl.
      rewrite !elem_of_cons, elem_of_nil. intuition discriminate. }
    destruct (python_tests.in_or_ALL "coverage" (python_tests.tests kw));
      [destruct (python_tests.truthy_flag _); [done|]|];
      injection Hsel as <- <-.
    + by rewrite od_keys_od_set_new, Hemp, <- app_assoc.
    + by rewrite Hemp.
  - intros Hw Hnd Hdis.
    rewrite app_assoc, List.filter_app, <- Hord; [|done..|].
    + assert ("coverage" ∉ od_keys j) as Hc.
      { rewrite Hiff, elem_of_app. intros [[[Hin|Hin] _]|[? _]]; [| |done].
        - revert Hin. rewrite !elem_of_cons, elem_of_nil. intuition discriminate.
        - apply (Hdis _ Hin). do 4 apply list_elem_of_further.
          apply list_elem_of_here. }
      cbn [List.filter].
      destruct (python_tests.in_or_ALL "coverage" (python_tests.tests kw));
        [destruct (python_tests.truthy_flag _); [done|]|];
        injection Hsel as <- <-.
      * by rewrite od_keys_od_set_new.
      * by rewrite app_nil_r.
    + intros n Hn Hin. apply (Hdis n Hn). revert Hin.
      rewrite !elem_of_cons. tauto.
Qed.

Lemma selected_jobs_in_stage_order_witness :
  python_tests.selected_jobs examples.all_jobs examples.w_two_suites
    = Ret examples.all_selected examples.w_two_suites ∧
  od_keys examples.all_selected
    = ["ruff"; "lock"; "mypy"; "importlinter"; "unit"; "api"; "coverage"].
Proof.
  split; [reflexivity|].
  apply (proj2 (selected_jobs_in_stage_order examples.all_jobs
                  examples.w_two_suites examples.w_two_suites
                  examples.all_selected eq_refl eq_refl)).
  - discriminate.
  - apply (bool_decide_unpack _). by vm_compute.
  - intros n Hn. apply (bool_decide_unpack _).
    apply elem_of_cons in Hn as [->|Hn]; [by vm_compute|].
    apply list_elem_of_singleton in Hn as ->. by vm_compute.
Defined.

(** *** The gate *)

Lemma mark_required_sub names required w l w' :
  python_tests.mark_required names required w = Ret l w' →
  ∀ x, x ∈ l → x ∈ names.
Proof.
  revert w l w'. induction names as [|n names IH]; intros w l w'; simpl.
  - intros [= <- _] x Hx. by apply elem_of_nil in Hx.
  - intros (b & w1 & _ & (l' & w2 & Hl & Hr)%bind_Ret_inv)%bind_Ret_inv.
    injection Hr as <- _. intros x Hx.
    destruct b.
    + apply elem_of_cons in Hx as [->|Hx]; [apply list_elem_of_here|].
      apply list_elem_of_further. by apply (IH _ _ _ Hl).
    + apply list_elem_of_further. by apply (IH _ _ _ Hl).
Qed.

Lemma od_set_Forall (P : string * value → Prop) k v d :
  P (k, v) → Forall P d → Forall P (od_set k v d).
Proof.
  intros Hv. induction 1 as [|[k' v'] d Hh Ht IH]; simpl.
  - by repeat constructor.
  - destruct (String.eqb k' k); by constructor.
Qed.

Lemma put_Forall (P : string * value → Prop) (b : bool) k v d :
  P (k, v) → Forall P d → Forall P (if b then od_set k v d else d).
Proof. intros Hv Hd. destruct b; [by apply od_set_Forall | done]. Qed.

Lemma od_set_elem k v d kv :
  kv ∈ od_set k v d → kv = (k, v) ∨ kv ∈ d.
Proof.
  induction d as [|[k' v'] d IH]; simpl.
  - intros ->%list_elem_of_singleton. by left.
  - destruct (String.eqb k' k).
    + intros [->|H]%elem_of_cons; [by left|]. right. by apply list_elem_of_further.
    + intros [->|H]%elem_of_cons; [right; apply list_elem_of_here|].
      destruct (IH H) as [?|?]; [by left|]. right. by apply list_elem_of_further.
Qed.

Lemma od_get_od_set_new k v d :
  od_get k (od_set k v d) = Some v.
Proof.
  induction d as [|[k' v'] d IH]; simpl.
  - by rewrite String.eqb_refl.
  - destruct (String.eqb k' k) eqn:E; simpl; rewrite ?E, ?String.eqb_refl; done.
Qed.

Lemma od_get_None k d : k ∉ od_keys d → od_get k d = None.
Proof.
  unfold od_keys. induction d as [|[k' v'] d IH]; simpl; intros Hk; [done|].
  apply not_elem_of_cons in Hk as [Hne Hk].
  destruct (String.eqb_spec k' k) as [->|_]; [done|]. by apply IH.
Qed.

Lemma strings_map_VStr l : graph.strings (map VStr l) = l.
Proof. induction l as [|a l IH]; simpl; [done|]. by rewrite IH. Qed.

Lemma needs_of_tests_passed_job l :
  graph.needs_of (python_tests.tests_passed_job l) = l.
Proof. unfold graph.needs_of. simpl. apply strings_map_VStr. Qed.

Lemma str_in_elem x l : str_in x l = true ↔ x ∈ l.
Proof. unfold str_in. apply bool_decide_eq_true. Qed.

(** No selected job waits for another one, prompted or not. *)
Lemma selected_jobs_wait_for_nothing kw w jobs w' :
  python_tests.selected_jobs kw w = Ret jobs w' →
  Forall (λ kv, graph.needs_of (snd kv) = []) jobs.
Proof.
  unfold python_tests.selected_jobs, python_tests.jobs_before_coverage.
  intros (j3 & w3 & Hb & Hc)%bind_Ret_inv.
  apply bind_Ret_inv in Hb as (j1 & w1 & H1 & Hb).
  apply bind_Ret_inv in Hb as (j2 & w2 & H2 & H3).
  assert (Forall (λ kv, graph.needs_of (snd kv) = []) j1) as F1.
  { unfold python_tests.get_linters in H1.
    apply bind_Ret_inv in H1 as (b1 & ? & _ & (b2 & ? & _ & Hr)%bind_Ret_inv).
    injection Hr as <- _.
    destruct b1, b2;
      repeat first [assumption | apply od_set_Forall | constructor]. }
  assert (Forall (λ kv, graph.needs_of (snd kv) = []) j2) as F2.
  { unfold python_tests.get_static_tests in H2.
    apply bind_Ret_inv in H2 as (b1 & ? & _ & (b2 & ? & _ & Hr)%bind_Ret_inv).
    injection Hr as <- _.
    destruct b1, b2;
      repeat first [assumption | apply od_set_Forall | constructor]. }
  assert (Forall (λ kv, graph.needs_of (snd kv) = []) j3) as F3.
  { rewrite get_tests_unfold in H3. destruct (w_tests w2) as [|c l].
    - apply bind_Ret_inv in H3 as (b & ? & _ & Hr). injection Hr as <- _.
      by apply od_set_Forall.
    - clear H2. generalize dependent w2. generalize dependent j2.
      generalize (c :: l) as all_tests. clear c l.
      induction all_tests as [|c l IH]; intros j2 F2 w2; simpl.
      + by intros [= <- _].
      + intros (b & w4 & _ & Hl)%bind_Ret_inv.
        eapply IH; [|exact Hl].
        destruct b; [by apply od_set_Forall | done]. }
  unfold python_tests.get_coverage in Hc.
  apply bind_Ret_inv in Hc as (b & ? & _ & Hr).
  destruct b; [destruct (python_tests.truthy_flag _); [done|]|];
    injection Hr as <- _; [by apply od_set_Forall | done].
Qed.

(** X16.  The job graph [get_jobs] returns, prompted or not, is one a
    workflow runner can schedule, no registered test bearing the gate's
    name: every job a job waits for is a job of the graph; only the gate
    [python-tests-passed] waits for anything; and when the graph has the
    gate, it is the last job, it waits for at least one job and not for
    itself. *)
Theorem job_graph_is_closed (kw : python_tests.kwargs) (w w' : world)
    (jobs : odict) :
  python_tests.get_jobs kw w = Ret jobs w' →
  python_tests.gate ∉ python_tests.test_names w →
  graph.needs_closed jobs = true ∧
  (∀ k v, (k, v) ∈ jobs → k ≠ python_tests.gate → graph.needs_of v = []) ∧
  (∀ g, od_get python_tests.gate jobs = Some g →
        graph.needs_of g ≠ [] ∧
        (python_tests.gate ∉ graph.needs_of g) ∧
        last (od_keys jobs) = Some python_tests.gate).
Proof.
  rewrite get_jobs_selected.
  intros (js & w1 & Hsel & Hp)%bind_Ret_inv Hnames.
  pose proof (selected_jobs_wait_for_nothing _ _ _ _ Hsel) as Hfree.
  assert (python_tests.gate ∉ od_keys js) as Hgate.
  { intros [Hk|Hk]%(selected_jobs_keys _ _ _ _ Hsel); [|done].
    revert Hk. apply (bool_decide_unpack _). by vm_compute. }
  unfold python_tests.get_tests_passed in Hp.
  apply bind_Ret_inv in Hp as (req & w2 & Hm & Hr).
  pose proof (mark_required_sub _ _ _ _ _ Hm) as Hsub.
  rewrite Forall_forall in Hfree.
  destruct req as [|r req]; injection Hr as <- _.
  - split; [|split].
    + unfold graph.needs_closed. apply forallb_forall.
      intros kv Hkv%list_elem_of_In. by rewrite (Hfree kv Hkv).
    + intros k v Hkv _. apply (Hfree _ Hkv).
    + intros g Hg. by rewrite od_get_None in Hg.
  - set (req' := r :: req) in *.
    split; [|split].
    + unfold graph.needs_closed. apply forallb_forall.
      intros kv [->|Hkv]%list_elem_of_In%od_set_elem.
      * simpl snd. rewrite needs_of_tests_passed_job. apply forallb_forall.
        intros n Hn%list_elem_of_In. apply str_in_elem, od_keys_od_set.
        right. by apply Hsub.
      * by rewrite (Hfree kv Hkv).
    + intros k v [[= -> ->]|Hkv]%od_set_elem Hk; [done|]. apply (Hfree _ Hkv).
    + intros g Hg. rewrite od_get_od_set_new in Hg. injection Hg as <-.
      rewrite needs_of_tests_passed_job. split; [done|]. split.
      * intros Hin. by apply Hgate, Hsub.
      * rewrite od_keys_od_set_new by done. apply last_snoc.
Qed.

Lemma job_graph_is_closed_witness :
  ∃ jobs,
    python_tests.get_jobs examples.all_jobs examples.w_two_suites
      = Ret jobs examples.w_two_suites ∧
    graph.needs_closed jobs = true ∧
    last (od_keys jobs) = Some python_tests.gate.
Proof.
  eexists. split; [reflexivity|].
  destruct (job_graph_is_closed examples.all_jobs examples.w_two_suites
              examples.w_two_suites _ eq_refl) as (Hc & _ & Hg).
  - apply (bool_decide_unpack _). by vm_compute.
  - split; [exact Hc|]. by destruct (Hg _ eq_refl) as (_ & _ & Hl).
Defined.

(** ** The approval bot (scripts/ci/approval_bot.py) *)

(** X17.  Whatever flags are given, the jobs of the approval bot come in
    the order [clear-automerge], [auto-approve-owner],
    [auto-approve-dependabot], [commit-linter], each present exactly when
    its flag is set, [clear-automerge] also when [--dependabot] is: so the
    job [auto-approve-dependabot] waits for is always a job of the graph.
    The document built always has the five keys [name], [run-name],
    [permissions], [on], [jobs], and building it changes nothing. *)
Theorem approval_jobs_are_closed (kw : approval_bot.kwargs) :
  graph.needs_closed (approval_bot.get_jobs kw) = true ∧
  od_keys (approval_bot.get_jobs kw) =
    (if (approval_bot.clear_automerge kw || approval_bot.dependabot kw)%bool
     then ["clear-automerge"] else [])
    ++ (if approval_bot.owner kw then ["auto-approve-owner"] else [])
    ++ (if approval_bot.dependabot kw then ["auto-approve-dependabot"] else [])
    ++ (if approval_bot.commit_linter kw then ["commit-linter"] else []) ∧
  ∀ create_arguments w,
    ∃ doc,
      ci_base.get_workflow_definition
        (approval_bot.ApprovalBot create_arguments) kw w = Ret doc w ∧
      ci_base.node_keys (ci_base.represent (VODict doc))
        = ["name"; "run-name"; "permissions"; "on"; "jobs"].
Proof.
  split; [|split].
  - by destruct kw as [[] [] [] []].
  - by destruct kw as [[] [] [] []].
  - intros ca w. eexists. split; [reflexivity|]. by rewrite node_keys_odict.
Qed.

(** ** Prompts (scripts/ci/python_tests.py) *)

Lemma read_choice_skips junk lines :
  Forall (λ l, str_in (lower l) ["y"; "yes"; "n"; "no"; EmptyString] = false)
         junk →
  python_tests.read_choice (junk ++ lines) = python_tests.read_choice lines.
Proof.
  induction 1 as [|l junk Hl _ IH]; [done|]. simpl. by rewrite Hl.
Qed.

(** X18.  A prompt reads lines until one is an answer: [y], [yes], [n],
    [no] in any letter case, or the empty line.  The lines before it are
    dropped, the lines after it are left for the next prompt; the empty
    line gives the default, [y] and [yes] give [True], [n] and [no] give
    [False].  When the input ends before an answer the prompt raises
    [EOFError]. *)
Theorem prompt_reads_first_answer (message : string) (default : bool)
    (w : world) (junk : list string) :
  Forall (λ l, str_in (lower l) ["y"; "yes"; "n"; "no"; EmptyString] = false)
         junk →
  (∀ answer rest,
      w_stdin w = junk ++ answer :: rest →
      str_in (lower answer) ["y"; "yes"; "n"; "no"; EmptyString] = true →
      python_tests.prompt_bool message default w =
        Ret (if String.eqb (lower answer) EmptyString then default
             else str_in (lower answer) ["y"; "yes"])
            (with_stdin rest w)) ∧
  (w_stdin w = junk →
   python_tests.prompt_bool message default w
     = Raise EOFError (with_stdin [] w)).
Proof.
  intros Hjunk. unfold python_tests.prompt_bool. split.
  - intros answer rest -> Ha. rewrite (read_choice_skips _ _ Hjunk).
    simpl. by rewrite Ha.
  - intros ->. rewrite <- (app_nil_r junk), (read_choice_skips _ _ Hjunk).
    done.
Qed.

Lemma prompt_reads_first_answer_witness :
  python_tests.prompt_bool "Do you want to run ruff?" true
    (with_stdin ["maybe"; "No"; "y"] examples.w_start)
  = Ret false (with_stdin ["y"] examples.w_start) ∧
  python_tests.prompt_bool "Do you want to run ruff?" true
    (with_stdin ["maybe"] examples.w_start)
  = Raise EOFError (with_stdin [] examples.w_start).
Proof.
  assert (Forall (λ l, str_in (lower l) ["y"; "yes"; "n"; "no"; EmptyString]
                       = false) ["maybe"]) as Hjunk
    by (by repeat constructor).
  split.
  - apply (proj1 (prompt_reads_first_answer "Do you want to run ruff?" true
                    (with_stdin ["maybe"; "No"; "y"] examples.w_start)
                    ["maybe"] Hjunk) "No" ["y"]); reflexivity.
  - apply (proj2 (prompt_reads_first_answer "Do you want to run ruff?" true
                    (with_stdin ["maybe"] examples.w_start)
                    ["maybe"] Hjunk)); reflexivity.
Defined.

(** *** Prompted selection *)

Lemma with_stdin_same w : with_stdin (w_stdin w) w = w.
Proof. by destruct w. Qed.

Lemma wanted_default t message key w rest :
  python_tests.not_ t = true →
  w_stdin w = EmptyString :: rest →
  python_tests.wanted t message key w = Ret true (with_stdin rest w).
Proof.
  intros Ht Hw. unfold python_tests.wanted, python_tests.prompt_bool.
  by rewrite Ht, Hw.
Qed.

Lemma get_tests_loop_default l jobs t w rest :
  python_tests.not_ t = true →
  w_stdin w = replicate (length l) EmptyString ++ rest →
  ∃ jobs',
    python_tests.get_tests_loop l jobs t w = Ret jobs' (with_stdin rest w) ∧
    (∀ kv, kv ∈ jobs' → kv ∈ jobs ∨ graph.needs_of (snd kv) = []) ∧
    (NoDup (map (λ t, cls_name (inst_cls t)) l) →
     (∀ n, n ∈ map (λ t, cls_name (inst_cls t)) l → n ∉ od_keys jobs) →
     od_keys jobs' = od_keys jobs ++ map (λ t, cls_name (inst_cls t)) l).
Proof.
  intros Ht. revert jobs w. induction l as [|c l IH]; intros jobs w Hw.
  - exists jobs. simpl in *. rewrite <- Hw, with_stdin_same.
    split; [done|]. split; [by left|]. intros _ _. by rewrite app_nil_r.
  - simpl in Hw. simpl python_tests.get_tests_loop.
    rewrite (bind_Ret _ _ _ _ _ (wanted_default _ _ _ _ _ Ht Hw)).
    set (n := cls_name (inst_cls c)).
    destruct (IH (od_set n (python_tests.suite_job n) jobs)
                 (with_stdin (replicate (length l) EmptyString ++ rest) w)
                 eq_refl) as (jobs' & He & Hfree & Hord).
    exists jobs'. split; [exact He|]. split.
    + intros kv [[->|Hkv]%od_set_elem|Hkv]%Hfree; auto.
    + intros [Hn Hnd]%NoDup_cons Hdis. rewrite Hord; [|done|].
      * rewrite od_keys_od_set_new by (apply Hdis, list_elem_of_here).
        by rewrite <- app_assoc.
      * intros m Hm [->|Hin]%od_keys_od_set; [done|].
        by apply (Hdis m); [apply list_elem_of_further|].
Qed.

Lemma mark_required_default names w rest :
  w_stdin w = replicate (length names) EmptyString ++ rest →
  python_tests.mark_required names None w = Ret names (with_stdin rest w).
Proof.
  revert w. induction names as [|n names IH]; intros w Hw.
  - simpl in *. by rewrite <- Hw, with_stdin_same.
  - simpl in Hw. simpl python_tests.mark_required.
    assert (python_tests.prompt_bool ("Is " +:+ n +:+ " required for the CI?")
              true w
            = Ret true (with_stdin (replicate (length names) EmptyString ++ rest) w))
      as Hp by (unfold python_tests.prompt_bool; by rewrite Hw).
    rewrite (bind_Ret _ _ _ _ _ Hp).
    by rewrite (bind_Ret _ _ _ _ _ (IH (with_stdin _ w) eq_refl)).
Qed.

Lemma get_linters_default jobs t w rest :
  python_tests.not_ t = true →
  w_stdin w = EmptyString :: EmptyString :: rest →
  python_tests.get_linters jobs t w =
    Ret (od_set "lock" python_tests.lock_job
           (od_set "ruff" python_tests.ruff_job jobs)) (with_stdin rest w).
Proof.
  intros Ht Hw. unfold python_tests.get_linters.
  rewrite (bind_Ret _ _ _ _ _ (wanted_default _ _ _ _ _ Ht Hw)).
  cbv beta iota zeta.
  by rewrite (bind_Ret _ _ _ _ _
                (wanted_default _ _ _ (with_stdin _ w) _ Ht eq_refl)).
Qed.

Lemma get_static_tests_default jobs t w rest :
  python_tests.not_ t = true →
  w_stdin w = EmptyString :: EmptyString :: rest →
  python_tests.get_static_tests jobs t w =
    Ret (od_set "importlinter" python_tests.importlinter_job
           (od_set "mypy" python_tests.mypy_job jobs)) (with_stdin rest w).
Proof.
  intros Ht Hw. unfold python_tests.get_static_tests.
  rewrite (bind_Ret _ _ _ _ _ (wanted_default _ _ _ _ _ Ht Hw)).
  cbv beta iota zeta.
  by rewrite (bind_Ret _ _ _ _ _
                (wanted_default _ _ _ (with_stdin _ w) _ Ht eq_refl)).
Qed.

Lemma replicate_shift {A} (n : nat) (x : A) (l : list A) :
  replicate (S n) x ++ l = replicate n x ++ x :: l.
Proof. induction n as [|n IH]; simpl in *; [done|]. by rewrite IH. Qed.

Lemma jobs_before_coverage_default kw w rest :
  python_tests.not_ (python_tests.tests kw) = true →
  w_tests w ≠ [] →
  w_stdin w = replicate (4 + length (w_tests w)) EmptyString ++ rest →
  ∃ j,
    python_tests.jobs_before_coverage kw w = Ret j (with_stdin rest w) ∧
    (∀ kv, kv ∈ j → graph.needs_of (snd kv) = []) ∧
    (NoDup (python_tests.test_names w) →
     (∀ n, n ∈ python_tests.test_names w →
           n ∉ ["ruff"; "lock"; "mypy"; "importlinter"]) →
     od_keys j =
       ["ruff"; "lock"; "mypy"; "importlinter"] ++ python_tests.test_names w).
Proof.
  intros Ht Hne Hw. simpl in Hw. unfold python_tests.jobs_before_coverage.
  rewrite (bind_Ret _ _ _ _ _ (get_linters_default _ _ _ _ Ht Hw)).
  rewrite (bind_Ret _ _ _ _ _
             (get_static_tests_default _ _ (with_stdin _ w) _ Ht eq_refl)).
  rewrite get_tests_unfold. unfold python_tests.test_names.
  change (w_tests (with_stdin _ (with_stdin _ w))) with (w_tests w).
  destruct (w_tests w) as [|c l] eqn:Hl; [done|].
  match goal with
  | |- ∃ j, python_tests.get_tests_loop _ ?j0 _ ?w0 = _ ∧ _ =>
      destruct (get_tests_loop_default (c :: l) j0 (python_tests.tests kw)
                  w0 rest Ht eq_refl) as (j & He & Hfree & Hord)
  end.
  exists j. split; [exact He|]. split.
  - intros kv [Hkv|Hkv]%Hfree; [|done].
    repeat (apply od_set_elem in Hkv as [->|Hkv]; [reflexivity|]).
    by apply elem_of_nil in Hkv.
  - intros Hnd Hdis. apply (Hord Hnd Hdis).
Qed.

Lemma get_coverage_default jobs t fail_under regressed w rest :
  python_tests.not_ t = true →
  python_tests.truthy_flag regressed = false →
  w_stdin w = EmptyString :: rest →
  python_tests.get_coverage jobs t fail_under regressed w =
    Ret (od_set "coverage"
           (python_tests.coverage_job
              (if python_tests.truthy_int fail_under
               then "--fail-under=" +:+ pretty (default 0 fail_under)
               else EmptyString)) jobs) (with_stdin rest w).
Proof.
  intros Ht Hflag Hw. unfold python_tests.get_coverage.
  rewrite (bind_Ret _ _ _ _ _ (wanted_default _ _ _ _ _ Ht Hw)).
  by rewrite Hflag.
Qed.

(** X19.  With no test named on the command line and no [required] list,
    answering every prompt with the empty line selects every job and marks
    every job required: the graph holds [ruff], [lock], [mypy],
    [importlinter], the registered tests, [coverage] and the gate, in that
    order, and the gate waits for all the others.  Two lines are read for
    each job but the gate, and no more.  The registered tests are taken to
    bear distinct names, none that of another job. *)
Theorem enter_selects_everything (kw : python_tests.kwargs) (w : world)
    (rest : list string) :
  python_tests.not_ (python_tests.tests kw) = true →
  python_tests.required kw = None →
  python_tests.truthy_flag (python_tests.coverage_fail_regressed kw) = false →
  w_tests w ≠ [] →
  NoDup (python_tests.test_names w) →
  (∀ n, n ∈ python_tests.test_names w →
        n ∉ ["ruff"; "lock"; "mypy"; "importlinter"; "coverage";
             python_tests.gate]) →
  w_stdin w = replicate (5 + length (w_tests w)) EmptyString
              ++ replicate (5 + length (w_tests w)) EmptyString ++ rest →
  ∃ jobs g,
    python_tests.get_jobs kw w = Ret jobs (with_stdin rest w) ∧
    od_keys jobs =
      ["ruff"; "lock"; "mypy"; "importlinter"] ++ python_tests.test_names w
      ++ ["coverage"; python_tests.gate] ∧
    od_get python_tests.gate jobs = Some g ∧
    graph.needs_of g =
      ["ruff"; "lock"; "mypy"; "importlinter"] ++ python_tests.test_names w
      ++ ["coverage"].
Proof.
  intros Ht Hreq Hflag Hne Hnd Hdis Hw.
  change (5 + length (w_tests w))%nat with (S (4 + length (w_tests w)))
    in Hw at 1.
  rewrite replicate_shift in Hw.
  destruct (jobs_before_coverage_default kw w _ Ht Hne Hw)
    as (j & Hj & Hfree & Hord).
  assert (od_keys j = ["ruff"; "lock"; "mypy"; "importlinter"]
                      ++ python_tests.test_names w) as Hk.
  { apply Hord; [done|]. intros n Hn Hin. apply (Hdis n Hn).
    revert Hin. rewrite !elem_of_cons. tauto. }
  assert (∀ x, x ∈ ["coverage"; python_tests.gate] → x ∉ od_keys j) as Hnew.
  { intros x Hx. rewrite Hk, elem_of_app. intros [Hin|Hin].
    - revert Hx Hin. rewrite !elem_of_cons, !elem_of_nil.
      intros [->|[->|[]]]; intuition discriminate.
    - apply (Hdis x Hin). revert Hx. rewrite !elem_of_cons. tauto. }
  rewrite get_jobs_stages, (bind_Ret _ _ _ _ _ Hj).
  rewrite (bind_Ret _ _ _ _ _
             (get_coverage_default _ _ _ _ (with_stdin _ w) _ Ht Hflag eq_refl)).
  match goal with
  | |- ∃ jobs g, python_tests.get_tests_passed ?j0 _ _ = _ ∧ _ => set (js := j0)
  end.
  assert (od_keys js = ["ruff"; "lock"; "mypy"; "importlinter"]
                       ++ python_tests.test_names w ++ ["coverage"]) as Hks.
  { subst js. rewrite od_keys_od_set_new, Hk, <- app_assoc; [done|].
    apply Hnew, list_elem_of_here. }
  assert (length (od_keys js) = (5 + length (w_tests w))%nat) as Hlen.
  { rewrite Hks. unfold python_tests.test_names.
    rewrite !length_app, length_map. simpl. lia. }
  assert (python_tests.gate ∉ od_keys js) as Hgate.
  { subst js. rewrite od_keys_od_set. intros [[=]|Hin].
    revert Hin. apply Hnew. apply list_elem_of_further, list_elem_of_here. }
  clearbody js.
  unfold python_tests.get_tests_passed. rewrite Hreq.
  rewrite (bind_Ret _ _ _ _ _
             (mark_required_default (od_keys js) (with_stdin _ w) rest
                ltac:(by rewrite Hlen))).
  exists (od_set python_tests.gate
            (python_tests.tests_passed_job (od_keys js)) js),
         (python_tests.tests_passed_job (od_keys js)).
  split; [|split; [|split]].
  - by destruct (od_keys js).
  - by rewrite od_keys_od_set_new, Hks, <- !app_assoc.
  - apply od_get_od_set_new.
  - by rewrite needs_of_tests_passed_job.
Qed.

Lemma enter_selects_everything_witness :
  ∃ jobs,
    python_tests.get_jobs examples.interactive examples.w_enter
      = Ret jobs (with_stdin ["n"] examples.w_enter) ∧
    od_keys jobs =
      ["ruff"; "lock"; "mypy"; "importlinter"; "unit"; "api"; "coverage";
       "python-tests-passed"].
Proof.
  destruct (enter_selects_everything examples.interactive examples.w_enter
              ["n"] eq_refl eq_refl eq_refl)
    as (jobs & g & Hjobs & Hkeys & _).
  - discriminate.
  - apply (bool_decide_unpack _). by vm_compute.
  - intros n Hn. apply (bool_decide_unpack _).
    apply elem_of_cons in Hn as [->|Hn]; [by vm_compute|].
    apply list_elem_of_singleton in Hn as ->. by vm_compute.
  - reflexivity.
  - exists jobs. by split.
Defined.

(** ** The generator and its build action (scripts/ci/python_tests.py) *)

(** The document of the build action is a constant. *)
Lemma build_action_definition :
  ∃ doc, ∀ w0,
    ci_base.get_action_definition python_tests.PythonBuildAction tt w0
    = Ret doc w0.
Proof. eexists. intros w0. reflexivity. Qed.

(** X20.  The [create] of the test-workflow generator writes the workflow
    first and the build action second.  When writing the workflow raises,
    that exception leaves [create] and the build action is not touched.
    When it returns, the build action is created through its own command
    called with [["create"]]: provided no regular file is in the way, no
    directory sits at [action.yml] and the current directory is still
    there, [create] returns, the directories of the action are made and
    [action.yml] holds the dump of a document that depends neither on the
    arguments of the generator nor on the world; nothing else changes. *)
Theorem generator_writes_build_action (PROJECT_ROOT : path)
    (create_arguments : list string → exn + python_tests.kwargs)
    (kw : python_tests.kwargs) (w : world) :
  let generator := python_tests.GitHubPythonTest PROJECT_ROOT create_arguments in
  let file := ci_base.action_file PROJECT_ROOT python_tests.PythonBuildAction in
  (∀ e w1,
      ci_base.Workflow_create PROJECT_ROOT generator kw w = Raise e w1 →
      ci_base.Workflow_self_create PROJECT_ROOT generator kw w = Raise e w1) ∧
  ∃ doc,
    (∀ w0, ci_base.get_action_definition python_tests.PythonBuildAction tt w0
           = Ret doc w0) ∧
    ∀ w1,
      ci_base.Workflow_create PROJECT_ROOT generator kw w = Ret tt w1 →
      fsys.clear_above (w_fs w1)
        (ci_base.action_path PROJECT_ROOT python_tests.PythonBuildAction)
        = true →
      is_dir (w_fs w1) file = false →
      is_dir (w_fs w1) (w_cwd w1) = true →
      ∃ fs1,
        fsys.adds_dirs (w_fs w1)
          (ci_base.action_path PROJECT_ROOT python_tests.PythonBuildAction)
          fs1 ∧
        ci_base.Workflow_self_create PROJECT_ROOT generator kw w =
          Ret tt (with_fs (<[file := FFile (Some (ci_base.represent doc))]> fs1)
                          w1).
Proof.
  intros generator file. subst generator file. split.
  - intros e w1 H. unfold ci_base.Workflow_self_create. simpl.
    unfold python_tests.create. by rewrite (bind_Raise _ _ _ _ _ H).
  - destruct build_action_definition as [doc Hdoc].
    exists doc. split; [exact Hdoc|].
    intros w1 Hcreate Hclear Hfile Hcwd.
    set (file := ci_base.action_file PROJECT_ROOT
                   python_tests.PythonBuildAction) in *.
    assert (parent file
            = ci_base.action_path PROJECT_ROOT python_tests.PythonBuildAction)
      as Hpar.
    { unfold file. rewrite action_file_parent. apply parent_app. }
    rewrite <- Hpar in Hclear.
    destruct (open_after_mkdir _ _ Hclear Hfile) as (fs1 & Hm & Ha & Ho).
    rewrite Hpar in Hm, Ha.
    exists fs1. split; [exact Ha|].
    change (ci_base.Workflow_self_create PROJECT_ROOT
              (python_tests.GitHubPythonTest PROJECT_ROOT create_arguments))
      with (python_tests.create PROJECT_ROOT
              (ci_base.Workflow_create PROJECT_ROOT
                 (python_tests.GitHubPythonTest PROJECT_ROOT create_arguments))).
    unfold python_tests.create.
    rewrite (bind_Ret _ _ _ _ _ Hcreate). cbv beta.
    set (build_action := Cls "PythonBuildAction"
                           (ci_base.a_name python_tests.PythonBuildAction)
                           false false false).
    assert (base.as_command build_action w1 = Ret (Instance build_action) w1)
      as Hnew by reflexivity.
    rewrite (bind_Ret _ _ _ _ _ Hnew).
    rewrite (Command_call_parsed _ _ (ci_base.FuncCreate tt)) by reflexivity.
    set (w2 := with_fs (<[file := FFile (Some (ci_base.represent doc))]> fs1) w1).
    apply (guarded_success _ _ w1 w1 w2 w2); [reflexivity | |].
    + change (ci_base.Action_create PROJECT_ROOT
                python_tests.PythonBuildAction tt w1 = Ret tt w2).
      unfold ci_base.Action_create. fold file.
      rewrite (bind_Ret _ _ w1 tt (with_fs fs1 w1));
        [|by unfold fs_call; rewrite Hm].
      rewrite (bind_Ret _ _ _ tt (with_fs (<[file := FFile None]> fs1) w1));
        [|by unfold fs_call; cbn [w_fs with_fs]; rewrite Ho].
      rewrite (bind_Ret _ _ _ _ _ (Hdoc _)).
      unfold ci_base.yaml_dump, modify. cbn [w_fs with_fs].
      rewrite insert_insert_eq. subst w2. by destruct w1.
    + rewrite os_chdir_dir.
      * subst w2. by destruct w1.
      * subst w2. cbn [w_fs with_fs]. unfold is_dir in *.
        destruct (decide (w_cwd w1 = file)) as [E|Hne].
        -- rewrite E in Hcwd. by rewrite Hcwd in Hfile.
        -- rewrite stat_insert_ne by done.
           destruct (Ha (w_cwd w1)) as [->|(Hn & _)]; [done|].
           by rewrite Hn in Hcwd.
Qed.

Lemma generator_writes_build_action_witness :
  ∃ fs1 doc,
    ci_base.Workflow_self_create examples.root examples.scenario_generator
      examples.scenario examples.w_imported =
    Ret tt (with_fs
              (<[ci_base.action_file examples.root
                   python_tests.PythonBuildAction :=
                   FFile (Some (ci_base.represent doc))]> fs1)
              (final_world
                 (ci_base.Workflow_create examples.root
                    examples.scenario_generator examples.scenario
                    examples.w_imported))).
Proof.
  destruct (proj2 (generator_writes_build_action examples.root
                     (λ _, inr examples.scenario) examples.scenario
                     examples.w_imported))
    as (doc & _ & H).
  destruct (H (final_world
                 (ci_base.Workflow_create examples.root
                    examples.scenario_generator examples.scenario
                    examples.w_imported)))
    as (fs1 & _ & Hrun); [reflexivity..|].
  exists fs1, doc. exact Hrun.
Defined.
